(** * PhishGuard training scripts: a shallow embedding and its properties

    The three scripts under [training_scripts/] (URL character CNN, SMS
    Bi-LSTM, e-mail LSTM / DistilBERT) share one pipeline shape: load a
    table, encode the text, build and fit a model, evaluate, export
    metadata.  This file embeds the deterministic parts of that pipeline
    and proves the properties the design document states about them. *)

From Stdlib Require Import ZArith QArith List String Ascii Bool Lia.
From stdpp Require Import base option list strings gmap sorting.

Import ListNotations.
Local Open Scope Z_scope.
Local Open Scope list_scope.

(** ** Python values used by the scripts *)

Module Py.

(** Exceptions the scripts and the libraries they call can raise. *)
Inductive exn :=
| ValueError (msg : string)
| OverflowError (msg : string)
| IndexError (msg : string)
| TypeError (msg : string)
| KeyError (msg : string)
| NameError (msg : string).

(** A computation that returns or raises. *)
Inductive result (A : Type) :=
| Ok (a : A)
| Raise (e : exn).
Arguments Ok {A} a.
Arguments Raise {A} e.

#[export] Instance result_ret : MRet result := fun _ a => Ok a.
#[export] Instance result_bind : MBind result := fun _ _ f m =>
  match m with
  | Ok a => f a
  | Raise e => Raise e
  end.

Definition is_ok {A} (r : result A) : bool :=
  match r with Ok _ => true | Raise _ => false end.

(** Reading a name that is no builtin inside a function of a module
    whose top level binds [names]. *)
Definition load_global (names : list string) (name : string) : result unit :=
  if bool_decide (name ∈ names) then Ok tt
  else Raise (NameError ("name '" +:+ name +:+ "' is not defined")).

(** A character of a Python [str] is a Unicode code point; [ord] reads it. *)
Record char := Char { ord : Z }.

(** [s[:n]] on a sequence: the first [n] items, and for a negative [n]
    everything but the last [-n] items. *)
Definition slice_to {A} (s : list A) (n : Z) : list A :=
  if 0 <=? n then firstn (Z.to_nat n) s
  else firstn (Z.to_nat (Z.of_nat (length s) + n)) s.

(** [[x] * n]: the empty list when [n <= 0]. *)
Definition times {A} (x : A) (n : Z) : list A := repeat x (Z.to_nat n).

(** [len(s)] *)
Definition len {A} (s : list A) : Z := Z.of_nat (length s).

(** *** Text held as byte strings

    Column names, labels and messages are modelled as [string], the
    UTF-8 bytes of the Python [str].  The operations below act on the
    ASCII range, which is where every keyword the scripts look for
    lives. *)

Definition code (c : ascii) : N := N_of_ascii c.

Definition lower_char (c : ascii) : ascii :=
  if ((65 <=? code c) && (code c <=? 90))%N
  then ascii_of_N (code c + 32) else c.

(** [s.lower()] *)
Fixpoint lower (s : string) : string :=
  match s with
  | EmptyString => EmptyString
  | String c s' => String (lower_char c) (lower s')
  end.

(** [sub in s] for strings. *)
Fixpoint contains (sub s : string) : bool :=
  String.prefix sub s ||
  match s with
  | EmptyString => false
  | String _ s' => contains sub s'
  end.

(** Truth value of [None] or a string: [not x] holds for [None] and ['']. *)
Definition truthy (x : option string) : bool :=
  match x with
  | None => false
  | Some s => negb (String.eqb s EmptyString)
  end.

(** *** [repr] of a string and of a list of strings *)

Definition quote1 : ascii := ascii_of_N 39.
Definition quote2 : ascii := ascii_of_N 34.
Definition backslash : ascii := ascii_of_N 92.

Definition has_char (c : ascii) (s : string) : bool :=
  existsb (Ascii.eqb c) (list_ascii_of_string s).

Definition hex_digit (n : N) : ascii :=
  if (n <? 10)%N then ascii_of_N (48 + n) else ascii_of_N (87 + n).

Definition repr_char (q c : ascii) : string :=
  if Ascii.eqb c backslash then String backslash (String backslash EmptyString)
  else if Ascii.eqb c q then String backslash (String q EmptyString)
  else if (code c =? 10)%N then String backslash "n"
  else if (code c =? 13)%N then String backslash "r"
  else if (code c =? 9)%N then String backslash "t"
  else if ((code c <? 32) || (code c =? 127))%N
       then String backslash
              (String "x" (String (hex_digit (code c / 16))
                             (String (hex_digit (code c mod 16)) EmptyString)))
  else String c EmptyString.

Fixpoint repr_body (q : ascii) (s : string) : string :=
  match s with
  | EmptyString => EmptyString
  | String c s' => repr_char q c +:+ repr_body q s'
  end.

(** [repr(s)]: single quotes, unless the text has a single quote and no
    double quote. *)
Definition repr_str (s : string) : string :=
  let q := if has_char quote1 s && negb (has_char quote2 s)
           then quote2 else quote1 in
  String q (repr_body q s) +:+ String q EmptyString.

(** [repr] of a list of strings, as an f-string prints it. *)
Definition repr_list (l : list string) : string :=
  "[" +:+ String.concat ", " (map repr_str l) +:+ "]".

(** *** [int(s)] on a string *)

Definition is_space (c : ascii) : bool :=
  (((9 <=? code c) && (code c <=? 13)) ||
   ((28 <=? code c) && (code c <=? 32)))%N.

Definition is_digit (c : ascii) : bool :=
  ((48 <=? code c) && (code c <=? 57))%N.

Fixpoint lstrip (s : string) : string :=
  match s with
  | String c s' => if is_space c then lstrip s' else s
  | EmptyString => EmptyString
  end.

Fixpoint rstrip (s : string) : string :=
  match s with
  | EmptyString => EmptyString
  | String c s' =>
      match rstrip s' with
      | EmptyString => if is_space c then EmptyString else String c EmptyString
      | r => String c r
      end
  end.

Definition strip (s : string) : string := rstrip (lstrip s).

(** Digits with single underscores between them. *)
Fixpoint parse_digits (s : string) (acc : Z) (after_digit : bool) : option Z :=
  match s with
  | EmptyString => if after_digit then Some acc else None
  | String c s' =>
      if is_digit c
      then parse_digits s' (10 * acc + Z.of_N (code c - 48)) true
      else if Ascii.eqb c "_"
           then (if after_digit then parse_digits s' acc false else None)
           else None
  end.

Definition int_of_str (s : string) : result Z :=
  let body := strip s in
  let parsed :=
    match body with
    | String "-" r => option_map Z.opp (parse_digits r 0 false)
    | String "+" r => parse_digits r 0 false
    | _ => parse_digits body 0 false
    end in
  match parsed with
  | Some z => Ok z
  | None => Raise (ValueError
              ("invalid literal for int() with base 10: " +:+ repr_str s))
  end.

(** *** The characters of a text

    [chars s] decodes the UTF-8 bytes of [s] into code points, so that
    [ord] sees what Python sees. *)

Definition cont (b : N) : Z := Z.of_N (b - 128).

Fixpoint code_points (bytes : list N) : list Z :=
  match bytes with
  | [] => []
  | b0 :: r0 =>
      if (b0 <? 192)%N then Z.of_N b0 :: code_points r0
      else
        match r0 with
        | [] => [Z.of_N b0]
        | b1 :: r1 =>
            if (b0 <? 224)%N
            then (Z.of_N (b0 - 192) * 64 + cont b1) :: code_points r1
            else
              match r1 with
              | [] => [Z.of_N b0; Z.of_N b1]
              | b2 :: r2 =>
                  if (b0 <? 240)%N
                  then (Z.of_N (b0 - 224) * 4096 + cont b1 * 64 + cont b2)
                         :: code_points r2
                  else
                    match r2 with
                    | [] => [Z.of_N b0; Z.of_N b1; Z.of_N b2]
                    | b3 :: r3 =>
                        (Z.of_N (b0 - 240) * 262144 + cont b1 * 4096
                         + cont b2 * 64 + cont b3) :: code_points r3
                    end
              end
        end
  end.

Definition chars (s : string) : list char :=
  map Char (code_points (map code (list_ascii_of_string s))).

End Py.

(** ** The table a script reads: pandas values *)

Module Pd.
Import Py.

(** A float64 cell: a finite number, an infinity, or NaN (the missing
    value of a numeric column). *)
Inductive float64 :=
| FNum (q : Q)
| FInf
| FNaN.

(** A column as [read_csv] types it: all integers, numbers with missing
    values, booleans, or text with missing values ([None] is NaN). *)
Inductive Series :=
| Int64 (v : list Z)
| Float64 (v : list float64)
| Boolean (v : list bool)
| Object (v : list (option string)).

(** A table: its columns in file order, each with its name. *)
Definition DataFrame := list (string * Series).

(** [df.columns.tolist()] *)
Definition columns (df : DataFrame) : list string := map fst df.

(** [df[col]]; the loaders only read columns they found in [df.columns]. *)
Fixpoint get (df : DataFrame) (col : string) : option Series :=
  match df with
  | [] => None
  | (name, s) :: df' => if String.eqb name col then Some s else get df' col
  end.

(** [df[col] = s] on an existing column. *)
Fixpoint set (df : DataFrame) (col : string) (s : Series) : DataFrame :=
  match df with
  | [] => []
  | (name, s0) :: df' =>
      if String.eqb name col then (name, s) :: df'
      else (name, s0) :: set df' col s
  end.

Definition size (s : Series) : nat :=
  match s with
  | Int64 v => length v
  | Float64 v => length v
  | Boolean v => length v
  | Object v => length v
  end.

(** [s.notna()]: one flag per row. *)
Definition notna (s : Series) : list bool :=
  match s with
  | Int64 v => map (fun _ => true) v
  | Float64 v => map (fun x => match x with FNaN => false | _ => true end) v
  | Boolean v => map (fun _ => true) v
  | Object v => map (fun x => match x with None => false | Some _ => true end) v
  end.

(** Keep the items whose flag is set. *)
Fixpoint select {A} (mask : list bool) (l : list A) : list A :=
  match mask, l with
  | b :: mask', x :: l' => if b then x :: select mask' l' else select mask' l'
  | _, _ => []
  end.

Definition select_rows (mask : list bool) (s : Series) : Series :=
  match s with
  | Int64 v => Int64 (select mask v)
  | Float64 v => Float64 (select mask v)
  | Boolean v => Boolean (select mask v)
  | Object v => Object (select mask v)
  end.

Fixpoint and_masks (a b : list bool) : list bool :=
  match a, b with
  | x :: a', y :: b' => (x && y) :: and_masks a' b'
  | _, _ => []
  end.

(** The rows [df.dropna(subset=[c1, c2])] keeps. *)
Definition keep_mask (df : DataFrame) (c1 c2 : string) : list bool :=
  match get df c1, get df c2 with
  | Some s1, Some s2 => and_masks (notna s1) (notna s2)
  | _, _ => []
  end.

(** [df.dropna(subset=[c1, c2])] *)
Definition dropna (df : DataFrame) (c1 c2 : string) : DataFrame :=
  let mask := keep_mask df c1 c2 in
  map (fun '(name, s) => (name, select_rows mask s)) df.

Definition INT64_MIN : Z := - 2 ^ 63.
Definition INT64_MAX : Z := 2 ^ 63 - 1.

Definition nonfinite : exn :=
  ValueError "Cannot convert non-finite values (NA or inf) to integer".

(** A float cast to an integer: truncation toward zero. *)
Definition int_of_float (x : float64) : result Z :=
  match x with
  | FNum q => Ok (Z.quot (Qnum q) (Zpos (Qden q)))
  | FInf | FNaN => Raise nonfinite
  end.

(** A text cell cast to an integer: Python's [int] on it, which must fit
    the 64-bit result. *)
Definition int_of_object (x : option string) : result Z :=
  match x with
  | None => Raise nonfinite
  | Some s =>
      z ← int_of_str s;
      if (INT64_MIN <=? z) && (z <=? INT64_MAX) then Ok z
      else Raise (OverflowError "Python int too large to convert to C long")
  end.

(** Run [f] over the cells, stopping at the first one that raises. *)
Fixpoint traverse {A B} (f : A -> result B) (l : list A) : result (list B) :=
  match l with
  | [] => Ok []
  | x :: l' => y ← f x; ys ← traverse f l'; Ok (y :: ys)
  end.

(** [s.astype(int)] *)
Definition astype_int (s : Series) : result (list Z) :=
  match s with
  | Int64 v => Ok v
  | Float64 v => traverse int_of_float v
  | Boolean v => Ok (map (fun b : bool => if b then 1 else 0) v)
  | Object v => traverse int_of_object v
  end.

(** [s.str.lower().map(mapping)] on a text column: a cell that is
    missing, or whose lowered text is not a key, becomes NaN. *)
Definition mapped_cell (mapping : gmap string Z) (x : option string) : float64 :=
  match x with
  | Some s => match mapping !! lower s with
              | Some z => FNum (inject_Z z)
              | None => FNaN
              end
  | None => FNaN
  end.

Definition str_lower_map (mapping : gmap string Z) (v : list (option string))
  : Series :=
  Float64 (map (mapped_cell mapping) v).

(** [(labels == k).sum()] *)
Definition count_eq (k : Z) (labels : list Z) : Z :=
  Z.of_nat (length (List.filter (fun z => Z.eqb z k) labels)).

(** [s[idx]] for an array of row positions. *)
Definition take {A} (idx : list nat) (l : list A) : list A :=
  omap (fun i => nth_error l i) idx.

Definition take_rows (idx : list nat) (s : Series) : Series :=
  match s with
  | Int64 v => Int64 (take idx v)
  | Float64 v => Float64 (take idx v)
  | Boolean v => Boolean (take idx v)
  | Object v => Object (take idx v)
  end.

(** The rows of a column read as Python strings; a number where a
    string method is called is a type error. *)
Definition as_texts (s : Series) : result (list string) :=
  match s with
  | Object v =>
      traverse (fun x => match x with
                         | Some t => Ok t
                         | None => Raise (TypeError "expected str, got float")
                         end) v
  | _ => Raise (TypeError "expected str")
  end.

End Pd.

(** ** Dataset loaders

    Each loader is given here the table [pd.read_csv(csv_path)] returned;
    reading the file is the library's work. *)

Module Loader.
Import Py Pd.

(** The [for col in df.columns] loop shared by the e-mail and SMS
    loaders: a later matching column overwrites an earlier one. *)
Definition find_columns (is_text is_label : string -> bool)
           (cols : list string) : option string * option string :=
  fold_left
    (fun (found : option string * option string) col =>
       let col_lower := lower col in
       (if is_text col_lower then Some col else fst found,
        if is_label col_lower then Some col else snd found))
    cols (None, None).

(** The tail common to the three loaders once both columns are known:
    [df[label_col] = df[label_col].astype(int)] and the returned pair
    [df[text_col].values, df[label_col].values]. *)
Definition cast_and_return (df : DataFrame) (text_col label_col : string)
  : result (Series * list Z) :=
  match get df label_col with
  | None => Raise (KeyError label_col)
  | Some s =>
      labels ← astype_int s;
      let df := set df label_col (Int64 labels) in
      match get df text_col with
      | None => Raise (KeyError text_col)
      | Some texts => Ok (texts, labels)
      end
  end.


End Loader.

Module EmailLoader.
Import Py Pd Loader.

Definition is_text_name (col_lower : string) : bool :=
  contains "email" col_lower || contains "text" col_lower ||
  contains "content" col_lower || contains "message" col_lower.

Definition is_label_name (col_lower : string) : bool :=
  contains "label" col_lower || contains "class" col_lower ||
  contains "target" col_lower.

Definition missing_columns (df : DataFrame) : exn :=
  ValueError ("Could not find email text and label columns. Available columns: "
              +:+ repr_list (columns df)).

Definition load_email_dataset (df : DataFrame) : result (Series * list Z) :=
  let (text_col, label_col) :=
    find_columns is_text_name is_label_name (columns df) in
  if negb (truthy text_col) || negb (truthy label_col)
  then Raise (missing_columns df)
  else
    match text_col, label_col with
    | Some text_col, Some label_col =>
        let df := dropna df text_col label_col in
        cast_and_return df text_col label_col
    | _, _ => Raise (missing_columns df)
    end.

End EmailLoader.

Module SmsLoader.
Import Py Pd Loader.

Definition is_text_name (col_lower : string) : bool :=
  contains "sms" col_lower || contains "text" col_lower ||
  contains "message" col_lower || contains "content" col_lower.

Definition is_label_name (col_lower : string) : bool :=
  contains "label" col_lower || contains "class" col_lower ||
  contains "target" col_lower || contains "spam" col_lower.

Definition missing_columns (df : DataFrame) : exn :=
  ValueError ("Could not find SMS text and label columns. Available columns: "
              +:+ repr_list (columns df)).

Definition label_mapping : gmap string Z :=
  list_to_map
    [("ham", 0); ("legitimate", 0); ("safe", 0); ("normal", 0);
     ("spam", 1); ("phishing", 1); ("phish", 1); ("malicious", 1);
     ("smishing", 1)].

(** The [if df[label_col].dtype == 'object'] step. *)
Definition map_labels (df : DataFrame) (label_col : string) : DataFrame :=
  match get df label_col with
  | Some (Object v) => set df label_col (str_lower_map label_mapping v)
  | _ => df
  end.

Definition load_sms_dataset (df : DataFrame) : result (Series * list Z) :=
  let (text_col, label_col) :=
    find_columns is_text_name is_label_name (columns df) in
  if negb (truthy text_col) || negb (truthy label_col)
  then Raise (missing_columns df)
  else
    match text_col, label_col with
    | Some text_col, Some label_col =>
        let df := dropna df text_col label_col in
        let df := map_labels df label_col in
        cast_and_return df text_col label_col
    | _, _ => Raise (missing_columns df)
    end.

End SmsLoader.

Module UrlLoader.
Import Py Pd Loader.

(** [name in df.columns] *)
Definition has_column (df : DataFrame) (name : string) : bool :=
  existsb (String.eqb name) (columns df).

Definition load_url_dataset (df : DataFrame) : result (Series * list Z) :=
  if negb (has_column df "url") || negb (has_column df "label")
  then Raise (ValueError "Dataset must have 'url' and 'label' columns")
  else
    let df := dropna df "url" "label" in
    cast_and_return df "url" "label".

End UrlLoader.

(** ** The word-level encoder: [keras.layers.TextVectorization]

    Both word-level scripts build the layer with [max_tokens=vocab_size],
    [output_sequence_length=max_length] and [output_mode='int'], then call
    [adapt], the layer itself and [get_vocabulary].  The layer is the
    Keras library's; this module follows its behaviour in that mode: index
    0 is the mask (padding) token [''], index 1 the out-of-vocabulary
    token ['[UNK]'], and at most [max_tokens - 2] tokens are learned, by
    decreasing count.  A document is given here as its tokens, after the
    layer's (or the script's) standardization and whitespace split. *)

Module TextVectorization.
Import Py.

Definition mask_token : string := "".
Definition oov_token : string := "[UNK]".

(** Index of the first learned token: after the two special ones. *)
Definition token_start_index : nat := 2.

Record layer := Layer {
  max_tokens : Z;
  output_sequence_length : Z;
  learned : list string          (* the tokens from index 2 on *)
}.

(** The constructor: a cap of one token or less is refused. *)
Definition create (max_tokens output_sequence_length : Z) : result layer :=
  if max_tokens <=? 1
  then Raise (ValueError "If set, `max_tokens` must be greater than 1.")
  else Ok (Layer max_tokens output_sequence_length []).

(** The count table [adapt] accumulates over the documents. *)
Definition count_token (counts : gmap string nat) (tok : string)
  : gmap string nat :=
  <[tok := S (default 0%nat (counts !! tok))]> counts.

Definition token_counts (docs : list (list string)) : gmap string nat :=
  fold_left count_token (concat docs) ∅.

(** The order of [np.lexsort((tokens, counts))[::-1]]: higher count first,
    and for equal counts the greater token first. *)
Definition before (a b : string * nat) : Prop :=
  (snd b < snd a)%nat ∨ (snd a = snd b ∧ String.le (fst b) (fst a)).

#[export] Instance before_dec a b : Decision (before a b).
Proof. unfold before. apply _. Defined.

Definition is_special (tok : string) : bool :=
  String.eqb tok mask_token || String.eqb tok oov_token.

(** [adapt(docs)]: drop the special tokens from the counts, sort, keep
    the first [max_tokens - 2]. *)
Definition counted (docs : list (list string)) : list (string * nat) :=
  List.filter (fun tc => negb (is_special (fst tc)))
              (map_to_list (token_counts docs)).

Definition ranked (docs : list (list string)) : list (string * nat) :=
  merge_sort before (counted docs).

Definition adapt (l : layer) (docs : list (list string)) : layer :=
  let kept := firstn (Z.to_nat (max_tokens l) - token_start_index) (ranked docs) in
  Layer (max_tokens l) (output_sequence_length l) (map fst kept).

(** [get_vocabulary()]: the token of every index, in order. *)
Definition get_vocabulary (l : layer) : list string :=
  mask_token :: oov_token :: learned l.

Fixpoint index_of (tok : string) (toks : list string) : option nat :=
  match toks with
  | [] => None
  | t :: toks' =>
      if String.eqb t tok then Some 0%nat
      else option_map S (index_of tok toks')
  end.

(** The index of one token: the mask token gives 0, a learned token its
    index, anything else the out-of-vocabulary index 1. *)
Definition lookup (l : layer) (tok : string) : Z :=
  if String.eqb tok mask_token then 0
  else match index_of tok (learned l) with
       | Some i => Z.of_nat (token_start_index + i)
       | None => 1
       end.

(** The layer applied to one document: its token indices cut or padded
    with 0 to [output_sequence_length]. *)
Definition call (l : layer) (doc : list string) : list Z :=
  let ids := map (lookup l) doc in
  let n := Z.to_nat (output_sequence_length l) in
  firstn n ids ++ repeat 0 (n - length ids).

(** How often a token occurs in the documents. *)
Definition freq (docs : list (list string)) (tok : string) : nat :=
  count_occ string_dec (concat docs) tok.

(** The distinct tokens of the documents that the layer may learn. *)
Definition candidates (docs : list (list string)) : list string :=
  remove_dups (List.filter (fun tok => negb (is_special tok)) (concat docs)).

End TextVectorization.

(** ** Evaluation: thresholding and the scikit-learn metrics *)

Module Metrics.
Import Py.

(** [(y_pred_proba > 0.5).astype(int)] for one probability.  A model
    output is a float32 number; it and 0.5 are rationals and the
    comparison is exact. *)
Definition classify (p : Q) : Z :=
  if Qle_bool p (1 # 2) then 0 else 1.

Definition threshold (y_pred_proba : list Q) : list Z := map classify y_pred_proba.

(** [unique_labels(y_true, y_pred)]: the distinct values, ascending. *)
Definition unique_labels (y_true y_pred : list Z) : list Z :=
  merge_sort Z.le (remove_dups (y_true ++ y_pred)).

(** Number of examples with actual class [a] and predicted class [b]. *)
Definition count_pairs (a b : Z) (pairs : list (Z * Z)) : Z :=
  len (List.filter (fun p => Z.eqb (fst p) a && Z.eqb (snd p) b) pairs).

Definition inconsistent : exn :=
  ValueError "Found input variables with inconsistent numbers of samples".

(** [confusion_matrix(y_true, y_pred)]: one row and one column per label
    found in the data. *)
Definition confusion_matrix (y_true y_pred : list Z) : result (list (list Z)) :=
  if negb (length y_true =? length y_pred)%nat then Raise inconsistent
  else match y_true with
       | [] => Raise (ValueError
                 "zero-size array to reduction operation minimum which has no identity")
       | _ =>
           let labels := unique_labels y_true y_pred in
           let pairs := combine y_true y_pred in
           Ok (map (fun a => map (fun b => count_pairs a b pairs) labels) labels)
       end.

(** [cm[i][j]] *)
Definition at2 (cm : list (list Z)) (i j : nat) : result Z :=
  match nth_error cm i with
  | None => Raise (IndexError "index out of bounds")
  | Some row =>
      match nth_error row j with
      | None => Raise (IndexError "index out of bounds")
      | Some x => Ok x
      end
  end.

Definition ratio (num den : Z) : Q :=
  if den =? 0 then 0%Q else Qmake num (Z.to_pos den).

Definition count_label (k : Z) (y : list Z) : Z :=
  len (List.filter (fun z => Z.eqb z k) y).

(** [precision_recall_fscore_support(y_true, y_pred, average='binary')]:
    the scores of class 1. *)
Definition precision_recall_fscore_support (y_true y_pred : list Z)
  : result (Q * Q * Q) :=
  if negb (length y_true =? length y_pred)%nat then Raise inconsistent
  else
    let present := unique_labels y_true y_pred in
    if (2 <? length present)%nat
    then Raise (ValueError "Target is multiclass but average='binary'")
    else if negb (existsb (Z.eqb 1) present) && (2 <=? length present)%nat
    then Raise (ValueError "pos_label=1 is not a valid label")
    else
      let tp := count_pairs 1 1 (combine y_true y_pred) in
      let pred_sum := count_label 1 y_pred in
      let true_sum := count_label 1 y_true in
      Ok (ratio tp pred_sum, ratio tp true_sum, ratio (2 * tp) (true_sum + pred_sum)).

(** A label of one of the two classes. *)
Definition binary (y : Z) : Prop := y = 0 \/ y = 1.

End Metrics.

(** ** url_cnn_training.py: character-level encoder *)

Module Url.

Definition MAX_URL_LENGTH : Z := 200.
Definition VOCAB_SIZE : Z := 128.
Definition EMBEDDING_DIM : Z := 64.
Definition BATCH_SIZE : Z := 64.
Definition EPOCHS : Z := 20.

(** The body of the loop of [preprocess_urls] for one URL. *)
Definition preprocess_url (url : list Py.char) (max_length : Z) : list Z :=
  let seq := map (fun c => Z.min (Py.ord c) (VOCAB_SIZE - 1))
                 (Py.slice_to url max_length) in
  if Py.len seq <? max_length
  then seq ++ Py.times 0 (max_length - Py.len seq)
  else seq.

(** [preprocess_urls(urls, max_length)]: one row per URL. *)
Definition preprocess_urls (urls : list (list Py.char)) (max_length : Z)
  : list (list Z) :=
  map (fun url => preprocess_url url max_length) urls.

(** The call [preprocess_urls(urls)] of [train_url_model]. *)
Definition preprocess_urls_default (urls : list (list Py.char)) :=
  preprocess_urls urls MAX_URL_LENGTH.

End Url.

(** ** Architectures and their compile-time choices *)

Module Model.

Inductive activation := relu | sigmoid.
Inductive padding := same | valid.

Inductive layer :=
| Input (shape : Z)
| Embedding (input_dim output_dim input_length : Z) (mask_zero : bool)
            (name : string)
| SpatialDropout1D (rate : Q) (name : string)
| Conv1D (filters kernel_size : Z) (act : activation) (pad : padding)
         (name : string)
| MaxPooling1D (pool_size : Z) (name : string)
| GlobalMaxPooling1D (name : string)
| Dropout (rate : Q) (name : string)
| BidirectionalLSTM (units : Z) (return_sequences : bool)
                    (dropout recurrent_dropout : Q) (name : string)
| Dense (units : Z) (act : activation) (name : string).

Inductive architecture :=
| Sequential (layers : list layer)
| Pretrained (model_name : string) (num_labels : Z).

Inductive loss_kind :=
| binary_crossentropy
| SparseCategoricalCrossentropy (from_logits : bool).

Inductive metric := accuracy | Precision | Recall.

(** What [model.compile] fixes; the optimizer is Adam everywhere. *)
Record compiled := Compiled {
  arch : architecture;
  learning_rate : Q;
  loss : loss_kind;
  metrics : list metric
}.

End Model.

Module UrlModel.
Import Model Url.

Definition build_character_cnn_model : compiled :=
  Compiled
    (Sequential
       [Input MAX_URL_LENGTH;
        Embedding VOCAB_SIZE EMBEDDING_DIM MAX_URL_LENGTH false "char_embedding";
        Conv1D 128 7 relu same "conv1d_1";
        MaxPooling1D 2 "maxpool_1";
        Dropout 0.3 "dropout_1";
        Conv1D 256 5 relu same "conv1d_2";
        MaxPooling1D 2 "maxpool_2";
        Dropout 0.3 "dropout_2";
        Conv1D 512 3 relu same "conv1d_3";
        GlobalMaxPooling1D "global_maxpool";
        Dropout 0.4 "dropout_3";
        Dense 256 relu "dense_1";
        Dropout 0.5 "dropout_4";
        Dense 128 relu "dense_2";
        Dropout 0.5 "dropout_5";
        Dense 1 sigmoid "output"])
    0.001
    binary_crossentropy
    [accuracy; Precision; Recall].

End UrlModel.

Module Sms.

Definition MAX_SMS_LENGTH : Z := 160.
Definition VOCAB_SIZE : Z := 5000.
Definition EMBEDDING_DIM : Z := 100.
Definition BATCH_SIZE : Z := 32.
Definition EPOCHS : Z := 15.

End Sms.

Module SmsModel.
Import Model Sms.

Definition build_bilstm_model : compiled :=
  Compiled
    (Sequential
       [Input MAX_SMS_LENGTH;
        Embedding VOCAB_SIZE EMBEDDING_DIM MAX_SMS_LENGTH true "word_embedding";
        SpatialDropout1D 0.2 "spatial_dropout";
        BidirectionalLSTM 128 true 0.3 0.2 "bilstm_1";
        BidirectionalLSTM 64 false 0.3 0.2 "bilstm_2";
        Dense 128 relu "dense_1";
        Dropout 0.5 "dropout_1";
        Dense 64 relu "dense_2";
        Dropout 0.5 "dropout_2";
        Dense 1 sigmoid "output"])
    0.001
    binary_crossentropy
    [accuracy; Precision; Recall].

End SmsModel.

Module Email.

Definition MAX_EMAIL_LENGTH : Z := 512.
Definition BATCH_SIZE : Z := 16.
Definition EPOCHS : Z := 5.
Definition LEARNING_RATE : Q := 2e-5.
Definition MODEL_NAME : string := "distilbert-base-uncased".

(** The names email_bert_training.py binds at its top level: what its
    import statements bring in, then its constants and its functions.
    From TensorFlow it imports [tf] and [keras] only. *)
Definition module_names : list string :=
  ["pd"; "np"; "tf"; "keras";
   "DistilBertTokenizer"; "TFDistilBertForSequenceClassification";
   "train_test_split";
   "classification_report"; "confusion_matrix"; "accuracy_score";
   "precision_recall_fscore_support";
   "tfjs"; "os"; "json";
   "MAX_EMAIL_LENGTH"; "BATCH_SIZE"; "EPOCHS"; "VALIDATION_SPLIT";
   "TEST_SIZE"; "LEARNING_RATE";
   "MODEL_SAVE_PATH"; "TFJS_SAVE_PATH"; "MODEL_NAME";
   "load_email_dataset"; "preprocess_emails"; "build_distilbert_model";
   "build_simplified_text_model"; "preprocess_emails_for_lstm";
   "train_email_model"].

End Email.

Module EmailModel.
Import Py Model Email.

(** The transformer variant, chosen by [--full-bert]. *)
Definition build_distilbert_model : compiled :=
  Compiled
    (Pretrained MODEL_NAME 2)
    LEARNING_RATE
    (SparseCategoricalCrossentropy true)
    [accuracy].

(** The word-level LSTM variant, the default; it is written to return
    the model and its vocabulary size. Its layer list starts with
    [layers.Input(..)], and [layers] is read as a global name of the
    module when the list is built, before any layer exists and before
    [model.compile]. *)
Definition build_simplified_text_model : result (compiled * Z) :=
  let vocab_size := 10000 in
  let embedding_dim := 128 in
  _ ← load_global module_names "layers";
  Ok
    (Compiled
       (Sequential
          [Input MAX_EMAIL_LENGTH;
           Embedding vocab_size embedding_dim MAX_EMAIL_LENGTH true "word_embedding";
           BidirectionalLSTM 128 true 0.3 0.2 "bilstm_1";
           BidirectionalLSTM 64 false 0.3 0.2 "bilstm_2";
           Dense 64 relu "dense_1";
           Dropout 0.5 "dropout_1";
           Dense 32 relu "dense_2";
           Dropout 0.5 "dropout_2";
           Dense 1 sigmoid "output"])
       0.001
       binary_crossentropy
       [accuracy; Precision; Recall],
     vocab_size).

End EmailModel.

(** ** Class weights of the SMS trainer *)

Module ClassWeights.
Import Pd.

(** Step 5 of [train_sms_model]: [None] unless both classes occur. *)
Definition class_weights (y_train : list Z) : option (gmap Z Q) :=
  let class_0_count := count_eq 0 y_train in
  let class_1_count := count_eq 1 y_train in
  if (0 <? class_0_count) && (0 <? class_1_count)
  then
    let total := class_0_count + class_1_count in
    Some (<[0 := (inject_Z total / inject_Z (2 * class_0_count))%Q]>
            (<[1 := (inject_Z total / inject_Z (2 * class_1_count))%Q]> ∅))
  else None.

End ClassWeights.

(** ** The metadata document *)

Module Json.

#[warnings="-register-all"]
Inductive json :=
| JNull
| JInt (z : Z)
| JFloat (q : Q)
| JStr (s : string)
| JObject (fields : list (string * json)).

Fixpoint assoc (key : string) (fields : list (string * json)) : option json :=
  match fields with
  | [] => None
  | (k, v) :: fields' => if String.eqb k key then Some v else assoc key fields'
  end.

(** [doc[key]] *)
Definition field (key : string) (doc : json) : option json :=
  match doc with
  | JObject fields => assoc key fields
  | _ => None
  end.

Definition keys (doc : json) : list string :=
  match doc with
  | JObject fields => map fst fields
  | _ => []
  end.

End Json.

(** ** The three training pipelines

    The numeric framework and the splitter are collaborators: the
    pipelines are written over what they return. *)

Module Training.
Import Py Pd Json Metrics.

Definition VALIDATION_SPLIT : Q := 0.2.
Definition TEST_SIZE : Q := 0.15.

(** What the run needs from scikit-learn's splitter and from Keras. *)
Record backend := Backend {
  (** [train_test_split(.., test_size=TEST_SIZE, random_state=42,
      stratify=labels)]: the row positions of the training and of the
      test partition, or the error it raises. *)
  train_test_split : list Z -> result (list nat * list nat);
  (** a fitted network *)
  network : Type;
  (** [model.fit] on encoded rows, labels and optional class weights *)
  fit : Model.compiled -> list (list Z) -> list Z -> option (gmap Z Q) -> network;
  (** [model.evaluate]: loss, accuracy, precision, recall *)
  evaluate : network -> list (list Z) -> list Z -> Q * Q * Q * Q;
  (** [model.predict] of a sigmoid head: one probability per row *)
  predict : network -> list (list Z) -> list Q;
  (** [model.predict(..).logits] of the transformer: two logits per row *)
  predict_logits : network -> list (list Z) -> list (Q * Q);
  (** [clean_sms_text] followed by the layer's whitespace split *)
  tokenize_sms : string -> list string;
  (** the layer's default standardization and whitespace split *)
  tokenize_email : string -> list string;
  (** the pretrained tokenizer: [input_ids] of one e-mail at a length *)
  bert_tokenize : string -> Z -> list Z
}.

Section Pipelines.
Variable B : backend.

(** Steps shared by the three scripts after prediction: the binary
    scores, the confusion matrix and the four cells that are printed.
    The classification report that follows them raises only when the
    labels found are not two, which these steps have excluded by then. *)
Definition report (y_test y_pred : list Z) : result (Q * Q * Q) :=
  scores ← precision_recall_fscore_support y_test y_pred;
  cm ← confusion_matrix y_test y_pred;
  _ ← at2 cm 0 0;
  _ ← at2 cm 0 1;
  _ ← at2 cm 1 0;
  _ ← at2 cm 1 1;
  Ok scores.

Definition metrics_record (test_acc precision recall f1 test_loss : Q) : json :=
  JObject [("accuracy", JFloat test_acc);
           ("precision", JFloat precision);
           ("recall", JFloat recall);
           ("f1_score", JFloat f1);
           ("loss", JFloat test_loss)].

(** [train_url_model] *)
Definition train_url_model (df : DataFrame) : result json :=
  '(urls, labels) ← UrlLoader.load_url_dataset df;
  url_texts ← as_texts urls;
  let X := Url.preprocess_urls_default (map chars url_texts) in
  let y := labels in
  '(train_idx, test_idx) ← train_test_split B y;
  let X_train := take train_idx X in
  let X_test := take test_idx X in
  let y_train := take train_idx y in
  let y_test := take test_idx y in
  let model := fit B UrlModel.build_character_cnn_model X_train y_train None in
  let '(test_loss, test_acc, _, _) := evaluate B model X_test y_test in
  let y_pred_proba := predict B model X_test in
  let y_pred := threshold y_pred_proba in
  '(precision, recall, f1) ← report y_test y_pred;
  Ok (JObject
        [("model_type", JStr "url_character_cnn");
         ("version", JStr "1.0");
         ("max_url_length", JInt Url.MAX_URL_LENGTH);
         ("vocab_size", JInt Url.VOCAB_SIZE);
         ("embedding_dim", JInt Url.EMBEDDING_DIM);
         ("metrics", metrics_record test_acc precision recall f1 test_loss);
         ("training_params",
           JObject [("epochs", JInt Url.EPOCHS);
                    ("batch_size", JInt Url.BATCH_SIZE);
                    ("validation_split", JFloat VALIDATION_SPLIT);
                    ("test_size", JFloat TEST_SIZE)]);
         ("dataset_info",
           JObject [("total_samples", JInt (Z.of_nat (size urls)));
                    ("training_samples", JInt (len X_train));
                    ("test_samples", JInt (len X_test));
                    ("safe_count", JInt (count_eq 0 labels));
                    ("phishing_count", JInt (count_eq 1 labels))])]).

(** [preprocess_sms(messages)] with the script's defaults. *)
Definition preprocess_sms (messages : list string)
  : result (list (list Z) * TextVectorization.layer) :=
  let cleaned_messages := map (tokenize_sms B) messages in
  l ← TextVectorization.create Sms.VOCAB_SIZE Sms.MAX_SMS_LENGTH;
  let vectorize_layer := TextVectorization.adapt l cleaned_messages in
  Ok (map (TextVectorization.call vectorize_layer) cleaned_messages,
      vectorize_layer).

Definition class_weights_json (w : option (gmap Z Q)) : json :=
  match w with
  | None => JNull
  | Some m =>
      JObject (omap (fun k => v ← m !! k;
                              Some (if k =? 0 then "0" else "1", JFloat v))
                    [0; 1])
  end.

(** [train_sms_model] *)
Definition train_sms_model (df : DataFrame) : result json :=
  '(messages, labels) ← SmsLoader.load_sms_dataset df;
  '(train_idx, test_idx) ← train_test_split B labels;
  let messages_train := take_rows train_idx messages in
  let messages_test := take_rows test_idx messages in
  let y_train := take train_idx labels in
  let y_test := take test_idx labels in
  train_texts ← as_texts messages_train;
  '(X_train, vectorize_layer) ← preprocess_sms train_texts;
  test_texts ← as_texts messages_test;
  let X_test := map (fun msg => TextVectorization.call vectorize_layer
                                  (tokenize_sms B msg)) test_texts in
  let class_weights := ClassWeights.class_weights y_train in
  let model := fit B SmsModel.build_bilstm_model X_train y_train class_weights in
  let '(test_loss, test_acc, _, _) := evaluate B model X_test y_test in
  let y_pred_proba := predict B model X_test in
  let y_pred := threshold y_pred_proba in
  '(precision, recall, f1) ← report y_test y_pred;
  Ok (JObject
        [("model_type", JStr "sms_bilstm");
         ("version", JStr "1.0");
         ("max_sms_length", JInt Sms.MAX_SMS_LENGTH);
         ("vocab_size", JInt Sms.VOCAB_SIZE);
         ("embedding_dim", JInt Sms.EMBEDDING_DIM);
         ("metrics", metrics_record test_acc precision recall f1 test_loss);
         ("training_params",
           JObject [("epochs", JInt Sms.EPOCHS);
                    ("batch_size", JInt Sms.BATCH_SIZE);
                    ("validation_split", JFloat VALIDATION_SPLIT);
                    ("test_size", JFloat TEST_SIZE);
                    ("class_weights", class_weights_json class_weights)]);
         ("dataset_info",
           JObject [("total_samples", JInt (Z.of_nat (size messages)));
                    ("training_samples", JInt (Z.of_nat (size messages_train)));
                    ("test_samples", JInt (Z.of_nat (size messages_test)));
                    ("legitimate_count", JInt (count_eq 0 labels));
                    ("phishing_count", JInt (count_eq 1 labels))])]).

(** [preprocess_emails_for_lstm(emails, vocab_size)] *)
Definition preprocess_emails_for_lstm (emails : list string) (vocab_size : Z)
  : result (list (list Z) * TextVectorization.layer) :=
  l ← TextVectorization.create vocab_size Email.MAX_EMAIL_LENGTH;
  let docs := map (tokenize_email B) emails in
  let vectorize_layer := TextVectorization.adapt l docs in
  Ok (map (TextVectorization.call vectorize_layer) docs, vectorize_layer).

(** [np.argmax(logits, axis=1)] on two logits: the first maximum. *)
Definition argmax2 (logits : Q * Q) : Z :=
  if Qle_bool (snd logits) (fst logits) then 0 else 1.

(** [train_email_model] *)
Definition train_email_model (df : DataFrame) (use_simplified : bool)
  : result json :=
  '(emails, labels) ← EmailLoader.load_email_dataset df;
  '(train_idx, test_idx) ← train_test_split B labels;
  let emails_train := take_rows train_idx emails in
  let emails_test := take_rows test_idx emails in
  let y_train := take train_idx labels in
  let y_test := take test_idx labels in
  train_texts ← as_texts emails_train;
  test_texts ← as_texts emails_test;
  '(test_loss, test_acc, y_pred) ←
    (if use_simplified
     then
       let vocab_size := 10000 in
       '(X_train, vectorize_layer) ← preprocess_emails_for_lstm train_texts vocab_size;
       let X_test := map (fun e => TextVectorization.call vectorize_layer
                                     (tokenize_email B e)) test_texts in
       '(simplified, _) ← EmailModel.build_simplified_text_model;
       let model := fit B simplified X_train y_train None in
       let '(test_loss, test_acc, _, _) := evaluate B model X_test y_test in
       Ok (test_loss, test_acc, threshold (predict B model X_test))
     else
       let X_train := map (fun e => bert_tokenize B e Email.MAX_EMAIL_LENGTH)
                          train_texts in
       let X_test := map (fun e => bert_tokenize B e Email.MAX_EMAIL_LENGTH)
                         test_texts in
       let model := fit B EmailModel.build_distilbert_model X_train y_train None in
       let '(test_loss, test_acc, _, _) := evaluate B model X_test y_test in
       Ok (test_loss, test_acc, map argmax2 (predict_logits B model X_test)));
  '(precision, recall, f1) ← report y_test y_pred;
  Ok (JObject
        [("model_type", JStr (if use_simplified then "email_lstm"
                              else "email_distilbert"));
         ("version", JStr "1.0");
         ("max_length", JInt Email.MAX_EMAIL_LENGTH);
         ("vocab_size", JInt (if use_simplified then 10000 else 30522));
         ("metrics", metrics_record test_acc precision recall f1 test_loss);
         ("training_params",
           JObject [("epochs", JInt Email.EPOCHS);
                    ("batch_size", JInt Email.BATCH_SIZE);
                    ("validation_split", JFloat VALIDATION_SPLIT);
                    ("test_size", JFloat TEST_SIZE)]);
         ("dataset_info",
           JObject [("total_samples", JInt (Z.of_nat (size emails)));
                    ("training_samples", JInt (Z.of_nat (size emails_train)));
                    ("test_samples", JInt (Z.of_nat (size emails_test)));
                    ("legitimate_count", JInt (count_eq 0 labels));
                    ("phishing_count", JInt (count_eq 1 labels))])]).

End Pipelines.

(** The three input kinds the scripts serve. *)
Inductive modality :=
| Prose (use_simplified : bool)
| ShortMessage
| UrlString.

(** One run of the script of a modality on a table. *)
Definition train (B : backend) (m : modality) (df : DataFrame) : result json :=
  match m with
  | Prose use_simplified => train_email_model B df use_simplified
  | ShortMessage => train_sms_model B df
  | UrlString => train_url_model B df
  end.

(** The loader a modality's script calls. *)
Definition load (m : modality) (df : DataFrame) : result (Series * list Z) :=
  match m with
  | Prose _ => EmailLoader.load_email_dataset df
  | ShortMessage => SmsLoader.load_sms_dataset df
  | UrlString => UrlLoader.load_url_dataset df
  end.

(** The text and the label column that loader settles on. *)
Definition chosen_columns (m : modality) (df : DataFrame)
  : option string * option string :=
  match m with
  | Prose _ =>
      Loader.find_columns EmailLoader.is_text_name EmailLoader.is_label_name
                          (columns df)
  | ShortMessage =>
      Loader.find_columns SmsLoader.is_text_name SmsLoader.is_label_name
                          (columns df)
  | UrlString => (Some "url", Some "label")
  end.

(** The name under which a script writes its count of class 0. *)
Definition class_0_key (m : modality) : string :=
  match m with
  | UrlString => "safe_count"
  | _ => "legitimate_count"
  end.

(** Number of rows that have both a text and a label. *)
Definition complete_rows (text label : Series) : nat :=
  length (List.filter (fun p : bool * bool => fst p && snd p)
                      (combine (notna text) (notna label))).

(** The [dataset_info] record of a modality, given its five numbers. *)
Definition dataset_info_of (m : modality) (total : nat) (n_train n_test : Z)
           (labels : list Z) : json :=
  JObject [("total_samples", JInt (Z.of_nat total));
           ("training_samples", JInt n_train);
           ("test_samples", JInt n_test);
           (class_0_key m, JInt (count_eq 0 labels));
           ("phishing_count", JInt (count_eq 1 labels))].

End Training.

(** ** What a network expects of its input *)

Module Shapes.
Import Model.

(** The [input_dim] of the first embedding layer: ids must be below it. *)
Fixpoint embedding_input_dim (layers : list layer) : option Z :=
  match layers with
  | [] => None
  | Embedding input_dim _ _ _ _ :: _ => Some input_dim
  | _ :: layers' => embedding_input_dim layers'
  end.

(** The [shape] of the input layer: the length of every row. *)
Fixpoint input_length (layers : list layer) : option Z :=
  match layers with
  | [] => None
  | Input shape :: _ => Some shape
  | _ :: layers' => input_length layers'
  end.

(** A batch of encoded rows fits a compiled sequential model when every
    row has the input length and every id indexes the embedding. *)
Definition fits (m : compiled) (X : list (list Z)) : Prop :=
  match arch m with
  | Sequential layers =>
      exists dim n,
        embedding_input_dim layers = Some dim /\
        input_length layers = Some n /\
        Forall (fun row => Py.len row = n /\
                           Forall (fun id => 0 <= id < dim) row) X
  | Pretrained _ _ => False
  end.

End Shapes.

(** ** Sample inputs *)

Module Samples.
Import Py Pd.


(** Text labels; the third row has no text. *)
Definition labelled_text_table : DataFrame :=
  [("text", Object [Some "hello"; Some "win cash now"; None]);
   ("label", Object [Some "ham"; Some "Spam"; Some "ham"])].

(** A URL table; the second row has no URL. *)
Definition url_table : DataFrame :=
  [("url", Object [Some "http://a.example/login"; None; Some "http://b.example"]);
   ("label", Int64 [1; 0; 0])].

(** The same table under other spellings of the two names. *)
Definition url_table_renamed : DataFrame :=
  [("URL", Object [Some "http://a.example/login"; None; Some "http://b.example"]);
   ("url_label", Int64 [1; 0; 0])].

(** Eight complete URL rows and one without a URL. *)
Definition url_run_table : DataFrame :=
  [("url", Object [Some "http://a.example/login"; Some "http://b.example";
                   Some "http://c.example/verify"; Some "http://d.example";
                   None; Some "http://e.example/pay"; Some "http://f.example";
                   Some "http://g.example/secure"; Some "http://h.example"]);
   ("label", Int64 [1; 0; 1; 0; 1; 1; 0; 1; 0])].

(** Eight complete messages and one without a label. *)
Definition sms_run_table : DataFrame :=
  [("message", Object [Some "win cash now"; Some "see you at noon";
                       Some "claim your prize now"; Some "call me later";
                       Some "free prize"; Some "lunch at noon";
                       Some "win a free prize"; Some "urgent verify now";
                       Some "are you home"]);
   ("label", Object [Some "spam"; Some "ham"; Some "Spam"; Some "ham";
                     None; Some "ham"; Some "spam"; Some "phishing";
                     Some "legitimate"])].

(** A stand-in for the collaborators: the splitter keeps the last
    ceil(0.15 n) rows for the test, the network answers from the first
    index of a row, and messages are split at spaces. *)
Definition demo_backend : Training.backend :=
  {| Training.train_test_split := fun labels =>
       let n := length labels in
       let n_test := Z.to_nat ((15 * Z.of_nat n + 99) / 100) in
       Ok (seq 0 (n - n_test), seq (n - n_test) n_test);
     Training.network := unit;
     Training.fit := fun _ _ _ _ => tt;
     Training.evaluate := fun _ _ _ => (0.4, 0.5, 0.5, 0.5)%Q;
     Training.predict := fun _ X =>
       map (fun row => if Z.even (hd 0 row) then 0.8%Q else 0.3%Q) X;
     Training.predict_logits := fun _ X => map (fun _ => (0.1, 0.7)%Q) X;
     Training.tokenize_sms := fun msg => String.words (lower msg);
     Training.tokenize_email := fun msg => String.words (lower msg);
     Training.bert_tokenize := fun _ n => repeat 0 (Z.to_nat n) |}.

(** Two tokenized messages with four distinct words, occurring four,
    three, two times and once. *)
Definition prize_docs : list (list string) :=
  [["free"; "prize"; "free"; "now"];
   ["free"; "prize"; "now"; "win"; "free"; "prize"]].

(** The document the SMS script writes for [sms_run_table]. *)
Definition sms_run_metadata : Json.json :=
  Eval vm_compute in
    match Training.train demo_backend Training.ShortMessage sms_run_table with
    | Ok md => md
    | Raise _ => Json.JNull
    end.

End Samples.

(** ** sms_bilstm_training.py: text cleaning

    [clean_sms_text] lowers the text and applies three regular
    expression substitutions.  They are written out here as scans over
    the characters, with the classes [\s], [\S], [\d] and [\b] as they
    are on ASCII text: the properties below are stated for ASCII
    messages. *)

Module SmsText.
Import Py.

(** The text has ASCII characters only. *)
Definition ascii_only (s : string) : Prop :=
  Forall (fun c => (code c < 128)%N) (list_ascii_of_string s).

(** [\w]: a letter, a digit or the underscore. *)
Definition is_word (c : ascii) : bool :=
  (((48 <=? code c) && (code c <=? 57)) ||
   ((65 <=? code c) && (code c <=? 90)) ||
   ((97 <=? code c) && (code c <=? 122)) ||
   (code c =? 95))%N.

(** A match of [http\S+|www\.\S+] starts here: one of the two prefixes
    followed by a character that is not whitespace. *)
Definition starts_url (s : string) : bool :=
  match s with
  | String c0 (String c1 (String c2 (String c3 (String c4 _)))) =>
      let prefix := String c0 (String c1 (String c2 (String c3 EmptyString))) in
      (String.eqb prefix "http" || String.eqb prefix "www.") && negb (is_space c4)
  | _ => false
  end.

(** [re.sub(r'http\S+|www\.\S+', ' url ', text)]: a match runs to the next
    whitespace; [skipping] says the scan is inside one. *)
Fixpoint sub_urls (skipping : bool) (s : string) : string :=
  match s with
  | EmptyString => EmptyString
  | String c s' =>
      if skipping
      then (if is_space c then String c (sub_urls false s') else sub_urls true s')
      else if starts_url s then " url " +:+ sub_urls true s'
      else String c (sub_urls false s')
  end.

(** Number of digits the text starts with. *)
Fixpoint digit_run (s : string) : nat :=
  match s with
  | String c s' => if is_digit c then S (digit_run s') else 0%nat
  | EmptyString => 0%nat
  end.

(** The character after the first [n], if any. *)
Fixpoint char_after (n : nat) (s : string) : option ascii :=
  match n, s with
  | O, String c _ => Some c
  | S n', String _ s' => char_after n' s'
  | _, EmptyString => None
  end.

(** A match of [\b\d{10,}\b] starts here: the previous character is not a
    word character, ten digits or more follow, and what comes after them
    is not a word character. *)
Definition starts_phone (prev_word : bool) (s : string) : bool :=
  negb prev_word && (10 <=? digit_run s)%nat &&
  match char_after (digit_run s) s with
  | Some c => negb (is_word c)
  | None => true
  end.

(** [re.sub(r'\b\d{10,}\b', ' phonenumber ', text)]: [skip] counts the
    digits of a match still to pass, [prev_word] says the previous
    character was a word character. *)
Fixpoint sub_phones (skip : nat) (prev_word : bool) (s : string) : string :=
  match s with
  | EmptyString => EmptyString
  | String c s' =>
      match skip with
      | S k => sub_phones k true s'
      | O =>
          if starts_phone prev_word s
          then " phonenumber " +:+ sub_phones (digit_run s - 1) true s'
          else String c (sub_phones 0 (is_word c) s')
      end
  end.

(** [re.sub(r'\s+', ' ', text)]: each run of whitespace becomes one space. *)
Fixpoint collapse (in_space : bool) (s : string) : string :=
  match s with
  | EmptyString => EmptyString
  | String c s' =>
      if is_space c
      then (if in_space then collapse true s' else String " " (collapse true s'))
      else String c (collapse false s')
  end.

(** [clean_sms_text(text)] *)
Definition clean_sms_text (text : string) : string :=
  let text := lower text in
  let text := sub_urls false text in
  let text := sub_phones 0 false text in
  strip (collapse false text).

(** Whitespace in normal form: only single spaces, and none at an end of
    the text; [after_space] says a space may not come next. *)
Fixpoint spaced (after_space : bool) (s : string) : bool :=
  match s with
  | EmptyString => negb after_space
  | String c s' =>
      if is_space c
      then Ascii.eqb c " " && negb after_space && spaced true s'
      else spaced false s'
  end.

(** The same, whatever stands at the end of the text. *)
Fixpoint runs_ok (after_space : bool) (s : string) : bool :=
  match s with
  | EmptyString => true
  | String c s' =>
      if is_space c
      then Ascii.eqb c " " && negb after_space && runs_ok true s'
      else runs_ok false s'
  end.

Definition single_spaced (s : string) : bool :=
  match s with
  | EmptyString => true
  | _ => spaced true s
  end.

(** The URL expression matches nowhere in the text. *)
Fixpoint url_free (s : string) : bool :=
  negb (starts_url s) &&
  match s with
  | String _ s' => url_free s'
  | EmptyString => true
  end.

(** What [\b] asks of the character after a run of digits, if any. *)
Definition boundary (next : option ascii) : bool :=
  match next with
  | Some c => negb (is_word c)
  | None => true
  end.

(** The phone expression matches nowhere in the text; [prev_word] says
    whether a word character stands before it. *)
Fixpoint phone_free (prev_word : bool) (s : string) : bool :=
  negb (starts_phone prev_word s) &&
  match s with
  | String c s' => phone_free (is_word c) s'
  | EmptyString => true
  end.

(** Two texts look the same to the phone expression at their start. *)
Definition same_start (o s : string) : Prop :=
  digit_run o = digit_run s /\
  boundary (char_after (digit_run s) o) = boundary (char_after (digit_run s) s).

(** Not a whitespace character. *)
Definition nonspace (c : ascii) : Prop := is_space c = false.

(** Every character of the text satisfies [P]. *)
Definition all_chars (P : ascii -> Prop) (s : string) : Prop :=
  Forall P (list_ascii_of_string s).

(** The output [o] of a scan keeps a leading stretch free of spaces only
    where its input [s] has that stretch. *)
Definition keeps_words (o s : string) : Prop :=
  forall cs rest, o = cs +:+ rest -> all_chars nonspace cs ->
                  exists rest', s = cs +:+ rest'.

(** Not one of the capital letters A to Z. *)
Definition not_capital (c : ascii) : Prop :=
  ((65 <=? code c) && (code c <=? 90))%N = false.

(** No capital letter A to Z occurs. *)
Definition no_capitals (s : string) : Prop :=
  Forall (fun c => ((65 <=? code c) && (code c <=? 90))%N = false)
         (list_ascii_of_string s).

End SmsText.

(** ** Reading a run *)

Module RunFacts.
Import Py Pd Json Training.

(** The sizes a run wrote, for the texts and labels it loaded and the two
    lists of row positions the splitter returned: each partition size is
    the number of positions when these are all rows of the table. *)
Definition sizes_of (md : json) (m : modality) (texts : Series)
           (labels : list Z) (tr te : list nat) : Prop :=
  exists n_train n_test,
    field "dataset_info" md
      = Some (dataset_info_of m (size texts) n_train n_test labels) /\
    (Forall (fun i => (i < size texts)%nat) tr -> n_train = len tr) /\
    (Forall (fun i => (i < size texts)%nat) te -> n_test = len te).

End RunFacts.

(** ** More sample inputs *)

Module MoreSamples.
Import Py Pd.

(** A table whose only matching column has a name that passes for a text
    and for a label column. *)
Definition email_label_table : DataFrame :=
  [("subject", Object [Some "Invoice"; Some "Your account"; Some "Lunch"]);
   ("email_label", Int64 [0; 1; 0])].

(** An e-mail table of four complete rows. *)
Definition email_run_table : DataFrame :=
  [("email_text", Object [Some "verify your account now"; Some "lunch at noon";
                          Some "your invoice is attached"; Some "claim your prize"]);
   ("label", Int64 [1; 0; 0; 1])].

(** A URL table whose labels are words. *)
Definition url_word_table : DataFrame :=
  [("url", Object [Some "http://a.example/login"; Some "http://b.example"]);
   ("label", Object [Some "phishing"; Some "safe"])].

End MoreSamples.

(** ** Properties *)

Section CharEncoder.
Import Py Url.

Lemma slice_to_length {A} (s : list A) (n : Z) :
  0 <= n -> len (slice_to s n) = Z.min n (len s).
Proof.
  intros Hn. unfold slice_to, len.
  destruct (Z.leb_spec 0 n) as [_|]; [|lia].
  rewrite length_firstn. lia.
Qed.

Lemma preprocess_url_length url L :
  0 <= L -> len (preprocess_url url L) = L.
Proof.
  intros HL. unfold preprocess_url.
  pose proof (slice_to_length url L HL) as Hs.
  assert (Hm : len (map (fun c => Z.min (ord c) (VOCAB_SIZE - 1)) (slice_to url L))
               = Z.min L (len url)).
  { unfold len in *. rewrite length_map. exact Hs. }
  destruct (Z.ltb_spec (len (map (fun c => Z.min (ord c) (VOCAB_SIZE - 1))
                                 (slice_to url L))) L) as [Hlt|Hge].
  - unfold len in *. rewrite length_app. unfold times. rewrite repeat_length. lia.
  - lia.
Qed.

Lemma preprocess_url_nth url L (i : nat) :
  0 <= L -> Z.of_nat i < L ->
  nth i (preprocess_url url L) 0 =
    match nth_error url i with
    | Some c => Z.min (ord c) 127
    | None => 0
    end.
Proof.
  intros HL Hi. unfold preprocess_url.
  set (f := fun c => Z.min (ord c) (VOCAB_SIZE - 1)).
  assert (Hsl : slice_to url L = firstn (Z.to_nat L) url).
  { unfold slice_to. destruct (Z.leb_spec 0 L); [reflexivity | lia]. }
  rewrite Hsl.
  assert (Hnth : nth i (map f (firstn (Z.to_nat L) url)) 0 =
                 match nth_error url i with Some c => Z.min (ord c) 127 | None => 0 end).
  { destruct (nth_error url i) as [c|] eqn:Hc.
    - assert (Hf : nth_error (firstn (Z.to_nat L) url) i = Some c).
      { rewrite nth_error_firstn.
        destruct (Nat.ltb_spec i (Z.to_nat L)); [exact Hc | lia]. }
      apply (map_nth_error f) in Hf.
      apply nth_error_nth with (d := 0) in Hf. exact Hf.
    - apply nth_overflow. rewrite length_map, length_firstn.
      apply nth_error_None in Hc. lia. }
  destruct (Z.ltb_spec (len (map f (firstn (Z.to_nat L) url))) L) as [Hlt|Hge];
    [|exact Hnth].
  destruct (Nat.lt_ge_cases i (length (map f (firstn (Z.to_nat L) url)))) as [Hin|Hout].
  - rewrite app_nth1 by exact Hin. exact Hnth.
  - rewrite app_nth2 by exact Hout. unfold times.
    rewrite nth_repeat.
    rewrite length_map, length_firstn in Hout.
    destruct (nth_error url i) as [c|] eqn:Hc; [|reflexivity].
    assert (i < length url)%nat by (apply nth_error_Some; congruence). lia.
Qed.

End CharEncoder.

Section CharEncoderClaim.
Import Py Url.

(** C1. For every batch of URL strings, [preprocess_urls] returns one
    row per URL; each row has length exactly 200 (the URL modality's
    maximum length) whatever the URL's length, holds at every position
    below the URL's length [min(ord(c), 127)] of the character there,
    and holds 0 at every later position (truncation to 200 characters,
    zero padding on the right). *)
Theorem C1_char_encoder_fixed_length (urls : list (list char)) :
  Forall2
    (fun url row =>
       len row = 200 /\
       forall i : nat, Z.of_nat i < 200 ->
         nth i row 0 = match nth_error url i with
                       | Some c => Z.min (ord c) 127
                       | None => 0
                       end)
    urls (preprocess_urls_default urls).
Proof.
  unfold preprocess_urls_default, preprocess_urls.
  induction urls as [|url urls IH]; simpl; constructor; [|exact IH].
  split.
  - apply preprocess_url_length. unfold MAX_URL_LENGTH. lia.
  - intros i Hi. apply preprocess_url_nth; unfold MAX_URL_LENGTH; lia.
Qed.

End CharEncoderClaim.

Section ThresholdClaim.
Import Metrics.

Lemma classify_spec (p : Q) :
  (classify p = 1 <-> (1 # 2 < p)%Q) /\ (classify p = 0 <-> (p <= 1 # 2)%Q).
Proof.
  unfold classify. destruct (Qle_bool p (1 # 2)) eqn:E.
  - apply Qle_bool_iff in E. split; split; intros H; try discriminate; try assumption.
    + exfalso. apply (Qlt_not_le _ _ H). exact E.
    + reflexivity.
  - assert (Hn : ~ (p <= 1 # 2)%Q).
    { intros H. apply Qle_bool_iff in H. congruence. }
    apply Qnot_le_lt in Hn.
    split; split; intros H; try discriminate; try assumption; try reflexivity.
    exfalso. apply (Qlt_not_le _ _ Hn). exact H.
Qed.

(** C3 (as the code has it). For every test example the evaluator
    assigns class 1 exactly when the predicted probability is strictly
    greater than 0.5, and class 0 exactly when it is at most 0.5. *)
Theorem C3_threshold_is_strict (y_pred_proba : list Q) :
  Forall2
    (fun p c => (c = 1 <-> (1 # 2 < p)%Q) /\ (c = 0 <-> (p <= 1 # 2)%Q))
    y_pred_proba (threshold y_pred_proba).
Proof.
  unfold threshold.
  induction y_pred_proba as [|p ps IH]; simpl; constructor; auto using classify_spec.
Qed.

(** C3, the claim as written fails: an example whose predicted
    probability equals 0.5 is put in class 0, not class 1. *)
Lemma C3_half_is_class_0 :
  threshold [0.5%Q] = [0] /\ threshold [0.5%Q] <> [1].
Proof. split; [reflexivity | discriminate]. Qed.

End ThresholdClaim.

Section ClassWeightClaim.
Import Pd ClassWeights.

Lemma count_eq_count_occ (k : Z) (y : list Z) :
  count_eq k y = Z.of_nat (count_occ Z.eq_dec y k).
Proof.
  unfold count_eq. f_equal.
  induction y as [|z y IH]; simpl; [reflexivity|].
  destruct (Z.eqb_spec z k) as [->|Hne].
  - destruct (Z.eq_dec k k); [simpl; congruence | contradiction].
  - destruct (Z.eq_dec z k); [contradiction | exact IH].
Qed.

(** C4. When both classes occur among the training labels, the class
    weights are defined and the weight of class [c] is
    [total / (2 * count[c])], with [total] the number of labels 0 and 1;
    with 80 negatives and 20 positives they are 0.625 and 2.5. *)
Theorem C4_class_weight_formula (y_train : list Z) (n0 n1 : nat) :
  count_occ Z.eq_dec y_train 0 = n0 ->
  count_occ Z.eq_dec y_train 1 = n1 ->
  (0 < n0)%nat -> (0 < n1)%nat ->
  exists (w : gmap Z Q) (w0 w1 : Q),
    class_weights y_train = Some w /\
    w !! 0 = Some w0 /\ w !! 1 = Some w1 /\
    (w0 == inject_Z (Z.of_nat (n0 + n1)) / inject_Z (2 * Z.of_nat n0))%Q /\
    (w1 == inject_Z (Z.of_nat (n0 + n1)) / inject_Z (2 * Z.of_nat n1))%Q /\
    (n0 = 80%nat -> n1 = 20%nat -> (w0 == 0.625)%Q /\ (w1 == 2.5)%Q).
Proof.
  intros H0 H1 Hp0 Hp1. unfold class_weights.
  rewrite !count_eq_count_occ, H0, H1.
  destruct (Z.ltb_spec 0 (Z.of_nat n0)) as [_|]; [|lia].
  destruct (Z.ltb_spec 0 (Z.of_nat n1)) as [_|]; [|lia].
  simpl andb. cbv iota.
  eexists _, _, _. split; [reflexivity|].
  split; [apply lookup_insert_eq|].
  split; [rewrite lookup_insert_ne by discriminate; apply lookup_insert_eq|].
  rewrite <- Nat2Z.inj_add.
  split; [reflexivity|]. split; [reflexivity|].
  intros -> ->. split; reflexivity.
Qed.

Lemma C4_class_weight_formula_witness :
  exists (w : gmap Z Q) (w0 w1 : Q),
    class_weights (repeat 0 80 ++ repeat 1 20) = Some w /\
    w !! 0 = Some w0 /\ w !! 1 = Some w1 /\
    (w0 == inject_Z (Z.of_nat (80 + 20)) / inject_Z (2 * Z.of_nat 80))%Q /\
    (w1 == inject_Z (Z.of_nat (80 + 20)) / inject_Z (2 * Z.of_nat 20))%Q /\
    (80%nat = 80%nat -> 20%nat = 20%nat -> (w0 == 0.625)%Q /\ (w1 == 2.5)%Q).
Proof.
  apply (C4_class_weight_formula (repeat 0 80 ++ repeat 1 20) 80 20).
  - vm_compute. reflexivity.
  - vm_compute. reflexivity.
  - lia.
  - lia.
Defined.

End ClassWeightClaim.

Section LearningRateClaim.
Import Py Model.




End LearningRateClaim.

(** ** The loaders *)

Section ColumnScan.
Import Py Pd Loader.

Variables is_text is_label : string -> bool.

Let scan := find_columns is_text is_label.

Lemma find_columns_snoc cols col :
  scan (cols ++ [col]) =
    (if is_text (lower col) then Some col else fst (scan cols),
     if is_label (lower col) then Some col else snd (scan cols)).
Proof. unfold scan, find_columns. rewrite fold_left_app. reflexivity. Qed.



(** What is found is a column of the table whose name matches. *)
Lemma find_text_some cols c :
  fst (scan cols) = Some c -> In c cols /\ is_text (lower c) = true.
Proof.
  induction cols as [|col cols IH] using rev_ind; [discriminate|].
  rewrite find_columns_snoc. simpl. intros H. rewrite in_app_iff.
  destruct (is_text (lower col)) eqn:E.
  - injection H as <-. split; [right; left; reflexivity | exact E].
  - destruct (IH H) as [Hin Hm]. split; [left; exact Hin | exact Hm].
Qed.

Lemma find_label_some cols c :
  snd (scan cols) = Some c -> In c cols /\ is_label (lower c) = true.
Proof.
  induction cols as [|col cols IH] using rev_ind; [discriminate|].
  rewrite find_columns_snoc. simpl. intros H. rewrite in_app_iff.
  destruct (is_label (lower col)) eqn:E.
  - injection H as <-. split; [right; left; reflexivity | exact E].
  - destruct (IH H) as [Hin Hm]. split; [left; exact Hin | exact Hm].
Qed.

End ColumnScan.

Section MissingColumnsClaim.
Import Py Pd Loader Samples.





End MissingColumnsClaim.

Section TableLemmas.
Import Py Pd Loader.

Lemma bind_ok {A B} (m : result A) (f : A -> result B) (b : B) :
  (m ≫= f) = Ok b <-> exists a, m = Ok a /\ f a = Ok b.
Proof.
  destruct m as [a|e]; simpl; split.
  - intros H. exists a. split; [reflexivity | exact H].
  - intros (a' & Ha & H). injection Ha as ->. exact H.
  - discriminate.
  - intros (a' & Ha & _). discriminate.
Qed.

Lemma traverse_ok {A B} (f : A -> result B) (l : list A) (ys : list B) :
  traverse f l = Ok ys <-> Forall2 (fun x y => f x = Ok y) l ys.
Proof.
  revert ys. induction l as [|x l IH]; intros ys; simpl.
  - split.
    + intros H. injection H as <-. constructor.
    + intros H. inversion H. reflexivity.
  - split.
    + intros H. apply bind_ok in H as (y & Hy & H).
      apply bind_ok in H as (ys' & Hys & H). injection H as <-.
      constructor; [exact Hy | apply IH; exact Hys].
    + intros H. inversion H as [|? y ? ys' Hy Hys]; subst.
      apply bind_ok. exists y. split; [exact Hy|].
      apply bind_ok. exists ys'. split; [apply IH; exact Hys | reflexivity].
Qed.

Lemma traverse_raise {A B} (f : A -> result B) (l : list A) (x : A) :
  In x l -> is_ok (f x) = false -> is_ok (traverse f l) = false.
Proof.
  induction l as [|x' l IH]; simpl; [contradiction|].
  intros [->|Hin] Hx.
  - destruct (f x); [discriminate | reflexivity].
  - destruct (f x'); [|reflexivity]. simpl.
    specialize (IH Hin Hx). destruct (traverse f l); [discriminate | reflexivity].
Qed.

Lemma get_some_in df c s : get df c = Some s -> In c (columns df).
Proof.
  induction df as [|[n s0] df IH]; simpl; [discriminate|].
  destruct (String.eqb_spec n c) as [->|Hne]; [left; reflexivity|].
  intros H. right. exact (IH H).
Qed.

Lemma in_get_some df c : In c (columns df) -> exists s, get df c = Some s.
Proof.
  induction df as [|[n s0] df IH]; simpl; [contradiction|].
  destruct (String.eqb_spec n c) as [->|Hne]; [eauto|].
  intros [H|H]; [contradiction | exact (IH H)].
Qed.

Lemma get_map_rows (f : Series -> Series) df c :
  get (map (fun '(name, s) => (name, f s)) df) c = option_map f (get df c).
Proof.
  induction df as [|[n s0] df IH]; simpl; [reflexivity|].
  destruct (String.eqb n c); [reflexivity | exact IH].
Qed.

Lemma get_dropna df a b c :
  get (dropna df a b) c = option_map (select_rows (keep_mask df a b)) (get df c).
Proof. unfold dropna. apply get_map_rows. Qed.

Lemma get_set_eq df c s0 s : get df c = Some s0 -> get (set df c s) c = Some s.
Proof.
  induction df as [|[n s1] df IH]; simpl; [discriminate|].
  destruct (String.eqb n c) eqn:E; simpl.
  - rewrite E. reflexivity.
  - rewrite E. exact IH.
Qed.

Lemma get_set_ne df c c' s : c <> c' -> get (set df c s) c' = get df c'.
Proof.
  intros Hne. induction df as [|[n s1] df IH]; simpl; [reflexivity|].
  destruct (String.eqb_spec n c) as [->|Hn]; simpl.
  - destruct (String.eqb_spec c c'); [contradiction | reflexivity].
  - destruct (String.eqb n c'); [reflexivity | exact IH].
Qed.

(** What [cast_and_return] yields when it returns. *)
Lemma cast_and_return_ok df t l texts labels :
  cast_and_return df t l = Ok (texts, labels) ->
  exists s, get df l = Some s /\ astype_int s = Ok labels /\
            ((t = l /\ texts = Int64 labels) \/ (t <> l /\ get df t = Some texts)).
Proof.
  unfold cast_and_return. destruct (get df l) as [s|] eqn:El; [|discriminate].
  intros H. apply bind_ok in H as (labels' & Ha & H).
  exists s. split; [reflexivity|].
  destruct (String.eqb_spec t l) as [->|Hne].
  - rewrite (get_set_eq _ _ _ _ El) in H. injection H as <- <-.
    split; [exact Ha | left; split; reflexivity].
  - rewrite get_set_ne in H by congruence.
    destruct (get df t) as [tx|] eqn:Et; [|discriminate].
    injection H as <- <-. split; [exact Ha | right; split; [exact Hne | reflexivity]].
Qed.

Lemma cast_and_return_raise df t l s :
  get df l = Some s -> is_ok (astype_int s) = false ->
  is_ok (cast_and_return df t l) = false.
Proof.
  intros Hl Ha. unfold cast_and_return. rewrite Hl.
  destruct (astype_int s); [discriminate | reflexivity].
Qed.

Lemma existsb_eqb_in (name : string) (cols : list string) :
  existsb (String.eqb name) cols = true <-> In name cols.
Proof.
  rewrite existsb_exists. split.
  - intros (x & Hin & Hx). apply String.eqb_eq in Hx. subst. exact Hin.
  - intros H. exists name. split; [exact H | apply String.eqb_refl].
Qed.

End TableLemmas.

Section UrlLoaderClaim.
Import Py Pd Loader UrlLoader.

Lemma lexicon_keys (w : string) (z : Z) :
  SmsLoader.label_mapping !! w = Some z <->
  (z = 0 /\ In w ["ham"; "legitimate"; "safe"; "normal"]) \/
  (z = 1 /\ In w ["spam"; "phishing"; "phish"; "malicious"; "smishing"]).
Proof.
  split.
  - intros H. unfold SmsLoader.label_mapping in H.
    apply elem_of_list_to_map_2 in H. apply list_elem_of_In in H.
    simpl in H.
    repeat (destruct H as [H|H];
            [injection H as <- <-; simpl; tauto|]).
    contradiction.
  - intros [[-> H]|[-> H]]; simpl in H;
      repeat (destruct H as [<-|H]; [vm_compute; reflexivity|]); contradiction.
Qed.

(** No word of the SMS lexicon is an integer literal. *)
Lemma lexicon_word_is_no_int (w : string) :
  is_Some (SmsLoader.label_mapping !! w) -> is_ok (int_of_object (Some w)) = false.
Proof.
  intros [z Hz]. apply lexicon_keys in Hz.
  destruct Hz as [[_ H]|[_ H]]; simpl in H;
    repeat (destruct H as [<-|H]; [vm_compute; reflexivity|]); contradiction.
Qed.

Lemma int_of_object_ok cell z :
  int_of_object cell = Ok z -> exists s, cell = Some s /\ int_of_str s = Ok z.
Proof.
  destruct cell as [s|]; simpl; [|discriminate].
  intros H. exists s. split; [reflexivity|].
  destruct (int_of_str s) as [z'|]; simpl in H; [|discriminate].
  destruct ((INT64_MIN <=? z') && (z' <=? INT64_MAX)); [|discriminate].
  congruence.
Qed.

(** What the URL loader read when it returns. *)
Lemma url_load_ok df texts labels :
  load_url_dataset df = Ok (texts, labels) ->
  In "url" (columns df) /\ In "label" (columns df) /\
exists u l,
    get df "url" = Some u /\ get df "label" = Some l /\
    texts = select_rows (keep_mask df "url" "label") u /\
    astype_int (select_rows (keep_mask df "url" "label") l) = Ok labels.
Proof.
intros H. unfold load_url_dataset, has_column in H.
destruct (existsb (String.eqb "url") (columns df)) eqn:Eu; [|discriminate].
destruct (existsb (String.eqb "label") (columns df)) eqn:El; [|discriminate].
simpl in H. apply existsb_eqb_in in Eu, El.
split; [exact Eu|]. split; [exact El|].
destruct (in_get_some _ _ Eu) as [u Hu]. destruct (in_get_some _ _ El) as [l Hl].
exists u, l. split; [exact Hu|]. split; [exact Hl|].
apply cast_and_return_ok in H as (s & Hs & Ha & [[Hteq _]|[_ Ht]]);
  [discriminate|].
rewrite get_dropna, Hl in Hs. simpl in Hs. injection Hs as <-.
rewrite get_dropna, Hu in Ht. simpl in Ht. injection Ht as <-.
split; [reflexivity | exact Ha].
Qed.

(** C10. The URL loader accepts a table only if it has a column named
    exactly url and one named exactly label, and then returns the kept
    rows of those two columns; a table lacking either name fails with
    the fixed error; a text label is read as an integer literal, never
    through the SMS lexicon, whose words are all refused. *)
Theorem C10_url_loader_wants_exact_names (df : DataFrame) :
  (forall texts labels,
      load_url_dataset df = Ok (texts, labels) ->
      In "url" (columns df) /\ In "label" (columns df) /\
      exists u l,
        get df "url" = Some u /\ get df "label" = Some l /\
        texts = select_rows (keep_mask df "url" "label") u /\
        astype_int (select_rows (keep_mask df "url" "label") l) = Ok labels) /\
  (~ In "url" (columns df) \/ ~ In "label" (columns df) ->
   load_url_dataset df =
     Raise (ValueError "Dataset must have 'url' and 'label' columns")) /\
  (forall v texts labels,
      get df "label" = Some (Object v) ->
      load_url_dataset df = Ok (texts, labels) ->
      Forall2 (fun cell z => exists s, cell = Some s /\ int_of_str s = Ok z)
              (select (keep_mask df "url" "label") v) labels) /\
  (forall v w,
      get df "label" = Some (Object v) ->
      In (Some w) (select (keep_mask df "url" "label") v) ->
      is_Some (SmsLoader.label_mapping !! w) ->
      In "url" (columns df) ->
      is_ok (load_url_dataset df) = false).
Proof.
  pose proof (url_load_ok df) as Hinv.
split; [exact Hinv|]. split; [|split].
  - intros H. unfold load_url_dataset, has_column.
    destruct (existsb (String.eqb "url") (columns df)) eqn:Eu;
      [|reflexivity].
    destruct (existsb (String.eqb "label") (columns df)) eqn:El;
      [|reflexivity].
    apply existsb_eqb_in in Eu, El. tauto.
  - intros v texts labels Hv H.
    apply Hinv in H as (_ & _ & u & l & _ & Hl & _ & Ha).
    rewrite Hv in Hl. injection Hl as <-. simpl in Ha.
    apply traverse_ok in Ha.
    eapply Forall2_impl; [exact Ha|].
    intros cell z Hc. apply int_of_object_ok. exact Hc.
  - intros v w Hv Hin Hw Hu. unfold load_url_dataset, has_column.
    apply existsb_eqb_in in Hu. rewrite Hu.
    pose proof (get_some_in _ _ _ Hv) as Hl. apply existsb_eqb_in in Hl.
    rewrite Hl. simpl.
    eapply cast_and_return_raise.
    + rewrite get_dropna, Hv. reflexivity.
    + simpl. eapply traverse_raise; [exact Hin|].
      apply lexicon_word_is_no_int. exact Hw.
Qed.

Lemma C10_url_loader_wants_exact_names_witness :
  (In "url" (columns Samples.url_table) /\
   In "label" (columns Samples.url_table)) /\
  load_url_dataset Samples.url_table_renamed =
    Raise (ValueError "Dataset must have 'url' and 'label' columns").
Proof.
  split.
  - destruct (C10_url_loader_wants_exact_names Samples.url_table) as (H & _).
    destruct (H (Object [Some "http://a.example/login"; Some "http://b.example"])
                [1; 0] eq_refl) as (Hu & Hl & _).
    exact (conj Hu Hl).
  - destruct (C10_url_loader_wants_exact_names Samples.url_table_renamed)
      as (_ & H & _).
    apply H. left. simpl. intros [H1|[H1|[]]]; discriminate H1.
Defined.

End UrlLoaderClaim.

Section LabelLexiconClaim.
Import Py Pd Loader.

Lemma truthy_found (p : string -> bool) (c : string) :
  p EmptyString = false -> p (lower c) = true -> truthy (Some c) = true.
Proof.
  intros He Hc. simpl. destruct (String.eqb_spec c EmptyString) as [->|]; [|reflexivity].
  simpl in Hc. congruence.
Qed.

(** The SMS loader on a table whose columns were found. *)
Lemma sms_load_found df t l :
  find_columns SmsLoader.is_text_name SmsLoader.is_label_name (columns df)
    = (Some t, Some l) ->
  SmsLoader.load_sms_dataset df =
    cast_and_return (SmsLoader.map_labels (dropna df t l) l) t l.
Proof.
  intros E. unfold SmsLoader.load_sms_dataset. rewrite E.
  assert (Ht : truthy (Some t) = true).
  { apply (truthy_found SmsLoader.is_text_name); [reflexivity|].
    eapply find_text_some. rewrite E. reflexivity. }
  assert (Hl : truthy (Some l) = true).
  { apply (truthy_found SmsLoader.is_label_name); [reflexivity|].
    eapply find_label_some. rewrite E. reflexivity. }
  rewrite Ht, Hl. reflexivity.
Qed.

(** The e-mail loader on a table whose columns were found. *)
Lemma email_load_found df t l :
  find_columns EmailLoader.is_text_name EmailLoader.is_label_name (columns df)
    = (Some t, Some l) ->
  EmailLoader.load_email_dataset df = cast_and_return (dropna df t l) t l.
Proof.
  intros E. unfold EmailLoader.load_email_dataset. rewrite E.
  assert (Ht : truthy (Some t) = true).
  { apply (truthy_found EmailLoader.is_text_name); [reflexivity|].
    eapply find_text_some. rewrite E. reflexivity. }
  assert (Hl : truthy (Some l) = true).
  { apply (truthy_found EmailLoader.is_label_name); [reflexivity|].
    eapply find_label_some. rewrite E. reflexivity. }
  rewrite Ht, Hl. reflexivity.
Qed.

Lemma int_of_float_inject (z : Z) : int_of_float (FNum (inject_Z z)) = Ok z.
Proof. simpl. rewrite Z.quot_1_r. reflexivity. Qed.

Lemma astype_mapped_ok (m : gmap string Z) v labels :
  astype_int (str_lower_map m v) = Ok labels ->
  Forall2 (fun cell z => exists s, cell = Some s /\ m !! lower s = Some z) v labels.
Proof.
  unfold str_lower_map. simpl. intros H. apply traverse_ok in H.
  apply Forall2_fmap_l in H.
  eapply Forall2_impl; [exact H|]. clear H.
  intros [s|] z; simpl; [|discriminate].
  destruct (m !! lower s) as [z'|] eqn:E; [|discriminate].
  rewrite int_of_float_inject. intros Hz. injection Hz as <-. eauto.
Qed.

Lemma astype_mapped_raise (m : gmap string Z) v s :
  In (Some s) v -> m !! lower s = None ->
  is_ok (astype_int (str_lower_map m v)) = false.
Proof.
  intros Hin Hs. unfold str_lower_map. simpl.
  apply traverse_raise with (x := mapped_cell m (Some s)).
  - apply in_map_iff. exists (Some s). split; [reflexivity | exact Hin].
  - simpl. rewrite Hs. reflexivity.
Qed.

Lemma sms_label_column df t l v :
  get df l = Some (Object v) ->
  get (SmsLoader.map_labels (dropna df t l) l) l =
    Some (str_lower_map SmsLoader.label_mapping (select (keep_mask df t l) v)).
Proof.
  intros Hv. unfold SmsLoader.map_labels.
  rewrite get_dropna, Hv. simpl.
  apply get_set_eq with (s0 := Object (select (keep_mask df t l) v)).
  rewrite get_dropna, Hv. reflexivity.
Qed.

Lemma astype_mapped_returns (m : gmap string Z) v :
  Forall (fun cell => exists s, cell = Some s /\ is_Some (m !! lower s)) v ->
  exists labels, astype_int (str_lower_map m v) = Ok labels.
Proof.
  unfold str_lower_map. simpl.
  induction 1 as [|cell v' (s & -> & [z Hz]) _ [labels IH]].
  - exists []. reflexivity.
  - exists (z :: labels). cbn [map traverse mapped_cell]. rewrite Hz.
    rewrite int_of_float_inject. cbn [mbind result_bind]. rewrite IH.
    reflexivity.
Qed.

(** The SMS loader returns when every kept label is a word of the
    lexicon, whatever its case. *)
Lemma sms_load_returns df t l v :
  find_columns SmsLoader.is_text_name SmsLoader.is_label_name (columns df)
    = (Some t, Some l) ->
  get df l = Some (Object v) ->
  Forall (fun cell => exists s, cell = Some s /\
                                is_Some (SmsLoader.label_mapping !! lower s))
         (select (keep_mask df t l) v) ->
  exists texts labels, SmsLoader.load_sms_dataset df = Ok (texts, labels).
Proof.
  intros E Hv Hall. rewrite (sms_load_found _ _ _ E).
  destruct (astype_mapped_returns _ _ Hall) as [labels Ha].
  pose proof (sms_label_column df t l v Hv) as Hl.
  unfold cast_and_return. rewrite Hl, Ha. cbn [mbind result_bind].
  destruct (String.eqb_spec l t) as [<-|Hne].
  - rewrite (get_set_eq _ _ _ _ Hl). eauto.
  - rewrite get_set_ne by exact Hne.
    unfold SmsLoader.map_labels. rewrite get_dropna, Hv.
    simpl option_map. cbv beta iota.
    rewrite get_set_ne by exact Hne. rewrite get_dropna.
    assert (Ht : In t (columns df)).
    { eapply find_text_some. rewrite E. reflexivity. }
    destruct (in_get_some _ _ Ht) as [texts ->]. simpl. eauto.
Qed.

(** The URL loader reads a text label as an integer literal. *)
Lemma url_labels_are_literals df v texts labels :
  get df "label" = Some (Object v) ->
  UrlLoader.load_url_dataset df = Ok (texts, labels) ->
  Forall2 (fun cell z => exists s, cell = Some s /\ int_of_str s = Ok z)
          (select (keep_mask df "url" "label") v) labels.
Proof.
  intros Hv H.
  apply url_load_ok in H as (_ & _ & u & l & _ & Hl & _ & Ha).
  rewrite Hv in Hl. injection Hl as <-. simpl in Ha.
  apply traverse_ok in Ha.
  eapply Forall2_impl; [exact Ha|].
  intros cell z Hc. apply int_of_object_ok. exact Hc.
Qed.

Lemma url_load_fails_on_lexicon_word df v w :
  get df "label" = Some (Object v) ->
  In (Some w) (select (keep_mask df "url" "label") v) ->
  is_Some (SmsLoader.label_mapping !! w) ->
  is_ok (UrlLoader.load_url_dataset df) = false.
Proof.
  intros Hv Hin Hw. unfold UrlLoader.load_url_dataset, UrlLoader.has_column.
  destruct (existsb (String.eqb "url") (columns df)); [|reflexivity].
  pose proof (get_some_in _ _ _ Hv) as Hl. apply existsb_eqb_in in Hl.
  rewrite Hl. simpl.
  eapply cast_and_return_raise.
  - rewrite get_dropna, Hv. reflexivity.
  - simpl. eapply traverse_raise; [exact Hin|].
    apply lexicon_word_is_no_int. exact Hw.
Qed.

(** C5 (as the code has it). When the label column holds text: the SMS
    loader lowers each kept label and maps it through the lexicon
    (ham, legitimate, safe, normal to 0; spam, phishing, phish,
    malicious, smishing to 1); it returns these labels when every kept
    label is a word of the lexicon, and fails when a kept label is
    outside the lexicon.  The e-mail loader and the URL loader have no
    lexicon: they read a text label as an integer literal and so fail on
    every word of the lexicon. *)
Theorem C5_lexicon_is_the_sms_loaders (df : DataFrame) (t l : string)
        (v : list (option string)) :
  get df l = Some (Object v) ->
  (forall w z,
      SmsLoader.label_mapping !! w = Some z <->
      (z = 0 /\ In w ["ham"; "legitimate"; "safe"; "normal"]) \/
      (z = 1 /\ In w ["spam"; "phishing"; "phish"; "malicious"; "smishing"])) /\
  (find_columns SmsLoader.is_text_name SmsLoader.is_label_name (columns df)
     = (Some t, Some l) ->
   (Forall (fun cell => exists s, cell = Some s /\
                                  is_Some (SmsLoader.label_mapping !! lower s))
           (select (keep_mask df t l) v) ->
    exists texts labels, SmsLoader.load_sms_dataset df = Ok (texts, labels)) /\
   (forall texts labels,
       SmsLoader.load_sms_dataset df = Ok (texts, labels) ->
       Forall2 (fun cell z =>
                  exists s, cell = Some s /\
                            SmsLoader.label_mapping !! lower s = Some z)
               (select (keep_mask df t l) v) labels) /\
   (forall s,
       In (Some s) (select (keep_mask df t l) v) ->
       SmsLoader.label_mapping !! lower s = None ->
       is_ok (SmsLoader.load_sms_dataset df) = false)) /\
  (find_columns EmailLoader.is_text_name EmailLoader.is_label_name (columns df)
     = (Some t, Some l) ->
   (forall texts labels,
       EmailLoader.load_email_dataset df = Ok (texts, labels) ->
       Forall2 (fun cell z => exists s, cell = Some s /\ int_of_str s = Ok z)
               (select (keep_mask df t l) v) labels) /\
   (forall w,
       In (Some w) (select (keep_mask df t l) v) ->
       is_Some (SmsLoader.label_mapping !! w) ->
       is_ok (EmailLoader.load_email_dataset df) = false)) /\
  (t = "url" -> l = "label" ->
   (forall texts labels,
       UrlLoader.load_url_dataset df = Ok (texts, labels) ->
       Forall2 (fun cell z => exists s, cell = Some s /\ int_of_str s = Ok z)
               (select (keep_mask df t l) v) labels) /\
   (forall w,
       In (Some w) (select (keep_mask df t l) v) ->
       is_Some (SmsLoader.label_mapping !! w) ->
       is_ok (UrlLoader.load_url_dataset df) = false)).
Proof.
  intros Hv. split; [exact lexicon_keys|]. split; [|split].
  - intros E. rewrite (sms_load_found _ _ _ E). split; [|split].
    + intros Hall. rewrite <- (sms_load_found _ _ _ E).
      exact (sms_load_returns df t l v E Hv Hall).
    + intros texts labels H.
      apply cast_and_return_ok in H as (s & Hs & Ha & _).
      rewrite (sms_label_column _ _ _ _ Hv) in Hs. injection Hs as <-.
      apply astype_mapped_ok. exact Ha.
    + intros s Hin Hs. eapply cast_and_return_raise.
      * apply sms_label_column. exact Hv.
      * eapply astype_mapped_raise; eassumption.
  - intros E. rewrite (email_load_found _ _ _ E). split.
    + intros texts labels H.
      apply cast_and_return_ok in H as (s & Hs & Ha & _).
      rewrite get_dropna, Hv in Hs. injection Hs as <-. simpl in Ha.
      apply traverse_ok in Ha.
      eapply Forall2_impl; [exact Ha|].
      intros cell z Hc. apply int_of_object_ok. exact Hc.
    + intros w Hin Hw. eapply cast_and_return_raise.
      * rewrite get_dropna, Hv. reflexivity.
      * simpl. eapply traverse_raise; [exact Hin|].
        apply lexicon_word_is_no_int. exact Hw.
  - intros -> ->. split.
    + intros texts labels H. exact (url_labels_are_literals df v texts labels Hv H).
    + intros w Hin Hw. exact (url_load_fails_on_lexicon_word df v w Hv Hin Hw).
Qed.

Lemma C5_lexicon_is_the_sms_loaders_witness :
  (exists texts labels,
      SmsLoader.load_sms_dataset Samples.labelled_text_table = Ok (texts, labels) /\
      Forall2 (fun cell z =>
                 exists s, cell = Some s /\
                           SmsLoader.label_mapping !! lower s = Some z)
              [Some "ham"; Some "Spam"] labels) /\
  is_ok (EmailLoader.load_email_dataset Samples.labelled_text_table) = false /\
  is_ok (UrlLoader.load_url_dataset MoreSamples.url_word_table) = false.
Proof.
  destruct (C5_lexicon_is_the_sms_loaders
              Samples.labelled_text_table "text" "label"
              [Some "ham"; Some "Spam"; Some "ham"] eq_refl)
    as (_ & Hsms & Hemail & _).
  destruct (C5_lexicon_is_the_sms_loaders
              MoreSamples.url_word_table "url" "label"
              [Some "phishing"; Some "safe"] eq_refl)
    as (_ & _ & _ & Hurl).
  split; [|split].
  - destruct (Hsms eq_refl) as (Hret & Hmap & _).
    destruct Hret as (texts & labels & H).
    + repeat (constructor; [eexists; split; [reflexivity | vm_compute; eauto]|]).
      constructor.
    + exists texts, labels. split; [exact H|]. exact (Hmap texts labels H).
  - apply (proj2 (Hemail eq_refl) "ham").
    + left. reflexivity.
    + exists 0. vm_compute. reflexivity.
  - apply (proj2 (Hurl eq_refl eq_refl) "safe").
    + right. left. reflexivity.
    + exists 0. vm_compute. reflexivity.
Defined.

(** C5, the claim as written fails for the e-mail loader: the label ham
    is not turned into 0, the load fails on it; the SMS loader maps the
    same table to the labels 0 and 1. *)
Lemma C5_email_loader_fails_on_ham :
  EmailLoader.load_email_dataset Samples.labelled_text_table =
    Raise (ValueError "invalid literal for int() with base 10: 'ham'") /\
  SmsLoader.load_sms_dataset Samples.labelled_text_table =
    Ok (Object [Some "hello"; Some "win cash now"], [0; 1]).
Proof. split; vm_compute; reflexivity. Qed.

End LabelLexiconClaim.


(** ** Evaluation *)

Section ConfusionMatrixClaim.
Import Py Metrics.

Lemma classify_binary (p : Q) : binary (classify p).
Proof. unfold classify, binary. destruct (Qle_bool p (1 # 2)); auto. Qed.

Lemma threshold_binary (probs : list Q) : Forall binary (threshold probs).
Proof.
unfold threshold. induction probs as [|p ps IH]; simpl; constructor.
- apply classify_binary.
- exact IH.
Qed.

Lemma threshold_length (probs : list Q) : length (threshold probs) = length probs.
Proof. unfold threshold. apply length_map. Qed.

(** With both classes present and nothing else, the labels found are 0, 1. *)
Lemma unique_labels_binary (y_true y_pred : list Z) :
  Forall binary y_true -> Forall binary y_pred ->
  In 0 (y_true ++ y_pred) -> In 1 (y_true ++ y_pred) ->
  unique_labels y_true y_pred = [0; 1].
Proof.
intros Ht Hp H0 H1. unfold unique_labels.
apply (Sorted_unique Z.le).
- apply Sorted_merge_sort; apply _.
- repeat constructor. lia.
- rewrite merge_sort_Permutation.
  apply NoDup_Permutation.
  + apply NoDup_remove_dups.
  + apply NoDup_cons. split; [|apply NoDup_singleton].
    intros H. apply list_elem_of_singleton in H. discriminate H.
  + intros x. rewrite elem_of_remove_dups, list_elem_of_In.
    split.
    * intros Hx. apply in_app_or in Hx.
      assert (Hb : binary x).
      { destruct Hx as [Hx|Hx];
          [eapply (proj1 (List.Forall_forall _ _) Ht) | eapply (proj1 (List.Forall_forall _ _) Hp)];
          exact Hx. }
      destruct Hb as [Hb|Hb]; rewrite Hb; apply list_elem_of_In; simpl; auto.
    * intros Hx. apply list_elem_of_In in Hx. simpl in Hx.
      destruct Hx as [<-|[<-|[]]]; assumption.
Qed.

(** The four cells of a binary table count every example once. *)
Lemma count_pairs_total (pairs : list (Z * Z)) :
  Forall (fun p => binary (fst p) /\ binary (snd p)) pairs ->
  count_pairs 0 0 pairs + count_pairs 0 1 pairs
  + count_pairs 1 0 pairs + count_pairs 1 1 pairs = len pairs.
Proof.
unfold count_pairs, len.
induction 1 as [|[a b] pairs [Ha Hb] _ IH]; [reflexivity|].
simpl in Ha, Hb. simpl List.filter. simpl fst. simpl snd.
destruct Ha as [-> | ->], Hb as [-> | ->]; simpl; lia.
Qed.

(** The actual-positive row counts the positive labels. *)
Lemma count_pairs_positive_row (y_true y_pred : list Z) :
  length y_true = length y_pred -> Forall binary y_pred ->
  count_pairs 1 0 (combine y_true y_pred) + count_pairs 1 1 (combine y_true y_pred)
  = count_label 1 y_true.
Proof.
unfold count_pairs, count_label, len.
revert y_pred. induction y_true as [|a y_true IH]; intros [|b y_pred] Hlen Hp;
  try discriminate; [reflexivity|].
inversion Hp as [|? ? Hb Hp']; subst.
specialize (IH y_pred ltac:(simpl in Hlen; lia) Hp').
simpl combine. simpl List.filter. simpl fst. simpl snd.
destruct (Z.eqb a 1); destruct Hb as [-> | ->]; simpl; lia.
Qed.

Lemma combine_binary (y_true y_pred : list Z) :
  Forall binary y_true -> Forall binary y_pred ->
  Forall (fun p => binary (fst p) /\ binary (snd p)) (combine y_true y_pred).
Proof.
intros Ht. revert y_pred. induction Ht as [|a y_true Ha Ht IH]; intros y_pred Hp.
- constructor.
- destruct Hp as [|b y_pred Hb Hp]; simpl; constructor; auto.
Qed.

(** X24. When the test labels are all 0 or 1 and both classes occur
    among the actual or the predicted labels, the confusion matrix is
    2x2, its cell in row [a] and column [b] counts the test examples of
    actual class [a] predicted as [b], the four cells sum to the number
    of test examples, and the actual-positive row FN + TP sums to the
    number of positive test labels. *)
Theorem confusion_matrix_of_two_classes (y_test : list Z) (y_pred_proba : list Q) :
  length y_pred_proba = length y_test ->
  Forall binary y_test ->
  In 0 (y_test ++ threshold y_pred_proba) ->
  In 1 (y_test ++ threshold y_pred_proba) ->
  let y_pred := threshold y_pred_proba in
  let cell a b := count_pairs a b (combine y_test y_pred) in
  confusion_matrix y_test y_pred = Ok [[cell 0 0; cell 0 1]; [cell 1 0; cell 1 1]] /\
  cell 0 0 + cell 0 1 + cell 1 0 + cell 1 1 = len y_test /\
  cell 1 0 + cell 1 1 = count_label 1 y_test.
Proof.
intros Hlen Ht H0 H1 y_pred cell.
assert (Hp : Forall binary y_pred) by apply threshold_binary.
assert (Hl : length y_test = length y_pred).
{ unfold y_pred. rewrite threshold_length. congruence. }
split; [|split].
- unfold confusion_matrix. rewrite Hl, Nat.eqb_refl. simpl negb. cbv iota.
  rewrite (unique_labels_binary y_test y_pred Ht Hp H0 H1).
  destruct y_test as [|y0 ys]; [|reflexivity].
  exfalso. subst y_pred. simpl in Hl, H0.
  destruct (threshold y_pred_proba); [exact H0 | discriminate Hl].
- unfold cell. rewrite count_pairs_total by (apply combine_binary; assumption).
  unfold len. rewrite length_combine. lia.
- unfold cell. apply count_pairs_positive_row; assumption.
Qed.

Lemma confusion_matrix_of_two_classes_witness :
  confusion_matrix [0; 1; 1; 0] (threshold [0.2; 0.4; 0.9; 0.7]%Q)
    = Ok [[1; 1]; [1; 1]] /\
  1 + 1 + 1 + 1 = len [0; 1; 1; 0] /\
  1 + 1 = count_label 1 [0; 1; 1; 0].
Proof.
apply (confusion_matrix_of_two_classes [0; 1; 1; 0] [0.2; 0.4; 0.9; 0.7]%Q).
- reflexivity.
- repeat (constructor; [unfold binary; lia|]). constructor.
- vm_compute. auto.
- vm_compute. auto.
Defined.

(** C9, where the code breaks the claim: on three test examples of class
    0 that are all predicted as class 0, the matrix the scripts compute
    has the single cell [[3]] instead of two rows and two columns, and
    their evaluation stops with IndexError at the cell of row 0 and
    column 1. *)
Theorem C9_single_class_evaluation_raises :
  confusion_matrix [0; 0; 0] (threshold [0.1; 0.2; 0.3]%Q) = Ok [[3]] /\
  Training.report [0; 0; 0] (threshold [0.1; 0.2; 0.3]%Q)
    = Raise (IndexError "index out of bounds").
Proof. split; vm_compute; reflexivity. Qed.

End ConfusionMatrixClaim.


(** ** The metadata document *)

Section RowCounts.
Import Py Pd Loader Training.

Lemma and_masks_combine (a b : list bool) :
  and_masks a b = map (fun p : bool * bool => fst p && snd p) (combine a b).
Proof.
revert b. induction a as [|x a IH]; intros [|y b]; simpl; try reflexivity.
rewrite IH. reflexivity.
Qed.

Lemma and_masks_length_l (a b : list bool) : (length (and_masks a b) <= length a)%nat.
Proof.
revert b. induction a as [|x a IH]; intros [|y b]; simpl; try lia.
specialize (IH b). lia.
Qed.

Lemma and_masks_length_r (a b : list bool) : (length (and_masks a b) <= length b)%nat.
Proof.
revert b. induction a as [|x a IH]; intros [|y b]; simpl; try lia.
specialize (IH b). lia.
Qed.

Lemma select_length {A} (mask : list bool) (v : list A) :
  (length mask <= length v)%nat ->
  length (select mask v) = length (List.filter (fun b : bool => b) mask).
Proof.
revert v. induction mask as [|b mask IH]; intros [|x v] Hle; simpl in *; try lia.
destruct b; simpl; rewrite IH by lia; reflexivity.
Qed.

Lemma filter_map_length {A} (f : A -> bool) (l : list A) :
  length (List.filter (fun b : bool => b) (map f l)) = length (List.filter f l).
Proof.
induction l as [|x l IH]; simpl; [reflexivity|].
destruct (f x); simpl; rewrite IH; reflexivity.
Qed.

Lemma notna_length (s : Series) : length (notna s) = size s.
Proof. destruct s; simpl; apply length_map. Qed.

Lemma select_rows_size (mask : list bool) (s : Series) :
  (length mask <= size s)%nat ->
  size (select_rows mask s) = length (List.filter (fun b : bool => b) mask).
Proof. destruct s; simpl; apply select_length. Qed.

(** Dropping the incomplete rows leaves [complete_rows] rows in the text
    and in the label column. *)
Lemma dropna_sizes df t l st sl :
  get df t = Some st -> get df l = Some sl ->
  size (select_rows (keep_mask df t l) st) = complete_rows st sl /\
  size (select_rows (keep_mask df t l) sl) = complete_rows st sl.
Proof.
intros Ht Hl. unfold keep_mask, complete_rows. rewrite Ht, Hl.
rewrite <- filter_map_length, <- and_masks_combine.
split; apply select_rows_size.
- rewrite <- notna_length. apply and_masks_length_l.
- rewrite <- notna_length. apply and_masks_length_r.
Qed.

Lemma traverse_length {A B} (f : A -> result B) (l : list A) (ys : list B) :
  traverse f l = Ok ys -> length ys = length l.
Proof.
intros H. apply traverse_ok in H. symmetry. exact (Forall2_length _ _ _ H).
Qed.

Lemma astype_int_length (s : Series) (labels : list Z) :
  astype_int s = Ok labels -> length labels = size s.
Proof.
destruct s; simpl; intros H.
- injection H as <-. reflexivity.
- apply traverse_length in H. exact H.
- injection H as <-. apply length_map.
- apply traverse_length in H. exact H.
Qed.

(** After [cast_and_return], texts and labels have the size of the label
    column and, when distinct, of the text column. *)
Lemma cast_and_return_size df t l texts labels st sl n :
  get df t = Some st -> get df l = Some sl ->
  size st = n -> size sl = n ->
  cast_and_return df t l = Ok (texts, labels) ->
  size texts = n.
Proof.
intros Ht Hl Hst Hsl H.
apply cast_and_return_ok in H as (s & Hs & Ha & [[-> ->]|[Hne Htx]]).
- simpl. rewrite (astype_int_length _ _ Ha). congruence.
- congruence.
Qed.

Lemma email_total df texts labels :
  EmailLoader.load_email_dataset df = Ok (texts, labels) ->
  exists t l st sl,
    chosen_columns (Prose true) df = (Some t, Some l) /\
    get df t = Some st /\ get df l = Some sl /\
    size texts = complete_rows st sl.
Proof.
intros H. simpl.
destruct (find_columns _ _ (columns df)) as [[t|] [l|]] eqn:E;
  try (unfold EmailLoader.load_email_dataset in H; rewrite E in H;
       simpl in H; try rewrite orb_true_r in H; discriminate H).
rewrite (email_load_found _ _ _ E) in H.
assert (Ht : In t (columns df)).
{ eapply find_text_some. rewrite E. reflexivity. }
assert (Hl : In l (columns df)).
{ eapply find_label_some. rewrite E. reflexivity. }
destruct (in_get_some _ _ Ht) as [st Hst]. destruct (in_get_some _ _ Hl) as [sl Hsl].
exists t, l, st, sl. repeat split; try assumption.
destruct (dropna_sizes df t l st sl Hst Hsl) as [H1 H2].
eapply cast_and_return_size; [| | exact H1 | exact H2 | exact H].
- rewrite get_dropna, Hst. reflexivity.
- rewrite get_dropna, Hsl. reflexivity.
Qed.

Lemma map_labels_get df l sl :
  get df l = Some sl ->
  exists sl', get (SmsLoader.map_labels df l) l = Some sl' /\ size sl' = size sl.
Proof.
intros Hl. unfold SmsLoader.map_labels. rewrite Hl.
destruct sl as [v|v|v|v]; try (eexists; split; [exact Hl | reflexivity]).
eexists. split; [eapply get_set_eq; exact Hl|].
simpl. apply length_map.
Qed.

Lemma map_labels_get_ne df l t : t <> l ->
  get (SmsLoader.map_labels df l) t = get df t.
Proof.
intros Hne. unfold SmsLoader.map_labels.
destruct (get df l) as [[v|v|v|v]|]; try reflexivity.
apply get_set_ne. congruence.
Qed.

Lemma sms_total df texts labels :
  SmsLoader.load_sms_dataset df = Ok (texts, labels) ->
  exists t l st sl,
    chosen_columns ShortMessage df = (Some t, Some l) /\
    get df t = Some st /\ get df l = Some sl /\
    size texts = complete_rows st sl.
Proof.
intros H. simpl.
destruct (find_columns _ _ (columns df)) as [[t|] [l|]] eqn:E;
  try (unfold SmsLoader.load_sms_dataset in H; rewrite E in H;
       simpl in H; try rewrite orb_true_r in H; discriminate H).
rewrite (sms_load_found _ _ _ E) in H.
assert (Ht : In t (columns df)).
{ eapply find_text_some. rewrite E. reflexivity. }
assert (Hl : In l (columns df)).
{ eapply find_label_some. rewrite E. reflexivity. }
destruct (in_get_some _ _ Ht) as [st Hst]. destruct (in_get_some _ _ Hl) as [sl Hsl].
exists t, l, st, sl. repeat split; try assumption.
destruct (dropna_sizes df t l st sl Hst Hsl) as [H1 H2].
assert (Hl' : get (dropna df t l) l = Some (select_rows (keep_mask df t l) sl)).
{ rewrite get_dropna, Hsl. reflexivity. }
destruct (map_labels_get _ _ _ Hl') as (sl' & Hsl' & Hsize).
apply cast_and_return_ok in H as (s & Hs & Ha & [[-> ->]|[Hne Htx]]).
- simpl. rewrite (astype_int_length _ _ Ha). congruence.
- rewrite map_labels_get_ne in Htx by exact Hne.
  rewrite get_dropna, Hst in Htx. injection Htx as <-. exact H1.
Qed.

Lemma url_total df texts labels :
  UrlLoader.load_url_dataset df = Ok (texts, labels) ->
  exists t l st sl,
    chosen_columns UrlString df = (Some t, Some l) /\
    get df t = Some st /\ get df l = Some sl /\
    size texts = complete_rows st sl.
Proof.
intros H.
destruct (url_load_ok df texts labels H) as (_ & _ & u & l & Hu & Hl & -> & _).
exists "url", "label", u, l. repeat split; try assumption.
apply (dropna_sizes df "url" "label" u l Hu Hl).
Qed.

End RowCounts.

Section MetadataClaim.
Import Py Pd Json Training.

Variable B : backend.

(** Peel one step off a run that returned. *)
Ltac step H :=
  match type of H with
  | (_ ≫= _) = Ok _ =>
      let x := fresh "x" in
      let Hx := fresh "Hx" in
      apply bind_ok in H as (x & Hx & H)
  end.

Lemma url_metadata df md :
  train_url_model B df = Ok md ->
  exists texts labels n_train n_test,
    UrlLoader.load_url_dataset df = Ok (texts, labels) /\
    field "dataset_info" md
      = Some (dataset_info_of UrlString (size texts) n_train n_test labels).
Proof.
intros H. unfold train_url_model in H.
step H. destruct x as [urls labels]. cbv beta iota in H.
step H. step H. destruct x0 as [train_idx test_idx]. cbv beta iota zeta in H.
destruct (evaluate B _ _ _) as [[[test_loss test_acc] ?] ?].
step H. destruct x0 as [[precision recall] f1]. cbv beta iota in H.
injection H as <-.
eexists urls, labels, _, _. split; [exact Hx | reflexivity].
Qed.

Lemma sms_metadata df md :
  train_sms_model B df = Ok md ->
  exists texts labels n_train n_test,
    SmsLoader.load_sms_dataset df = Ok (texts, labels) /\
    field "dataset_info" md
      = Some (dataset_info_of ShortMessage (size texts) n_train n_test labels).
Proof.
intros H. unfold train_sms_model in H.
step H. destruct x as [messages labels]. cbv beta iota in H.
step H. destruct x as [train_idx test_idx]. cbv beta iota in H.
step H. step H. destruct x0 as [X_train vectorize_layer]. cbv beta iota in H.
step H. cbv beta iota zeta in H.
destruct (evaluate B _ _ _) as [[[test_loss test_acc] ?] ?].
step H. destruct x1 as [[precision recall] f1]. cbv beta iota in H.
injection H as <-.
eexists messages, labels, _, _. split; [exact Hx | reflexivity].
Qed.

Lemma email_metadata df use_simplified md :
  train_email_model B df use_simplified = Ok md ->
  exists texts labels n_train n_test,
    EmailLoader.load_email_dataset df = Ok (texts, labels) /\
    field "dataset_info" md
      = Some (dataset_info_of (Prose use_simplified) (size texts)
                              n_train n_test labels).
Proof.
intros H. unfold train_email_model in H.
step H. destruct x as [emails labels]. cbv beta iota in H.
step H. destruct x as [train_idx test_idx]. cbv beta iota in H.
step H. step H. step H. destruct x1 as [[test_loss test_acc] y_pred].
cbv beta iota in H.
step H. destruct x1 as [[precision recall] f1]. cbv beta iota in H.
injection H as <-.
eexists emails, labels, _, _. split; [exact Hx | reflexivity].
Qed.

(** C6 (as the code has it). The metadata document of a successful run
    has a [dataset_info] record with the integer fields total_samples,
    training_samples, test_samples, the count of class 0 and
    phishing_count; total_samples is the number of rows that have both a
    text and a label, and the two class counts are taken over the whole
    loaded label sequence.  The count of class 0 is named
    legitimate_count by the e-mail and SMS scripts and safe_count by the
    URL script. *)
Theorem C6_dataset_info_counts (m : modality) (df : DataFrame) (md : json) :
  train B m df = Ok md ->
  exists texts labels t l st sl n_train n_test,
    load m df = Ok (texts, labels) /\
    chosen_columns m df = (Some t, Some l) /\
    get df t = Some st /\ get df l = Some sl /\
    field "dataset_info" md =
      Some (JObject [("total_samples", JInt (Z.of_nat (complete_rows st sl)));
                     ("training_samples", JInt n_train);
                     ("test_samples", JInt n_test);
                     (class_0_key m, JInt (count_eq 0 labels));
                     ("phishing_count", JInt (count_eq 1 labels))]).
Proof.
intros H. destruct m as [use_simplified| |]; simpl in H.
- apply email_metadata in H as (texts & labels & n_train & n_test & Hload & Hinfo).
  destruct (email_total _ _ _ Hload) as (t & l & st & sl & Hc & Ht & Hl & Hn).
  exists texts, labels, t, l, st, sl, n_train, n_test.
  rewrite Hinfo, Hn. repeat split; assumption.
- apply sms_metadata in H as (texts & labels & n_train & n_test & Hload & Hinfo).
  destruct (sms_total _ _ _ Hload) as (t & l & st & sl & Hc & Ht & Hl & Hn).
  exists texts, labels, t, l, st, sl, n_train, n_test.
  rewrite Hinfo, Hn. repeat split; assumption.
- apply url_metadata in H as (texts & labels & n_train & n_test & Hload & Hinfo).
  destruct (url_total _ _ _ Hload) as (t & l & st & sl & Hc & Ht & Hl & Hn).
  exists texts, labels, t, l, st, sl, n_train, n_test.
  rewrite Hinfo, Hn. repeat split; assumption.
Qed.

End MetadataClaim.

Section MetadataRuns.
Import Py Pd Json Training Samples.

Lemma C6_dataset_info_counts_witness :
  exists texts labels t l st sl n_train n_test,
    load ShortMessage sms_run_table = Ok (texts, labels) /\
    chosen_columns ShortMessage sms_run_table = (Some t, Some l) /\
    get sms_run_table t = Some st /\ get sms_run_table l = Some sl /\
    field "dataset_info" sms_run_metadata =
      Some (JObject [("total_samples", JInt (Z.of_nat (complete_rows st sl)));
                     ("training_samples", JInt n_train);
                     ("test_samples", JInt n_test);
                     (class_0_key ShortMessage, JInt (count_eq 0 labels));
                     ("phishing_count", JInt (count_eq 1 labels))]).
Proof.
apply (C6_dataset_info_counts demo_backend ShortMessage sms_run_table sms_run_metadata).
vm_compute. reflexivity.
Defined.

(** C6, the claim as written fails for the URL modality: the
    [dataset_info] record of a URL run has no field legitimate_count; its
    count of class 0 is the field safe_count. *)
Lemma C6_url_run_has_safe_count :
  exists md info,
    train demo_backend UrlString url_run_table = Ok md /\
    field "dataset_info" md = Some info /\
    keys info = ["total_samples"; "training_samples"; "test_samples";
                 "safe_count"; "phishing_count"] /\
    field "legitimate_count" info = None /\
    field "safe_count" info = Some (JInt 4).
Proof. eexists _, _. vm_compute. repeat split. Qed.

End MetadataRuns.


(** ** The word-level encoder *)

Section TokenCounts.
Import Py TextVectorization.

Lemma count_token_lookup (m : gmap string nat) (x t : string) :
  count_token m x !! t =
    if String.eqb x t then Some (S (default 0%nat (m !! t))) else m !! t.
Proof.
unfold count_token. destruct (String.eqb_spec x t) as [->|Hne].
- apply lookup_insert_eq.
- apply lookup_insert_ne. exact Hne.
Qed.

(** The table after counting [toks] on top of [m]. *)
Lemma fold_count_lookup (toks : list string) (m : gmap string nat) (t : string) :
  fold_left count_token toks m !! t =
    match m !! t, count_occ string_dec toks t with
    | Some k, n => Some (k + n)%nat
    | None, O => None
    | None, n => Some n
    end.
Proof.
revert m. induction toks as [|x toks IH]; intros m; simpl.
- destruct (m !! t) as [k|]; [f_equal; lia | reflexivity].
- rewrite IH, count_token_lookup.
  destruct (string_dec x t) as [->|Hne].
  + rewrite String.eqb_refl.
    destruct (m !! t) as [k|]; simpl; f_equal; lia.
  + destruct (String.eqb_spec x t) as [->|_]; [contradiction | reflexivity].
Qed.

(** The count table holds, for every token that occurs, how often. *)
Lemma token_counts_lookup (docs : list (list string)) (t : string) (n : nat) :
  token_counts docs !! t = Some n <-> n = freq docs t /\ (0 < n)%nat.
Proof.
unfold token_counts, freq. rewrite fold_count_lookup, lookup_empty.
destruct (count_occ string_dec (concat docs) t) as [|k]; split.
- discriminate.
- intros [-> H]. lia.
- intros H. injection H as <-. split; [reflexivity | lia].
- intros [-> _]. reflexivity.
Qed.

Lemma freq_pos (docs : list (list string)) (t : string) :
  (0 < freq docs t)%nat <-> In t (concat docs).
Proof. unfold freq. symmetry. apply count_occ_In. Qed.

End TokenCounts.

Section Ranking.
Import Py TextVectorization.

#[local] Instance before_trans : Transitive before.
Proof.
intros [t1 n1] [t2 n2] [t3 n3]. unfold before. simpl.
intros [H12|[E12 L12]] [H23|[E23 L23]].
- left. lia.
- left. lia.
- left. lia.
- right. split; [congruence|]. etransitivity; eassumption.
Qed.

#[local] Instance before_total : Total before.
Proof.
intros [t1 n1] [t2 n2]. unfold before. simpl.
destruct (lt_eq_lt_dec n1 n2) as [[Hlt|Heq]|Hgt].
- right. left. exact Hlt.
- destruct (total String.le t1 t2) as [H|H].
  + right. right. split; [congruence | exact H].
  + left. right. split; [exact Heq | exact H].
- left. left. exact Hgt.
Qed.

Lemma ranked_perm (docs : list (list string)) : ranked docs ≡ₚ counted docs.
Proof. apply merge_sort_Permutation. Qed.

Lemma ranked_sorted (docs : list (list string)) : StronglySorted before (ranked docs).
Proof. apply StronglySorted_merge_sort; apply _. Qed.

(** What is counted: each learnable token that occurs, with its frequency. *)
Lemma counted_spec (docs : list (list string)) (t : string) (n : nat) :
  In (t, n) (counted docs) <->
  n = freq docs t /\ In t (concat docs) /\ is_special t = false.
Proof.
unfold counted. rewrite filter_In. simpl.
rewrite <- list_elem_of_In, elem_of_map_to_list, token_counts_lookup.
rewrite negb_true_iff. split.
- intros [[-> Hp] Hs]. apply freq_pos in Hp. auto.
- intros (-> & Hin & Hs). apply freq_pos in Hin. auto.
Qed.

Lemma counted_nodup (docs : list (list string)) : NoDup (map fst (counted docs)).
Proof.
unfold counted.
pose proof (NoDup_fst_map_to_list (token_counts docs)) as H.
revert H. generalize (map_to_list (token_counts docs)).
induction l as [|[t n] l IH]; simpl; intros H; [constructor|].
apply NoDup_cons in H as [Hnin Hnd].
destruct (negb (is_special t)); simpl; [|exact (IH Hnd)].
apply NoDup_cons. split; [|exact (IH Hnd)].
intros Hin. apply Hnin.
apply list_elem_of_fmap in Hin as ([t' n'] & -> & Hin).
apply list_elem_of_fmap. exists (t', n'). split; [reflexivity|].
apply list_elem_of_In. apply list_elem_of_In in Hin.
apply filter_In in Hin. tauto.
Qed.

Lemma ranked_spec (docs : list (list string)) (t : string) (n : nat) :
  In (t, n) (ranked docs) <->
  n = freq docs t /\ In t (concat docs) /\ is_special t = false.
Proof.
rewrite <- counted_spec, <- !list_elem_of_In. rewrite ranked_perm. reflexivity.
Qed.

Lemma ranked_nodup (docs : list (list string)) : NoDup (map fst (ranked docs)).
Proof.
assert (Hp : map fst (ranked docs) ≡ₚ map fst (counted docs))
  by apply fmap_Permutation, ranked_perm.
rewrite Hp. apply counted_nodup.
Qed.

(** As many are ranked as there are candidates. *)
Lemma ranked_length (docs : list (list string)) :
  length (ranked docs) = length (candidates docs).
Proof.
rewrite <- (length_map fst (ranked docs)).
apply Permutation_length. apply NoDup_Permutation.
- apply ranked_nodup.
- apply NoDup_remove_dups.
- intros t. unfold candidates. rewrite elem_of_remove_dups, !list_elem_of_In.
  rewrite filter_In, negb_true_iff, in_map_iff. split.
  + intros ([t' n] & <- & Hin). apply ranked_spec in Hin. tauto.
  + intros [Hin Hs]. exists (t, freq docs t). split; [reflexivity|].
    apply ranked_spec. auto.
Qed.

End Ranking.

Section Vocabulary.
Import Py TextVectorization.

Variable l0 : layer.
Variable docs : list (list string).

Let k : nat := (Z.to_nat (max_tokens l0) - token_start_index)%nat.
Let l : layer := adapt l0 docs.

Lemma learned_eq : learned l = map fst (firstn k (ranked docs)).
Proof. reflexivity. Qed.

Lemma learned_length :
  length (learned l) = Nat.min k (length (candidates docs)).
Proof. rewrite learned_eq, length_map, length_firstn, ranked_length. reflexivity. Qed.

Lemma learned_nodup : NoDup (learned l).
Proof.
rewrite learned_eq, <- firstn_map.
eapply sublist_NoDup; [apply ranked_nodup | apply sublist_take].
Qed.

Lemma learned_ranked (t : string) :
  In t (learned l) -> In (t, freq docs t) (firstn k (ranked docs)).
Proof.
rewrite learned_eq, in_map_iff. intros ([t' n] & Ht & Hin). simpl in Ht. subst t'.
assert (Hr : In (t, n) (ranked docs)).
{ rewrite <- (firstn_skipn k (ranked docs)). apply in_or_app. left. exact Hin. }
apply ranked_spec in Hr as (-> & _). exact Hin.
Qed.

(** A learned token occurs in the documents and is not a special token. *)
Lemma learned_occurs (t : string) :
  In t (learned l) -> In t (concat docs) /\ is_special t = false.
Proof.
intros H. apply learned_ranked in H.
assert (Hr : In (t, freq docs t) (ranked docs)).
{ rewrite <- (firstn_skipn k (ranked docs)). apply in_or_app. left. exact H. }
apply ranked_spec in Hr. tauto.
Qed.

Lemma before_freq (a b : string * nat) : before a b -> (snd b <= snd a)%nat.
Proof. unfold before. intros [H|[H _]]; lia. Qed.

(** No token left out occurs more often than a learned one. *)
Lemma learned_are_top (t u : string) :
  In t (learned l) -> In u (concat docs) -> is_special u = false ->
  ~ In u (learned l) -> (freq docs u <= freq docs t)%nat.
Proof.
intros Ht Hu Hs Hnu. apply learned_ranked in Ht.
assert (Hr : In (u, freq docs u) (ranked docs)) by (apply ranked_spec; auto).
rewrite <- (firstn_skipn k (ranked docs)) in Hr. apply in_app_or in Hr.
destruct Hr as [Hr|Hr].
- exfalso. apply Hnu. rewrite learned_eq. apply in_map_iff.
  exists (u, freq docs u). split; [reflexivity | exact Hr].
- pose proof (ranked_sorted docs) as Hsort.
  rewrite <- (firstn_skipn k (ranked docs)) in Hsort.
  apply list_elem_of_In in Ht, Hr.
  exact (before_freq _ _ (StronglySorted_app_1_elem_of before _ _ _ _ Hsort Ht Hr)).
Qed.

Lemma sorted_lookup {A} (R : relation A) (xs : list A) (i j : nat) (x y : A) :
  StronglySorted R xs -> (i < j)%nat ->
  xs !! i = Some x -> xs !! j = Some y -> R x y.
Proof.
intros Hs. revert i j. induction Hs as [|a xs Hs IH Hall]; intros i j Hij Hi Hj.
- discriminate.
- destruct j as [|j]; [lia|]. simpl in Hj. destruct i as [|i]; simpl in Hi.
  + injection Hi as <-.
    apply (proj1 (List.Forall_forall _ _) Hall). apply list_elem_of_In.
    eapply list_elem_of_lookup_2. exact Hj.
  + apply (IH i j); [lia | exact Hi | exact Hj].
Qed.

(** Learned tokens are in order of decreasing frequency. *)
Lemma learned_in_order (i j : nat) (t u : string) :
  (i <= j)%nat -> learned l !! i = Some t -> learned l !! j = Some u ->
  (freq docs u <= freq docs t)%nat.
Proof.
intros Hij Hi Hj. destruct (Nat.eq_dec i j) as [->|Hne].
- rewrite Hi in Hj. injection Hj as <-. lia.
- rewrite learned_eq in Hi, Hj. rewrite list_lookup_fmap in Hi, Hj.
  destruct (firstn k (ranked docs) !! i) as [[t' n]|] eqn:Ei; [|discriminate].
  destruct (firstn k (ranked docs) !! j) as [[u' m]|] eqn:Ej; [|discriminate].
  simpl in Hi, Hj. injection Hi as ->. injection Hj as ->.
  assert (Hsort : StronglySorted before (firstn k (ranked docs))).
  { pose proof (ranked_sorted docs) as H.
    rewrite <- (firstn_skipn k (ranked docs)) in H.
    exact (StronglySorted_app_1_l before _ _ H). }
  pose proof (sorted_lookup before _ i j _ _ Hsort ltac:(lia) Ei Ej) as Hb.
  apply before_freq in Hb. simpl in Hb.
  assert (Ht : In (t, n) (ranked docs)).
  { rewrite <- (firstn_skipn k (ranked docs)). apply in_or_app. left.
    apply list_elem_of_In. eapply list_elem_of_lookup_2. exact Ei. }
  assert (Hu : In (u, m) (ranked docs)).
  { rewrite <- (firstn_skipn k (ranked docs)). apply in_or_app. left.
    apply list_elem_of_In. eapply list_elem_of_lookup_2. exact Ej. }
  apply ranked_spec in Ht as (-> & _). apply ranked_spec in Hu as (-> & _).
  exact Hb.
Qed.

End Vocabulary.

Section Encoding.
Import Py TextVectorization.

Lemma index_of_none (t : string) (toks : list string) :
  ~ In t toks -> index_of t toks = None.
Proof.
induction toks as [|x toks IH]; simpl; [reflexivity|].
intros H. destruct (String.eqb_spec x t) as [->|Hne].
- exfalso. apply H. left. reflexivity.
- rewrite IH; [reflexivity|]. intros Hin. apply H. right. exact Hin.
Qed.

Lemma index_of_lookup (toks : list string) (i : nat) (t : string) :
  NoDup toks -> toks !! i = Some t -> index_of t toks = Some i.
Proof.
intros Hnd. revert i. induction Hnd as [|x toks Hnin Hnd IH]; intros i Hi.
- discriminate.
- destruct i as [|i]; simpl in *.
  + injection Hi as ->. rewrite String.eqb_refl. reflexivity.
  + destruct (String.eqb_spec x t) as [->|Hne].
    * exfalso. apply Hnin. eapply list_elem_of_lookup_2. exact Hi.
    * rewrite (IH i Hi). reflexivity.
Qed.

Lemma lookup_learned (l : layer) (i : nat) (t : string) :
  NoDup (learned l) -> learned l !! i = Some t -> is_special t = false ->
  lookup l t = Z.of_nat (2 + i).
Proof.
intros Hnd Hi Hs. unfold lookup.
unfold is_special in Hs. apply orb_false_iff in Hs as [Hm _].
rewrite Hm, (index_of_lookup _ _ _ Hnd Hi). reflexivity.
Qed.

(** A token outside the vocabulary gets the out-of-vocabulary index. *)
Lemma lookup_oov (l : layer) (t : string) :
  ~ In t (get_vocabulary l) -> lookup l t = 1.
Proof.
unfold get_vocabulary, lookup. simpl. intros H.
destruct (String.eqb_spec t mask_token) as [->|_].
- exfalso. apply H. left. reflexivity.
- rewrite index_of_none; [reflexivity|]. intros Hin. apply H. right. right. exact Hin.
Qed.

Lemma call_length (l : layer) (doc : list string) :
  length (call l doc) = Z.to_nat (output_sequence_length l).
Proof.
unfold call. rewrite length_app, length_firstn, repeat_length, length_map. lia.
Qed.

(** Position by position: the index of the token there, else padding 0. *)
Lemma call_nth (l : layer) (doc : list string) (i : nat) :
  (i < Z.to_nat (output_sequence_length l))%nat ->
  nth i (call l doc) 0 =
    match nth_error doc i with
    | Some t => lookup l t
    | None => 0
    end.
Proof.
intros Hi. unfold call.
set (n := Z.to_nat (output_sequence_length l)) in *.
destruct (nth_error doc i) as [t|] eqn:Et.
- assert (Hlt : (i < length doc)%nat) by (apply nth_error_Some; congruence).
  rewrite app_nth1 by (rewrite length_firstn, length_map; lia).
  apply nth_error_nth.
  rewrite nth_error_firstn.
  destruct (Nat.ltb_spec i n); [|lia].
  apply map_nth_error. exact Et.
- apply nth_error_None in Et.
  rewrite app_nth2 by (rewrite length_firstn, length_map; lia).
  apply nth_repeat.
Qed.

End Encoding.

Section WordEncoderClaim.
Import Py TextVectorization.

(** C2 (as the library layer behaves). For every word-level training
    run with a cap [vocab_size] the layer accepts: the fitted vocabulary
    has at most [vocab_size] entries; id 0 is the padding token and id 1
    the out-of-vocabulary token; the ids from 2 on hold the
    [vocab_size - 2] most frequent tokens of the training text (all of
    them when there are fewer), in order of decreasing frequency, and each
    is encoded by its id; a token outside the vocabulary is encoded as 1;
    an encoded text has length [max_length], with 0 after its last
    token. *)
Theorem C2_word_vocabulary (vocab_size max_length : Z)
        (docs : list (list string)) (l0 : layer) :
  create vocab_size max_length = Ok l0 ->
  let l := adapt l0 docs in
  let vocab := get_vocabulary l in
  Z.of_nat (length vocab) <= vocab_size /\
  length vocab
    = (2 + Nat.min (Z.to_nat vocab_size - 2) (length (candidates docs)))%nat /\
  vocab !! 0%nat = Some "" /\
  vocab !! 1%nat = Some "[UNK]" /\
  (forall (i : nat) t,
      (2 <= i)%nat -> vocab !! i = Some t ->
      In t (concat docs) /\ lookup l t = Z.of_nat i) /\
  (forall t u,
      In t (learned l) -> In u (concat docs) -> is_special u = false ->
      ~ In u vocab -> (freq docs u <= freq docs t)%nat) /\
  (forall (i j : nat) t u,
      (2 <= i <= j)%nat -> vocab !! i = Some t -> vocab !! j = Some u ->
      (freq docs u <= freq docs t)%nat) /\
  (forall t, ~ In t vocab -> lookup l t = 1) /\
  (forall doc,
      length (call l doc) = Z.to_nat max_length /\
      forall i : nat, (i < Z.to_nat max_length)%nat ->
        nth i (call l doc) 0 = match nth_error doc i with
                               | Some t => lookup l t
                               | None => 0
                               end).
Proof.
intros Hc l vocab. unfold create in Hc.
destruct (Z.leb_spec vocab_size 1) as [|Hcap]; [discriminate|].
injection Hc as <-.
assert (Hlen : length vocab
               = (2 + Nat.min (Z.to_nat vocab_size - 2) (length (candidates docs)))%nat).
{ unfold vocab, get_vocabulary.
  change (length (mask_token :: oov_token :: learned l))
    with (2 + length (learned l))%nat.
  f_equal. apply (learned_length (Layer vocab_size max_length []) docs). }
assert (Hshift : forall i : nat, vocab !! (2 + i)%nat = learned l !! i)
  by reflexivity.
split; [rewrite Hlen; lia|]. split; [exact Hlen|].
split; [reflexivity|]. split; [reflexivity|].
split; [|split; [|split; [|split]]].
- intros i t Hi Ht. replace i with (2 + (i - 2))%nat in Ht |- * by lia.
  rewrite Hshift in Ht.
  assert (Hin : In t (learned l)).
  { apply list_elem_of_In. eapply list_elem_of_lookup_2. exact Ht. }
  apply (learned_occurs (Layer vocab_size max_length []) docs) in Hin as [Hin Hs].
  split; [exact Hin|].
  apply lookup_learned;
    [apply (learned_nodup (Layer vocab_size max_length []) docs) | exact Ht | exact Hs].
- intros t u Ht Hu Hs Hnu. apply (learned_are_top (Layer vocab_size max_length []) docs); try assumption.
  intros Hin. apply Hnu. right. right. exact Hin.
- intros i j t u Hij Ht Hu.
  replace i with (2 + (i - 2))%nat in Ht by lia.
  replace j with (2 + (j - 2))%nat in Hu by lia.
  rewrite Hshift in Ht, Hu.
  eapply (learned_in_order (Layer vocab_size max_length []) docs (i - 2) (j - 2));
    [lia | exact Ht | exact Hu].
- intros t Ht. apply lookup_oov. exact Ht.
- intros doc. split; [apply call_length | apply (call_nth l doc)].
Qed.

Lemma C2_word_vocabulary_witness :
  Z.of_nat (length (get_vocabulary (adapt (Layer 5 4 []) Samples.prize_docs))) <= 5 /\
  lookup (adapt (Layer 5 4 []) Samples.prize_docs) "unseen" = 1.
Proof.
destruct (C2_word_vocabulary 5 4 Samples.prize_docs (Layer 5 4 []) eq_refl)
  as (Hcap & _ & _ & _ & _ & _ & _ & Hoov & _).
split; [exact Hcap|].
apply Hoov. vm_compute. intros H.
repeat (destruct H as [H|H]; [discriminate H|]). exact H.
Defined.

(** C2, the claim as written fails: with the SMS script's cap and
    length, id 1 is the out-of-vocabulary token and not a token of the
    text, the most frequent token has id 2, and a token never seen is
    encoded as 1, not 0; with a cap of 5 only three of the four distinct
    tokens are kept, not four. *)
Lemma C2_unseen_token_is_1 :
  exists l0,
    create Sms.VOCAB_SIZE Sms.MAX_SMS_LENGTH = Ok l0 /\
    get_vocabulary (adapt l0 Samples.prize_docs)
      = [""; "[UNK]"; "free"; "prize"; "now"; "win"] /\
    lookup (adapt l0 Samples.prize_docs) "unseen" = 1 /\
    firstn 3 (call (adapt l0 Samples.prize_docs) ["free"; "unseen"]) = [2; 1; 0] /\
    get_vocabulary (adapt (Layer 5 4 []) Samples.prize_docs)
      = [""; "[UNK]"; "free"; "prize"; "now"].
Proof. eexists. vm_compute. repeat split. Qed.

End WordEncoderClaim.


(** ** Further properties of the character encoder *)

Section CharEncoderMore.
Import Py Url.

(** X1. The fixed row length needs a non-negative [max_length]: a row has
    length [max_length] when it is at least 0, and for a negative one the
    row is the URL without its last [-max_length] characters, unpadded, so
    its length varies with the URL. *)
Theorem preprocess_url_length_by_sign (url : list char) (max_length : Z) :
  (0 <= max_length -> len (preprocess_url url max_length) = max_length) /\
  (max_length < 0 ->
   len (preprocess_url url max_length) = Z.max 0 (len url + max_length)).
Proof.
split; [apply preprocess_url_length|].
intros Hneg. unfold preprocess_url, slice_to.
destruct (Z.leb_spec 0 max_length) as [|_]; [lia|].
unfold len. rewrite length_map, length_firstn.
destruct (Z.ltb_spec
            (Z.of_nat (Nat.min (Z.to_nat (Z.of_nat (length url) + max_length))
                               (length url))) max_length); [lia|].
rewrite length_map, length_firstn. lia.
Qed.

Lemma preprocess_url_length_by_sign_witness :
  len (preprocess_url (chars "abc") 5) = 5 /\
  len (preprocess_url (chars "abc") (-1)) = Z.max 0 (len (chars "abc") + -1).
Proof.
destruct (preprocess_url_length_by_sign (chars "abc") 5) as [H _].
destruct (preprocess_url_length_by_sign (chars "abc") (-1)) as [_ H'].
split; [apply H; lia | apply H'; lia].
Defined.

Lemma in_firstn_in {A} (n : nat) (x : A) (xs : list A) :
  In x (firstn n xs) -> In x xs.
Proof.
intros H. rewrite <- (firstn_skipn n xs). apply in_or_app. left. exact H.
Qed.

Lemma preprocess_url_ids (url : list char) (L : Z) :
  Forall (fun c => 0 <= ord c) url ->
  Forall (fun id => 0 <= id < VOCAB_SIZE) (preprocess_url url L).
Proof.
intros Hpos. unfold preprocess_url.
assert (Hseq : Forall (fun id => 0 <= id < VOCAB_SIZE)
                 (map (fun c => Z.min (ord c) (VOCAB_SIZE - 1)) (slice_to url L))).
{ apply List.Forall_forall. intros id Hin. apply in_map_iff in Hin as (c & <- & Hc).
  assert (Hc' : In c url).
  { unfold slice_to in Hc. destruct (0 <=? L); eapply in_firstn_in; exact Hc. }
  pose proof (proj1 (List.Forall_forall _ _) Hpos c Hc') as Hc0.
  cbv beta in Hc0. unfold VOCAB_SIZE. lia. }
destruct (_ <? L); [|exact Hseq].
apply Forall_app. split; [exact Hseq|].
apply List.Forall_forall. intros id Hin. unfold times in Hin.
apply repeat_spec in Hin. subst id. unfold VOCAB_SIZE. lia.
Qed.

(** Decoded code points are never negative. *)
Lemma code_points_nonneg (bytes : list N) : Forall (fun z => 0 <= z) (code_points bytes).
Proof.
remember (length bytes) as n eqn:Hn. revert bytes Hn.
induction n as [n IH] using lt_wf_ind. intros bytes Hn.
assert (Hrec : forall r, (length r < n)%nat -> Forall (fun z => 0 <= z) (code_points r)).
{ intros r Hr. exact (IH _ Hr r eq_refl). }
unfold cont in *.
destruct bytes as [|b0 r0]; simpl; [constructor|].
destruct (b0 <? 192)%N.
{ constructor; [lia | apply Hrec; simpl in Hn; lia]. }
destruct r0 as [|b1 r1]; [repeat constructor; lia|].
destruct (b0 <? 224)%N.
{ constructor; [unfold cont; lia | apply Hrec; simpl in Hn; lia]. }
destruct r1 as [|b2 r2]; [repeat constructor; lia|].
destruct (b0 <? 240)%N.
{ constructor; [unfold cont; lia | apply Hrec; simpl in Hn; lia]. }
destruct r2 as [|b3 r3]; [repeat constructor; lia|].
constructor; [unfold cont; lia | apply Hrec; simpl in Hn; lia].
Qed.

Lemma chars_nonneg (s : string) : Forall (fun c => 0 <= ord c) (chars s).
Proof.
unfold chars. apply List.Forall_forall. intros c Hin.
apply in_map_iff in Hin as (z & <- & Hz). simpl.
exact (proj1 (List.Forall_forall _ _) (code_points_nonneg _) z Hz).
Qed.

(** X2. Whatever the URL texts, the rows [preprocess_urls] hands to the
    character CNN fit it: every row has the length of the model's input
    layer and every id is a valid index of its embedding layer
    (0 <= id < 128). *)
Theorem url_rows_fit_the_cnn (texts : list string) :
  Shapes.fits UrlModel.build_character_cnn_model
              (preprocess_urls_default (map chars texts)).
Proof.
unfold Shapes.fits. simpl.
exists VOCAB_SIZE, MAX_URL_LENGTH. split; [reflexivity|]. split; [reflexivity|].
unfold preprocess_urls_default, preprocess_urls.
apply List.Forall_forall. intros row Hin.
apply in_map_iff in Hin as (url & <- & Hurl).
apply in_map_iff in Hurl as (s & <- & _).
split.
- apply preprocess_url_length. unfold MAX_URL_LENGTH. lia.
- apply preprocess_url_ids. apply chars_nonneg.
Qed.

(** X3. On URLs of at most 200 characters, all of them ASCII and none NUL,
    the encoding loses nothing: two such URLs with the same row are the
    same URL. *)
Theorem preprocess_url_injective_on_short_ascii (u v : list char) :
  (length u <= 200)%nat -> (length v <= 200)%nat ->
  Forall (fun c => 1 <= ord c <= 127) u ->
  Forall (fun c => 1 <= ord c <= 127) v ->
  preprocess_url u MAX_URL_LENGTH = preprocess_url v MAX_URL_LENGTH ->
  u = v.
Proof.
intros Hu Hv Au Av Heq.
apply nth_error_ext. intros i.
destruct (Nat.lt_ge_cases i 200) as [Hi|Hi].
- assert (Hn : nth i (preprocess_url u MAX_URL_LENGTH) 0
               = nth i (preprocess_url v MAX_URL_LENGTH) 0) by (rewrite Heq; reflexivity).
  rewrite !preprocess_url_nth in Hn by (unfold MAX_URL_LENGTH; lia).
  destruct (nth_error u i) as [c|] eqn:Ec; destruct (nth_error v i) as [d|] eqn:Ed;
    try reflexivity.
  + apply nth_error_In in Ec, Ed.
    pose proof (proj1 (List.Forall_forall _ _) Au c Ec) as Hc.
    pose proof (proj1 (List.Forall_forall _ _) Av d Ed) as Hd.
    destruct c as [a], d as [b]. simpl in *. f_equal. f_equal. lia.
  + apply nth_error_In in Ec.
    pose proof (proj1 (List.Forall_forall _ _) Au c Ec) as Hc.
    simpl in Hc. lia.
  + apply nth_error_In in Ed.
    pose proof (proj1 (List.Forall_forall _ _) Av d Ed) as Hd.
    simpl in Hd. lia.
- replace (nth_error u i) with (@None char) by (symmetry; apply nth_error_None; lia).
  symmetry. apply nth_error_None. lia.
Qed.

Lemma preprocess_url_injective_on_short_ascii_witness :
  [Char 104; Char 105] = [Char 104; Char 105].
Proof.
apply preprocess_url_injective_on_short_ascii.
- simpl. lia.
- simpl. lia.
- repeat (constructor; [simpl; lia|]). constructor.
- repeat (constructor; [simpl; lia|]). constructor.
- reflexivity.
Defined.

End CharEncoderMore.


(** ** Further properties of the loaders *)

Section LoaderMore.
Import Py Pd Loader Training.

(** X4. The column scan keeps the last match: the text column it returns
    is the one column whose lowered name satisfies the text test and after
    which no column does, and likewise for the label column. *)
Theorem last_matching_column_wins (is_text is_label : string -> bool)
        (cols : list string) (c : string) :
  (fst (find_columns is_text is_label cols) = Some c <->
   exists pre post,
     cols = pre ++ c :: post /\ is_text (lower c) = true /\
     Forall (fun d => is_text (lower d) = false) post) /\
  (snd (find_columns is_text is_label cols) = Some c <->
   exists pre post,
     cols = pre ++ c :: post /\ is_label (lower c) = true /\
     Forall (fun d => is_label (lower d) = false) post).
Proof.
split.
- split.
  + induction cols as [|col cols IH] using rev_ind; [discriminate|].
    rewrite find_columns_snoc. simpl. destruct (is_text (lower col)) eqn:E.
    * intros H. injection H as <-. exists cols, []. repeat split; auto.
    * intros H. destruct (IH H) as (pre & post & -> & Hc & Hpost).
      exists pre, (post ++ [col]). rewrite <- app_assoc. repeat split; auto.
      apply Forall_app. split; [exact Hpost | constructor; [exact E | constructor]].
  + intros (pre & post & -> & Hc & Hpost). revert Hpost.
    induction post as [|d post IH] using rev_ind; intros Hpost.
    * rewrite find_columns_snoc. simpl. rewrite Hc. reflexivity.
    * apply Forall_app in Hpost as [Hpost Hd]. inversion Hd as [|? ? Hd' _]; subst.
      change (pre ++ c :: post ++ [d]) with (pre ++ (c :: post) ++ [d]).
      rewrite app_assoc, find_columns_snoc. simpl. rewrite Hd'. exact (IH Hpost).
- split.
  + induction cols as [|col cols IH] using rev_ind; [discriminate|].
    rewrite find_columns_snoc. simpl. destruct (is_label (lower col)) eqn:E.
    * intros H. injection H as <-. exists cols, []. repeat split; auto.
    * intros H. destruct (IH H) as (pre & post & -> & Hc & Hpost).
      exists pre, (post ++ [col]). rewrite <- app_assoc. repeat split; auto.
      apply Forall_app. split; [exact Hpost | constructor; [exact E | constructor]].
  + intros (pre & post & -> & Hc & Hpost). revert Hpost.
    induction post as [|d post IH] using rev_ind; intros Hpost.
    * rewrite find_columns_snoc. simpl. rewrite Hc. reflexivity.
    * apply Forall_app in Hpost as [Hpost Hd]. inversion Hd as [|? ? Hd' _]; subst.
      change (pre ++ c :: post ++ [d]) with (pre ++ (c :: post) ++ [d]).
      rewrite app_assoc, find_columns_snoc. simpl. rewrite Hd'. exact (IH Hpost).
Qed.

Lemma select_map {A B} (f : A -> B) (mask : list bool) (v : list A) :
  select mask (map f v) = map f (select mask v).
Proof.
revert v. induction mask as [|b mask IH]; intros [|x v]; simpl; try reflexivity.
destruct b; simpl; rewrite IH; reflexivity.
Qed.

Lemma notna_select_rows (mask : list bool) (s : Series) :
  notna (select_rows mask s) = select mask (notna s).
Proof. destruct s; simpl; rewrite select_map; reflexivity. Qed.

Lemma select_and_masks_l (a b : list bool) :
  Forall (fun x => x = true) (select (and_masks a b) a).
Proof.
revert b. induction a as [|x a IH]; intros [|y b]; simpl; try constructor.
destruct x, y; simpl; try apply IH. constructor; [reflexivity | apply IH].
Qed.

(** The text cells kept by [dropna] are all present. *)
Lemma kept_texts_present df t l st sl :
  get df t = Some st -> get df l = Some sl ->
  Forall (fun x => x = true) (notna (select_rows (keep_mask df t l) st)).
Proof.
intros Ht Hl. rewrite notna_select_rows. unfold keep_mask. rewrite Ht, Hl.
apply select_and_masks_l.
Qed.

Lemma notna_int64 (v : list Z) : Forall (fun x => x = true) (notna (Int64 v)).
Proof. simpl. induction v; simpl; constructor; auto. Qed.

(** What [cast_and_return] gives on a table whose two columns have [n]
    rows: aligned texts and labels. *)
Lemma cast_and_return_aligned df t l texts labels sl n :
  get df l = Some sl -> size sl = n ->
  (t <> l -> exists st, get df t = Some st /\ size st = n /\
                         Forall (fun x => x = true) (notna st)) ->
  cast_and_return df t l = Ok (texts, labels) ->
  size texts = length labels /\ Forall (fun x => x = true) (notna texts).
Proof.
intros Hl Hn Ht H.
apply cast_and_return_ok in H as (s & Hs & Ha & [[-> ->]|[Hne Htx]]).
- split; [reflexivity | apply notna_int64].
- rewrite Hl in Hs. injection Hs as <-.
  destruct (Ht Hne) as (st & Hst & Hsz & Hna).
  rewrite Hst in Htx. injection Htx as <-.
  rewrite (astype_int_length _ _ Ha). split; [congruence | exact Hna].
Qed.

Lemma email_aligned df texts labels :
  EmailLoader.load_email_dataset df = Ok (texts, labels) ->
  size texts = length labels /\ Forall (fun x => x = true) (notna texts).
Proof.
intros H.
destruct (find_columns EmailLoader.is_text_name EmailLoader.is_label_name (columns df))
  as [[t|] [l|]] eqn:E;
  try (unfold EmailLoader.load_email_dataset in H; rewrite E in H;
       simpl in H; try rewrite orb_true_r in H; discriminate H).
rewrite (email_load_found _ _ _ E) in H.
assert (Ht : In t (columns df)) by (eapply find_text_some; rewrite E; reflexivity).
assert (Hl : In l (columns df)) by (eapply find_label_some; rewrite E; reflexivity).
destruct (in_get_some _ _ Ht) as [st Hst]. destruct (in_get_some _ _ Hl) as [sl Hsl].
destruct (dropna_sizes df t l st sl Hst Hsl) as [H1 H2].
eapply cast_and_return_aligned; [| exact H2 | | exact H].
- rewrite get_dropna, Hsl. reflexivity.
- intros _. eexists. split; [rewrite get_dropna, Hst; reflexivity|].
  split; [exact H1 | eapply kept_texts_present; eassumption].
Qed.

Lemma sms_aligned df texts labels :
  SmsLoader.load_sms_dataset df = Ok (texts, labels) ->
  size texts = length labels /\ Forall (fun x => x = true) (notna texts).
Proof.
intros H.
destruct (find_columns SmsLoader.is_text_name SmsLoader.is_label_name (columns df))
  as [[t|] [l|]] eqn:E;
  try (unfold SmsLoader.load_sms_dataset in H; rewrite E in H;
       simpl in H; try rewrite orb_true_r in H; discriminate H).
rewrite (sms_load_found _ _ _ E) in H.
assert (Ht : In t (columns df)) by (eapply find_text_some; rewrite E; reflexivity).
assert (Hl : In l (columns df)) by (eapply find_label_some; rewrite E; reflexivity).
destruct (in_get_some _ _ Ht) as [st Hst]. destruct (in_get_some _ _ Hl) as [sl Hsl].
destruct (dropna_sizes df t l st sl Hst Hsl) as [H1 H2].
assert (Hl' : get (dropna df t l) l = Some (select_rows (keep_mask df t l) sl))
  by (rewrite get_dropna, Hsl; reflexivity).
destruct (map_labels_get _ _ _ Hl') as (sl' & Hsl' & Hsize).
eapply cast_and_return_aligned; [exact Hsl' | rewrite Hsize; exact H2 | | exact H].
intros Hne. eexists. split.
- rewrite map_labels_get_ne by exact Hne. rewrite get_dropna, Hst. reflexivity.
- split; [exact H1 | eapply kept_texts_present; eassumption].
Qed.

Lemma url_aligned df texts labels :
  UrlLoader.load_url_dataset df = Ok (texts, labels) ->
  size texts = length labels /\ Forall (fun x => x = true) (notna texts).
Proof.
intros H.
destruct (url_load_ok df texts labels H) as (_ & _ & u & l & Hu & Hl & -> & Ha).
destruct (dropna_sizes df "url" "label" u l Hu Hl) as [H1 H2].
split.
- rewrite (astype_int_length _ _ Ha). congruence.
- eapply kept_texts_present; eassumption.
Qed.

Lemma loaded_aligned (m : modality) df texts labels :
  load m df = Ok (texts, labels) ->
  size texts = length labels /\ Forall (fun x => x = true) (notna texts).
Proof.
destruct m; simpl; [apply email_aligned | apply sms_aligned | apply url_aligned].
Qed.

(** X5. Whatever the modality, when its loader returns, texts and labels
    are aligned (as many texts as labels) and no returned text is a
    missing value. *)
Theorem loaded_rows_are_aligned_and_present (m : modality) (df : DataFrame)
        (texts : Series) (labels : list Z) :
  load m df = Ok (texts, labels) ->
  size texts = length labels /\ Forall (fun x => x = true) (notna texts).
Proof. apply loaded_aligned. Qed.

Lemma loaded_rows_are_aligned_and_present_witness :
  size (Object [Some "hello"; Some "win cash now"]) = length [0; 1] /\
  Forall (fun x => x = true) (notna (Object [Some "hello"; Some "win cash now"])).
Proof.
apply (loaded_rows_are_aligned_and_present ShortMessage Samples.labelled_text_table).
vm_compute. reflexivity.
Defined.

End LoaderMore.

Section LoaderRoles.
Import Py Pd Loader Training.

(** X6. When one column is both the text and the label column the scan
    settles on, the e-mail and the SMS loader return the integer labels in
    place of the texts. *)
Theorem one_column_in_both_roles (df : DataFrame) (c : string)
        (texts : Series) (labels : list Z) :
  (find_columns EmailLoader.is_text_name EmailLoader.is_label_name (columns df)
     = (Some c, Some c) ->
   EmailLoader.load_email_dataset df = Ok (texts, labels) ->
   texts = Int64 labels) /\
  (find_columns SmsLoader.is_text_name SmsLoader.is_label_name (columns df)
     = (Some c, Some c) ->
   SmsLoader.load_sms_dataset df = Ok (texts, labels) ->
   texts = Int64 labels).
Proof.
split; intros E H.
- rewrite (email_load_found _ _ _ E) in H.
  apply cast_and_return_ok in H as (s & _ & _ & [[_ ->]|[Hne _]]);
    [reflexivity | contradiction].
- rewrite (sms_load_found _ _ _ E) in H.
  apply cast_and_return_ok in H as (s & _ & _ & [[_ ->]|[Hne _]]);
    [reflexivity | contradiction].
Qed.

Lemma one_column_in_both_roles_witness :
  EmailLoader.load_email_dataset MoreSamples.email_label_table
    = Ok (Int64 [0; 1; 0], [0; 1; 0]) /\
  Int64 [0; 1; 0] = Int64 [0; 1; 0].
Proof.
assert (H : EmailLoader.load_email_dataset MoreSamples.email_label_table
            = Ok (Int64 [0; 1; 0], [0; 1; 0])) by (vm_compute; reflexivity).
split; [exact H|].
apply (proj1 (one_column_in_both_roles MoreSamples.email_label_table "email_label"
                (Int64 [0; 1; 0]) [0; 1; 0])).
- vm_compute. reflexivity.
- exact H.
Defined.

Lemma count_eq_cons (k z : Z) (l : list Z) :
  count_eq k (z :: l) = (if Z.eqb z k then 1 else 0) + count_eq k l.
Proof.
unfold count_eq. simpl. destruct (Z.eqb z k); simpl length; lia.
Qed.

Lemma count_eq_nonneg (k : Z) (l : list Z) : 0 <= count_eq k l.
Proof. unfold count_eq. lia. Qed.

(** The two class counts cover the labels exactly when all are 0 or 1. *)
Lemma class_counts_cover (labels : list Z) :
  count_eq 0 labels + count_eq 1 labels <= len labels /\
  (count_eq 0 labels + count_eq 1 labels = len labels <->
   Forall Metrics.binary labels).
Proof.
induction labels as [|z labels [IHle IHiff]].
- split; [reflexivity|]. split; [constructor | reflexivity].
- rewrite !count_eq_cons. unfold len in *. simpl length. rewrite Nat2Z.inj_succ.
  destruct (Z.eqb_spec z 0) as [->|H0]; [|destruct (Z.eqb_spec z 1) as [->|H1]].
  + simpl Z.eqb. cbv iota. split; [lia|]. split.
    * intros H. constructor; [left; reflexivity | apply IHiff; lia].
    * intros H. inversion H as [|? ? _ Hrest]; subst. apply IHiff in Hrest. lia.
  + simpl Z.eqb. cbv iota. split; [lia|]. split.
    * intros H. constructor; [right; reflexivity | apply IHiff; lia].
    * intros H. inversion H as [|? ? _ Hrest]; subst. apply IHiff in Hrest. lia.
  + split; [lia|]. split.
    * intros H. lia.
    * intros H. inversion H as [|? ? [Hb|Hb] _]; subst; contradiction.
Qed.

Variable B : backend.

(** The [dataset_info] record of any run that returned. *)
Lemma run_dataset_info (m : modality) df md :
  train B m df = Ok md ->
  exists texts labels n_train n_test,
    load m df = Ok (texts, labels) /\
    Json.field "dataset_info" md
      = Some (dataset_info_of m (size texts) n_train n_test labels).
Proof.
destruct m; simpl; [apply email_metadata | apply sms_metadata | apply url_metadata].
Qed.

(** X7. Labels are not checked to be 0 or 1: in the metadata of a
    successful run the two class counts add up to at most total_samples,
    and to exactly total_samples only when every loaded label is 0 or
    1. *)
Theorem class_counts_within_total (m : modality) (df : DataFrame) (md : Json.json) :
  train B m df = Ok md ->
  exists texts labels info total c0 c1,
    load m df = Ok (texts, labels) /\
    Json.field "dataset_info" md = Some info /\
    Json.field "total_samples" info = Some (Json.JInt total) /\
    Json.field (class_0_key m) info = Some (Json.JInt c0) /\
    Json.field "phishing_count" info = Some (Json.JInt c1) /\
    c0 + c1 <= total /\
    (c0 + c1 = total <-> Forall Metrics.binary labels).
Proof.
intros H. apply run_dataset_info in H as (texts & labels & n_train & n_test & Hload & Hinfo).
destruct (loaded_aligned m df texts labels Hload) as [Hsize _].
exists texts, labels, (dataset_info_of m (size texts) n_train n_test labels),
  (len labels), (count_eq 0 labels), (count_eq 1 labels).
split; [exact Hload|]. split; [exact Hinfo|].
split; [simpl; unfold len; rewrite Hsize; reflexivity|].
split; [destruct m; reflexivity|].
split; [destruct m; reflexivity|].
apply class_counts_cover.
Qed.

End LoaderRoles.

Lemma class_counts_within_total_witness :
  exists texts labels info total c0 c1,
    Training.load Training.ShortMessage Samples.sms_run_table = Py.Ok (texts, labels) /\
    Json.field "dataset_info" Samples.sms_run_metadata = Some info /\
    Json.field "total_samples" info = Some (Json.JInt total) /\
    Json.field (Training.class_0_key Training.ShortMessage) info = Some (Json.JInt c0) /\
    Json.field "phishing_count" info = Some (Json.JInt c1) /\
    c0 + c1 <= total /\
    (c0 + c1 = total <-> Forall Metrics.binary labels).
Proof.
apply (class_counts_within_total Samples.demo_backend Training.ShortMessage
         Samples.sms_run_table Samples.sms_run_metadata).
vm_compute. reflexivity.
Defined.


(** ** Further properties of the evaluation *)

Section ReportMore.
Import Py Metrics Training.

(** The labels found are sorted, without repetition, and are exactly the
    values that occur. *)
Lemma unique_labels_spec (y_true y_pred : list Z) :
  Sorted Z.le (unique_labels y_true y_pred) /\
  NoDup (unique_labels y_true y_pred) /\
  (forall x, In x (unique_labels y_true y_pred) <-> In x (y_true ++ y_pred)).
Proof.
unfold unique_labels. split; [|split].
- apply Sorted_merge_sort; apply _.
- rewrite merge_sort_Permutation. apply NoDup_remove_dups.
- intros x. rewrite <- !list_elem_of_In, merge_sort_Permutation.
  apply elem_of_remove_dups.
Qed.

(** A sorted list without repetition is determined by its elements. *)
Lemma unique_labels_eq (y_true y_pred us : list Z) :
  Sorted Z.le us -> NoDup us ->
  (forall x, In x us <-> In x (y_true ++ y_pred)) ->
  unique_labels y_true y_pred = us.
Proof.
intros Hs Hn He. destruct (unique_labels_spec y_true y_pred) as (Hs' & Hn' & He').
apply (Sorted_unique Z.le); try assumption.
apply NoDup_Permutation; try assumption.
intros x. rewrite !list_elem_of_In, He', He. reflexivity.
Qed.

Lemma unique_labels_single (c : Z) (y_true y_pred : list Z) :
  y_true <> [] -> Forall (eq c) y_true -> Forall (eq c) y_pred ->
  unique_labels y_true y_pred = [c].
Proof.
intros Hne Ht Hp. apply unique_labels_eq.
- repeat constructor.
- apply NoDup_singleton.
- intros x. simpl. split.
  + intros [<-|[]]. apply in_or_app. left.
    destruct y_true as [|y ys]; [contradiction|].
    inversion Ht; subst. left. reflexivity.
  + intros Hx. left. apply in_app_or in Hx as [Hx|Hx].
    * exact (proj1 (List.Forall_forall _ _) Ht x Hx).
    * exact (proj1 (List.Forall_forall _ _) Hp x Hx).
Qed.

Lemma filter_all {A} (f : A -> bool) (xs : list A) :
  (forall x, In x xs -> f x = true) -> List.filter f xs = xs.
Proof.
induction xs as [|x xs IH]; intros H; simpl; [reflexivity|].
rewrite (H x (or_introl eq_refl)), IH; [reflexivity|].
intros y Hy. apply H. right. exact Hy.
Qed.

(** X9. When every test label and every prediction is one and the same
    class, the evaluation does not complete: the matrix has a single
    cell and reading the cell of row 0 and column 1 raises IndexError. *)
Theorem report_raises_on_a_single_class (c : Z) (y_test y_pred : list Z) :
  y_test <> [] -> length y_test = length y_pred ->
  Forall (eq c) y_test -> Forall (eq c) y_pred ->
  confusion_matrix y_test y_pred = Ok [[len y_test]] /\
  report y_test y_pred = Raise (IndexError "index out of bounds").
Proof.
intros Hne Hlen Ht Hp.
assert (Hcm : confusion_matrix y_test y_pred = Ok [[len y_test]]).
{ unfold confusion_matrix. rewrite Hlen, Nat.eqb_refl. simpl negb. cbv iota.
  rewrite (unique_labels_single c y_test y_pred Hne Ht Hp).
  destruct y_test as [|y ys]; [contradiction|]. simpl map. do 3 f_equal.
  unfold count_pairs, len. f_equal.
  replace (length (y :: ys)) with (length (combine (y :: ys) y_pred))
    by (rewrite length_combine; lia).
  f_equal. apply filter_all. intros [a b] Hin.
  pose proof (in_combine_l _ _ _ _ Hin) as Ha.
  pose proof (in_combine_r _ _ _ _ Hin) as Hb.
  rewrite <- (proj1 (List.Forall_forall _ _) Ht a Ha).
  rewrite <- (proj1 (List.Forall_forall _ _) Hp b Hb).
  simpl. rewrite Z.eqb_refl. reflexivity. }
split; [exact Hcm|].
unfold report, precision_recall_fscore_support.
rewrite Hlen, Nat.eqb_refl. simpl negb. cbv iota.
rewrite (unique_labels_single c y_test y_pred Hne Ht Hp).
simpl length. simpl Nat.ltb. cbv iota. simpl Nat.leb. rewrite andb_false_r. cbv iota.
simpl mbind. rewrite Hcm. reflexivity.
Qed.

Lemma report_raises_on_a_single_class_witness :
  confusion_matrix [0; 0; 0] [0; 0; 0] = Ok [[len [0; 0; 0]]] /\
  report [0; 0; 0] [0; 0; 0] = Raise (IndexError "index out of bounds").
Proof.
apply (report_raises_on_a_single_class 0).
- discriminate.
- reflexivity.
- repeat constructor.
- repeat constructor.
Defined.

End ReportMore.

Section ReportCompletes.
Import Py Metrics Training.

Lemma confusion_matrix_ok (y_true y_pred : list Z) :
  length y_true = length y_pred -> y_true <> [] ->
  confusion_matrix y_true y_pred =
    Ok (map (fun a => map (fun b => count_pairs a b (combine y_true y_pred))
                          (unique_labels y_true y_pred))
            (unique_labels y_true y_pred)).
Proof.
intros Hlen Hne. unfold confusion_matrix. rewrite Hlen, Nat.eqb_refl.
destruct y_true; [contradiction | reflexivity].
Qed.

Lemma at2_square {A} (f : A -> A -> Z) (us : list A) (i j : nat) :
  is_ok (at2 (map (fun a => map (fun b => f a b) us) us) i j) = true <->
  (i < length us)%nat /\ (j < length us)%nat.
Proof.
unfold at2. rewrite nth_error_map.
destruct (nth_error us i) as [a|] eqn:Ei; simpl.
- rewrite nth_error_map. destruct (nth_error us j) as [b|] eqn:Ej; simpl.
  + split; [|reflexivity]. intros _. split; apply nth_error_Some; congruence.
  + apply nth_error_None in Ej. split; [discriminate | lia].
- apply nth_error_None in Ei. split; [discriminate | lia].
Qed.

(** The four printed cells can be read exactly when two labels or more
    were found. *)
Lemma cells_readable {A B} (f : A -> A -> Z) (us : list A) (x : B) :
  let cm := map (fun a => map (fun b => f a b) us) us in
  is_ok (_ ← at2 cm 0 0; _ ← at2 cm 0 1; _ ← at2 cm 1 0; _ ← at2 cm 1 1; Ok x) = true
  <-> (2 <= length us)%nat.
Proof.
intros cm. pose proof (at2_square f us) as Hat. fold cm in Hat.
pose proof (Hat 0%nat 0%nat) as H00. pose proof (Hat 0%nat 1%nat) as H01.
pose proof (Hat 1%nat 0%nat) as H10. pose proof (Hat 1%nat 1%nat) as H11.
destruct (at2 cm 0 0); simpl in *; [|split; [discriminate | intros; apply H00; lia]].
destruct (at2 cm 0 1); simpl in *; [|split; [discriminate | intros; apply H01; lia]].
destruct (at2 cm 1 0); simpl in *; [|split; [discriminate | intros; apply H10; lia]].
destruct (at2 cm 1 1); simpl in *; [|split; [discriminate | intros; apply H11; lia]].
split; [|reflexivity]. intros _. destruct (proj1 H11 eq_refl). lia.
Qed.

(** X10. The evaluation of a test partition completes exactly when it is
    not empty, there are as many predictions as labels, and the labels
    that occur among actual and predicted values are exactly two, one of
    them class 1. *)
Theorem report_completes_iff (y_test y_pred : list Z) :
  is_ok (report y_test y_pred) = true <->
  length y_test = length y_pred /\ y_test <> [] /\
  length (unique_labels y_test y_pred) = 2%nat /\
  In 1 (unique_labels y_test y_pred).
Proof.
unfold report, precision_recall_fscore_support.
destruct (Nat.eqb_spec (length y_test) (length y_pred)) as [Hlen|Hlen]; simpl negb;
  cbv iota; [|simpl; split; [discriminate | tauto]].
destruct y_test as [|y ys] eqn:Ey.
{ split; [|intros (_ & Hne & _); contradiction].
  destruct y_pred; [|discriminate Hlen]. intros H. vm_compute in H. discriminate H. }
rewrite <- Ey in *.
assert (Hne : y_test <> []) by (rewrite Ey; discriminate).
set (us := unique_labels y_test y_pred).
assert (Hex : existsb (Z.eqb 1) us = true <-> In 1 us).
{ rewrite existsb_exists. split.
  - intros (x & Hx & E). apply Z.eqb_eq in E. subst. exact Hx.
  - intros H. exists 1. split; [exact H | reflexivity]. }
destruct (Nat.ltb_spec 2 (length us)) as [H2|H2].
{ simpl. split; [discriminate | lia]. }
destruct (Nat.leb_spec 2 (length us)) as [H2'|H2'];
  destruct (existsb (Z.eqb 1) us) eqn:E1; simpl negb; simpl andb; cbv iota.
- simpl mbind. rewrite (confusion_matrix_ok _ _ Hlen Hne). simpl mbind. fold us.
  rewrite (cells_readable (fun a b => count_pairs a b (combine y_test y_pred)) us).
  split; [|tauto]. intros _. repeat split; try assumption; [lia | apply Hex; reflexivity].
- simpl. split; [discriminate|]. intros (_ & _ & _ & H1).
  apply Hex in H1. discriminate H1.
- simpl mbind. rewrite (confusion_matrix_ok _ _ Hlen Hne). simpl mbind. fold us.
  rewrite (cells_readable (fun a b => count_pairs a b (combine y_test y_pred)) us).
  split; [lia | intros (_ & _ & Hl & _); lia].
- simpl mbind. rewrite (confusion_matrix_ok _ _ Hlen Hne). simpl mbind. fold us.
  rewrite (cells_readable (fun a b => count_pairs a b (combine y_test y_pred)) us).
  split; [lia | intros (_ & _ & Hl & _); lia].
Qed.

End ReportCompletes.

Section ScoresMore.
Import Py Metrics.

(** Labels that are all 0 or 1 leave four possibilities for what is found. *)
Lemma binary_labels_cases (y_true y_pred : list Z) :
  Forall binary y_true -> Forall binary y_pred ->
  unique_labels y_true y_pred = [] \/ unique_labels y_true y_pred = [0] \/
  unique_labels y_true y_pred = [1] \/ unique_labels y_true y_pred = [0; 1].
Proof.
intros Ht Hp.
assert (Hb : forall x, In x (y_true ++ y_pred) -> x = 0 \/ x = 1).
{ intros x Hx. apply in_app_or in Hx as [Hx|Hx].
  - exact (proj1 (List.Forall_forall _ _) Ht x Hx).
  - exact (proj1 (List.Forall_forall _ _) Hp x Hx). }
destruct (in_dec Z.eq_dec 0 (y_true ++ y_pred)) as [H0|H0];
  destruct (in_dec Z.eq_dec 1 (y_true ++ y_pred)) as [H1|H1].
- right. right. right. apply unique_labels_eq.
  + repeat constructor. lia.
  + apply NoDup_cons. split; [|apply NoDup_singleton].
    intros H. apply list_elem_of_singleton in H. discriminate H.
  + intros x. simpl. split; [intros [<-|[<-|[]]]; assumption|].
    intros Hx. destruct (Hb x Hx); auto.
- right. left. apply unique_labels_eq.
  + repeat constructor.
  + apply NoDup_singleton.
  + intros x. simpl. split; [intros [<-|[]]; assumption|].
    intros Hx. destruct (Hb x Hx) as [->| ->]; [auto | contradiction].
- right. right. left. apply unique_labels_eq.
  + repeat constructor.
  + apply NoDup_singleton.
  + intros x. simpl. split; [intros [<-|[]]; assumption|].
    intros Hx. destruct (Hb x Hx) as [->| ->]; [contradiction | auto].
- left. apply unique_labels_eq.
  + constructor.
  + constructor.
  + intros x. simpl. split; [contradiction|].
    intros Hx. destruct (Hb x Hx) as [->| ->]; contradiction.
Qed.

(** The predicted-positive column counts the positive predictions. *)
Lemma count_pairs_positive_column (y_true y_pred : list Z) :
  length y_true = length y_pred -> Forall binary y_true ->
  count_pairs 0 1 (combine y_true y_pred) + count_pairs 1 1 (combine y_true y_pred)
  = count_label 1 y_pred.
Proof.
unfold count_pairs, count_label, len.
revert y_pred. induction y_true as [|a y_true IH]; intros [|b y_pred] Hlen Ht;
  try discriminate; [reflexivity|].
inversion Ht as [|? ? Ha Ht']; subst.
specialize (IH y_pred ltac:(simpl in Hlen; lia) Ht').
simpl combine. simpl List.filter. simpl fst. simpl snd.
destruct (Z.eqb b 1); destruct Ha as [-> | ->]; simpl; lia.
Qed.

Lemma ratio_bounds (num den : Z) :
  0 <= num <= den -> (0 <= ratio num den)%Q /\ (ratio num den <= 1)%Q.
Proof.
intros H. unfold ratio. destruct (Z.eqb_spec den 0) as [->|Hne].
- split; unfold Qle; simpl; lia.
- split; unfold Qle; simpl; rewrite ?Z2Pos.id by lia; lia.
Qed.

Lemma count_pairs_nonneg (a b : Z) (pairs : list (Z * Z)) : 0 <= count_pairs a b pairs.
Proof. unfold count_pairs, len. lia. Qed.

(** X11. For binary test labels and predictions the scores never raise
    and are those of the confusion matrix: precision TP/(TP+FP), recall
    TP/(TP+FN), F1 2TP/(2TP+FP+FN), each taken as 0 when its denominator
    is 0, and each lies between 0 and 1. *)
Theorem binary_scores_from_cells (y_test y_pred : list Z) :
  length y_test = length y_pred ->
  Forall binary y_test -> Forall binary y_pred ->
  let cell a b := count_pairs a b (combine y_test y_pred) in
  exists precision recall f1,
    precision_recall_fscore_support y_test y_pred = Ok (precision, recall, f1) /\
    precision = ratio (cell 1 1) (cell 0 1 + cell 1 1) /\
    recall = ratio (cell 1 1) (cell 1 0 + cell 1 1) /\
    f1 = ratio (2 * cell 1 1) ((cell 1 0 + cell 1 1) + (cell 0 1 + cell 1 1)) /\
    (0 <= precision <= 1)%Q /\ (0 <= recall <= 1)%Q /\ (0 <= f1 <= 1)%Q.
Proof.
intros Hlen Ht Hp cell.
pose proof (count_pairs_positive_column y_test y_pred Hlen Ht) as Hcol.
pose proof (count_pairs_positive_row y_test y_pred Hlen Hp) as Hrow.
fold (cell 0 1) (cell 1 1) in Hcol. fold (cell 1 0) (cell 1 1) in Hrow.
pose proof (count_pairs_nonneg 1 1 (combine y_test y_pred)) as Htp.
pose proof (count_pairs_nonneg 0 1 (combine y_test y_pred)) as Hfp.
pose proof (count_pairs_nonneg 1 0 (combine y_test y_pred)) as Hfn.
fold (cell 1 1) in Htp. fold (cell 0 1) in Hfp. fold (cell 1 0) in Hfn.
eexists _, _, _. split; [|split; [reflexivity | split; [reflexivity | split; [reflexivity|]]]].
- unfold precision_recall_fscore_support.
  rewrite Hlen, Nat.eqb_refl. simpl negb. cbv iota.
  rewrite <- Hcol, <- Hrow. fold (cell 1 1).
  destruct (binary_labels_cases y_test y_pred Ht Hp) as [E|[E|[E|E]]];
    rewrite E; reflexivity.
- repeat split; apply ratio_bounds; lia.
Qed.

Lemma binary_scores_from_cells_witness :
  exists precision recall f1,
    precision_recall_fscore_support [0; 1; 1; 0] [0; 0; 1; 1]
      = Ok (precision, recall, f1) /\
    precision = ratio 1 (1 + 1) /\
    recall = ratio 1 (1 + 1) /\
    f1 = ratio (2 * 1) ((1 + 1) + (1 + 1)) /\
    (0 <= precision <= 1)%Q /\ (0 <= recall <= 1)%Q /\ (0 <= f1 <= 1)%Q.
Proof.
apply (binary_scores_from_cells [0; 1; 1; 0] [0; 0; 1; 1]).
- reflexivity.
- repeat (constructor; [unfold binary; lia|]). constructor.
- repeat (constructor; [unfold binary; lia|]). constructor.
Defined.

End ScoresMore.


(** ** Further properties of the runs *)

Section PartitionSizes.
Import Py Pd Json Training RunFacts.

Variable B : backend.

Ltac peel H :=
  match type of H with
  | (_ ≫= _) = Ok _ =>
      let x := fresh "x" in
      let Hx := fresh "Hx" in
      apply bind_ok in H as (x & Hx & H)
  end.

Lemma take_length {A} (idx : list nat) (xs : list A) :
  Forall (fun i => (i < length xs)%nat) idx -> length (take idx xs) = length idx.
Proof.
unfold take. induction 1 as [|i idx Hi _ IH]; simpl; [reflexivity|].
destruct (nth_error xs i) eqn:E; simpl.
- f_equal. exact IH.
- apply nth_error_None in E. lia.
Qed.

Lemma take_rows_size (idx : list nat) (s : Series) :
  Forall (fun i => (i < size s)%nat) idx -> size (take_rows idx s) = length idx.
Proof. destruct s; simpl; apply take_length. Qed.

Lemma as_texts_length (s : Series) (ts : list string) :
  as_texts s = Ok ts -> length ts = size s.
Proof.
destruct s; simpl; try discriminate. intros H. apply traverse_length in H. exact H.
Qed.

Lemma url_sizes df md :
  train_url_model B df = Ok md ->
  exists texts labels tr te,
    UrlLoader.load_url_dataset df = Ok (texts, labels) /\
    train_test_split B labels = Ok (tr, te) /\
    sizes_of md UrlString texts labels tr te.
Proof.
intros H. unfold train_url_model in H.
peel H. destruct x as [urls labels]. cbv beta iota in H.
peel H. rename x into url_texts. peel H. destruct x as [tr te]. cbv beta iota zeta in H.
destruct (evaluate B _ _ _) as [[[test_loss test_acc] ?] ?].
peel H. destruct x as [[precision recall] f1]. cbv beta iota in H.
injection H as <-.
exists urls, labels, tr, te. split; [exact Hx|]. split; [exact Hx1|].
eexists _, _. split; [reflexivity|].
assert (Hn : length (Url.preprocess_urls_default (map chars url_texts)) = size urls).
{ unfold Url.preprocess_urls_default, Url.preprocess_urls.
  rewrite !length_map. apply as_texts_length. exact Hx0. }
split; intros Hi; unfold len; f_equal; apply take_length; rewrite Hn; exact Hi.
Qed.

Lemma sms_sizes df md :
  train_sms_model B df = Ok md ->
  exists texts labels tr te,
    SmsLoader.load_sms_dataset df = Ok (texts, labels) /\
    train_test_split B labels = Ok (tr, te) /\
    sizes_of md ShortMessage texts labels tr te.
Proof.
intros H. unfold train_sms_model in H.
peel H. destruct x as [messages labels]. cbv beta iota in H.
peel H. destruct x as [tr te]. cbv beta iota in H.
peel H. peel H. destruct x0 as [X_train vectorize_layer]. cbv beta iota in H.
peel H. cbv beta iota zeta in H.
destruct (evaluate B _ _ _) as [[[test_loss test_acc] ?] ?].
peel H. destruct x1 as [[precision recall] f1]. cbv beta iota in H.
injection H as <-.
exists messages, labels, tr, te. split; [exact Hx|]. split; [exact Hx0|].
eexists _, _. split; [reflexivity|].
split; intros Hi; unfold len; f_equal; apply take_rows_size; exact Hi.
Qed.

Lemma email_sizes df use_simplified md :
  train_email_model B df use_simplified = Ok md ->
  exists texts labels tr te,
    EmailLoader.load_email_dataset df = Ok (texts, labels) /\
    train_test_split B labels = Ok (tr, te) /\
    sizes_of md (Prose use_simplified) texts labels tr te.
Proof.
intros H. unfold train_email_model in H.
peel H. destruct x as [emails labels]. cbv beta iota in H.
peel H. destruct x as [tr te]. cbv beta iota in H.
peel H. peel H. peel H. destruct x1 as [[test_loss test_acc] y_pred].
cbv beta iota in H.
peel H. destruct x1 as [[precision recall] f1]. cbv beta iota in H.
injection H as <-.
exists emails, labels, tr, te. split; [exact Hx|]. split; [exact Hx0|].
eexists _, _. split; [reflexivity|].
split; intros Hi; unfold len; f_equal; apply take_rows_size; exact Hi.
Qed.

Lemma permutation_bounds (tr te : list nat) (n : nat) :
  tr ++ te ≡ₚ seq 0 n ->
  Forall (fun i => (i < n)%nat) tr /\ Forall (fun i => (i < n)%nat) te /\
  (length tr + length te = n)%nat.
Proof.
intros Hp.
assert (Hall : Forall (fun i => (i < n)%nat) (tr ++ te)).
{ rewrite Hp. apply List.Forall_forall. intros i Hi. apply in_seq in Hi. lia. }
apply Forall_app in Hall as [Htr Hte]. split; [exact Htr|]. split; [exact Hte|].
rewrite <- length_app. rewrite Hp. apply length_seq.
Qed.

(** X8. When the splitter returns a partition of the loaded rows, the
    metadata of a successful run records the two partition sizes, and
    they add up to total_samples. *)
Theorem partition_sizes_add_up (m : modality) (df : DataFrame) (md : json)
        (texts : Series) (labels : list Z) (tr te : list nat) :
  train B m df = Ok md ->
  load m df = Ok (texts, labels) ->
  train_test_split B labels = Ok (tr, te) ->
  tr ++ te ≡ₚ seq 0 (length labels) ->
  exists info,
    field "dataset_info" md = Some info /\
    field "training_samples" info = Some (JInt (len tr)) /\
    field "test_samples" info = Some (JInt (len te)) /\
    field "total_samples" info = Some (JInt (len tr + len te)).
Proof.
intros Hrun Hload Hsplit Hperm.
assert (Hs : sizes_of md m texts labels tr te).
{ destruct m as [use_simplified| |]; simpl in Hrun, Hload.
  - apply email_sizes in Hrun as (texts' & labels' & tr' & te' & Hl & Hsp & Hs).
    rewrite Hload in Hl. injection Hl as <- <-.
    rewrite Hsplit in Hsp. injection Hsp as <- <-. exact Hs.
  - apply sms_sizes in Hrun as (texts' & labels' & tr' & te' & Hl & Hsp & Hs).
    rewrite Hload in Hl. injection Hl as <- <-.
    rewrite Hsplit in Hsp. injection Hsp as <- <-. exact Hs.
  - apply url_sizes in Hrun as (texts' & labels' & tr' & te' & Hl & Hsp & Hs).
    rewrite Hload in Hl. injection Hl as <- <-.
    rewrite Hsplit in Hsp. injection Hsp as <- <-. exact Hs. }
destruct Hs as (n_train & n_test & Hinfo & Htr & Hte).
destruct (loaded_aligned m df texts labels Hload) as [Hsize _].
destruct (permutation_bounds tr te _ Hperm) as (Btr & Bte & Hsum).
rewrite <- Hsize in Btr, Bte, Hsum.
rewrite (Htr Btr), (Hte Bte) in Hinfo.
eexists. split; [exact Hinfo|]. repeat split.
simpl. unfold len. do 2 f_equal. lia.
Qed.

End PartitionSizes.

Lemma partition_sizes_add_up_witness :
  exists info,
    Json.field "dataset_info" Samples.sms_run_metadata = Some info /\
    Json.field "training_samples" info = Some (Json.JInt (Py.len (seq 0 6))) /\
    Json.field "test_samples" info = Some (Json.JInt (Py.len (seq 6 2))) /\
    Json.field "total_samples" info
      = Some (Json.JInt (Py.len (seq 0 6) + Py.len (seq 6 2))).
Proof.
apply (partition_sizes_add_up Samples.demo_backend Training.ShortMessage
         Samples.sms_run_table Samples.sms_run_metadata
         (Pd.Object [Some "win cash now"; Some "see you at noon";
                     Some "claim your prize now"; Some "call me later";
                     Some "lunch at noon"; Some "win a free prize";
                     Some "urgent verify now"; Some "are you home"])
         [1; 0; 1; 0; 0; 1; 1; 0]).
- vm_compute. reflexivity.
- vm_compute. reflexivity.
- vm_compute. reflexivity.
- reflexivity.
Defined.


(** ** Further properties of the class weights *)

Section ClassWeightsMore.
Import Pd ClassWeights.

Lemma count_eq_pos_iff (k : Z) (y : list Z) : 0 < count_eq k y <-> In k y.
Proof.
rewrite count_eq_count_occ. rewrite (count_occ_In Z.eq_dec). lia.
Qed.

(** X12. The SMS trainer uses no class weights exactly when class 0 or
    class 1 does not occur among the training labels. *)
Theorem class_weights_none_iff (y_train : list Z) :
  class_weights y_train = None <-> ~ In 0 y_train \/ ~ In 1 y_train.
Proof.
unfold class_weights. rewrite <- !count_eq_pos_iff.
destruct (Z.ltb_spec 0 (count_eq 0 y_train)) as [H0|H0];
  destruct (Z.ltb_spec 0 (count_eq 1 y_train)) as [H1|H1]; simpl.
- split; [discriminate | lia].
- split; [intros _; right; lia | reflexivity].
- split; [intros _; left; lia | reflexivity].
- split; [intros _; left; lia | reflexivity].
Qed.

Lemma weight_order (total a b : Z) :
  0 <= total -> 0 < a -> a <= b ->
  (inject_Z total / inject_Z (2 * b) <= inject_Z total / inject_Z (2 * a))%Q.
Proof.
intros Ht Ha Hab. destruct a as [|a|a]; try lia. destruct b as [|b|b]; try lia.
unfold Qle, Qdiv, Qmult, Qinv, inject_Z. simpl. nia.
Qed.

Lemma weight_at_least_half (total a : Z) :
  0 < a -> a <= total -> (1 # 2 <= inject_Z total / inject_Z (2 * a))%Q.
Proof.
intros Ha Hat. destruct a as [|a|a]; try lia.
unfold Qle, Qdiv, Qmult, Qinv, inject_Z. simpl. nia.
Qed.

Lemma weight_of_half (a : Z) :
  0 < a -> (inject_Z (a + a) / inject_Z (2 * a) == 1)%Q.
Proof.
intros Ha. destruct a as [|a|a]; try lia.
unfold Qeq, Qdiv, Qmult, Qinv, inject_Z. simpl. lia.
Qed.

(** X13. When the weights are defined they are the only two entries of
    the mapping; the class with fewer training examples gets a weight at
    least as large as the other class, no weight is below one half, and
    when the two classes are equally frequent both weights are 1. *)
Theorem class_weights_favour_the_rarer_class (y_train : list Z) (w : gmap Z Q) :
  class_weights y_train = Some w ->
  exists w0 w1,
    w !! 0 = Some w0 /\ w !! 1 = Some w1 /\
    (forall k, k <> 0 -> k <> 1 -> w !! k = None) /\
    let n0 := count_eq 0 y_train in
    let n1 := count_eq 1 y_train in
    (n0 <= n1 -> (w1 <= w0)%Q) /\
    (n1 <= n0 -> (w0 <= w1)%Q) /\
    (1 # 2 <= w0)%Q /\ (1 # 2 <= w1)%Q /\
    (n0 = n1 -> (w0 == 1)%Q /\ (w1 == 1)%Q).
Proof.
unfold class_weights.
destruct (Z.ltb_spec 0 (count_eq 0 y_train)) as [H0|H0]; [|discriminate].
destruct (Z.ltb_spec 0 (count_eq 1 y_train)) as [H1|H1]; [|discriminate].
simpl. intros H. injection H as <-.
eexists _, _. split; [apply lookup_insert_eq|].
split; [rewrite lookup_insert_ne by discriminate; apply lookup_insert_eq|].
split.
{ intros k Hk0 Hk1. rewrite !lookup_insert_ne by congruence. apply lookup_empty. }
cbv zeta. split; [|split; [|split; [|split]]].
- intros Hle. apply weight_order; lia.
- intros Hle. apply weight_order; lia.
- apply weight_at_least_half; lia.
- apply weight_at_least_half; lia.
- intros E. split.
  + rewrite <- E. apply weight_of_half, H0.
  + rewrite E. apply weight_of_half, H1.
Qed.

Lemma class_weights_favour_the_rarer_class_witness :
  exists w0 w1,
    ({[0 := (4 # 6)%Q; 1 := (4 # 2)%Q]} : gmap Z Q) !! 0 = Some w0 /\
    ({[0 := (4 # 6)%Q; 1 := (4 # 2)%Q]} : gmap Z Q) !! 1 = Some w1 /\
    (forall k, k <> 0 -> k <> 1 ->
               ({[0 := (4 # 6)%Q; 1 := (4 # 2)%Q]} : gmap Z Q) !! k = None) /\
    let n0 := count_eq 0 [0; 1; 0; 0] in
    let n1 := count_eq 1 [0; 1; 0; 0] in
    (n0 <= n1 -> (w1 <= w0)%Q) /\
    (n1 <= n0 -> (w0 <= w1)%Q) /\
    (1 # 2 <= w0)%Q /\ (1 # 2 <= w1)%Q /\
    (n0 = n1 -> (w0 == 1)%Q /\ (w1 == 1)%Q).
Proof.
apply (class_weights_favour_the_rarer_class [0; 1; 0; 0]).
vm_compute. reflexivity.
Defined.

End ClassWeightsMore.


(** ** Further properties of the word-level encoder *)

Section WordEncoderMore.
Import Py TextVectorization Training.

Lemma index_of_some (t : string) (toks : list string) (i : nat) :
  index_of t toks = Some i -> toks !! i = Some t.
Proof.
revert i. induction toks as [|x toks IH]; intros i; simpl; [discriminate|].
destruct (String.eqb_spec x t) as [->|Hne].
- intros H. injection H as <-. reflexivity.
- destruct (index_of t toks) as [j|]; [|discriminate].
  simpl. intros H. injection H as <-. simpl. apply IH. reflexivity.
Qed.

Lemma index_of_in (t : string) (toks : list string) :
  In t toks -> exists i, index_of t toks = Some i.
Proof.
induction toks as [|x toks IH]; simpl; [contradiction|].
destruct (String.eqb_spec x t) as [->|Hne]; [eauto|].
intros [H|H]; [contradiction|]. destruct (IH H) as [i ->]. simpl. eauto.
Qed.

(** Every index the layer gives lies within its vocabulary. *)
Lemma lookup_range (l : layer) (t : string) :
  0 <= lookup l t < Z.of_nat (length (get_vocabulary l)).
Proof.
unfold lookup, get_vocabulary. simpl length.
destruct (String.eqb t mask_token); [lia|].
destruct (index_of t (learned l)) as [i|] eqn:E; [|lia].
apply index_of_some in E. apply lookup_lt_Some in E. unfold token_start_index. lia.
Qed.

Lemma vocabulary_within_cap (l0 : layer) (docs : list (list string)) :
  2 <= max_tokens l0 ->
  Z.of_nat (length (get_vocabulary (adapt l0 docs))) <= max_tokens l0.
Proof.
intros Hcap.
assert (E : length (get_vocabulary (adapt l0 docs))
            = S (S (length (learned (adapt l0 docs))))) by reflexivity.
rewrite E, (learned_length l0 docs). unfold token_start_index. lia.
Qed.

Lemma call_ids (l : layer) (doc : list string) (dim : Z) :
  Z.of_nat (length (get_vocabulary l)) <= dim ->
  Forall (fun id => 0 <= id < dim) (call l doc).
Proof.
intros Hdim. unfold call. apply Forall_app. split.
- apply List.Forall_forall. intros id Hin. apply in_firstn_in in Hin.
  apply in_map_iff in Hin as (t & <- & _).
  pose proof (lookup_range l t). lia.
- apply List.Forall_forall. intros id Hin. apply repeat_spec in Hin. subst id.
  pose proof (lookup_range l mask_token). lia.
Qed.

Lemma call_fits (l : layer) (doc : list string) (dim : Z) :
  0 <= output_sequence_length l ->
  Z.of_nat (length (get_vocabulary l)) <= dim ->
  len (call l doc) = output_sequence_length l /\
  Forall (fun id => 0 <= id < dim) (call l doc).
Proof.
intros HL Hdim. split; [|apply call_ids; exact Hdim].
unfold len. rewrite call_length. lia.
Qed.

Variable B : backend.

(** X14. The rows the SMS encoder produces fit the SMS network: every
    training row, and every row later encoded with the fitted layer, has
    the length of the model's input layer and only ids that index its
    embedding layer. *)
Theorem sms_rows_fit_the_bilstm (messages : list string)
        (X : list (list Z)) (vl : layer) :
  preprocess_sms B messages = Ok (X, vl) ->
  Shapes.fits SmsModel.build_bilstm_model X /\
  forall others,
    Shapes.fits SmsModel.build_bilstm_model
      (map (fun msg => call vl (tokenize_sms B msg)) others).
Proof.
intros H. unfold preprocess_sms in H. simpl in H.
injection H as <- <-.
assert (Hrow : forall doc,
           len (call (adapt (Layer Sms.VOCAB_SIZE Sms.MAX_SMS_LENGTH [])
                            (map (tokenize_sms B) messages)) doc) = Sms.MAX_SMS_LENGTH /\
           Forall (fun id => 0 <= id < Sms.VOCAB_SIZE)
                  (call (adapt (Layer Sms.VOCAB_SIZE Sms.MAX_SMS_LENGTH [])
                               (map (tokenize_sms B) messages)) doc)).
{ intros doc. apply call_fits; [simpl; unfold Sms.MAX_SMS_LENGTH; lia|].
  apply (vocabulary_within_cap (Layer Sms.VOCAB_SIZE Sms.MAX_SMS_LENGTH [])).
  simpl. unfold Sms.VOCAB_SIZE. lia. }
split; [|intros others];
  (exists Sms.VOCAB_SIZE, Sms.MAX_SMS_LENGTH;
   split; [reflexivity|]; split; [reflexivity|];
   apply List.Forall_forall; intros row Hin;
   apply in_map_iff in Hin as (doc & <- & _); apply Hrow).
Qed.

(** X23. The rows the e-mail word encoder produces have the length
    MAX_EMAIL_LENGTH and only ids below the vocabulary size it was
    given, for the training e-mails and for every e-mail encoded later
    with the fitted layer. *)
Theorem email_rows_within_vocabulary (emails : list string) (vocab_size : Z)
        (X : list (list Z)) (vl : layer) :
  preprocess_emails_for_lstm B emails vocab_size = Ok (X, vl) ->
  let in_range row :=
    len row = Email.MAX_EMAIL_LENGTH /\
    Forall (fun id => 0 <= id < vocab_size) row in
  Forall in_range X /\
  forall others,
    Forall in_range (map (fun e => call vl (tokenize_email B e)) others).
Proof.
intros H in_range. unfold preprocess_emails_for_lstm, create in H.
destruct (Z.leb_spec vocab_size 1) as [|Hcap]; [discriminate|].
simpl in H. injection H as <- <-.
assert (Hrow : forall doc,
           in_range (call (adapt (Layer vocab_size Email.MAX_EMAIL_LENGTH [])
                                 (map (tokenize_email B) emails)) doc)).
{ intros doc. apply call_fits; [simpl; unfold Email.MAX_EMAIL_LENGTH; lia|].
  pose proof (vocabulary_within_cap (Layer vocab_size Email.MAX_EMAIL_LENGTH [])
                (map (tokenize_email B) emails)) as Hc.
  cbn [max_tokens] in Hc. specialize (Hc ltac:(lia)). lia. }
split; [|intros others];
  (apply List.Forall_forall; intros row Hin;
   apply in_map_iff in Hin as (doc & <- & _); apply Hrow).
Qed.

End WordEncoderMore.

Lemma sms_rows_fit_the_bilstm_witness :
  exists X vl,
    Training.preprocess_sms Samples.demo_backend ["win cash now"; "see you at noon"]
      = Py.Ok (X, vl) /\
    Shapes.fits SmsModel.build_bilstm_model X.
Proof.
destruct (Training.preprocess_sms Samples.demo_backend
            ["win cash now"; "see you at noon"]) as [[X vl]|e] eqn:E.
- exists X, vl. split; [reflexivity|].
  exact (proj1 (sms_rows_fit_the_bilstm Samples.demo_backend _ X vl E)).
- vm_compute in E. discriminate E.
Defined.

Lemma email_rows_within_vocabulary_witness :
  exists X vl,
    Training.preprocess_emails_for_lstm Samples.demo_backend
      ["verify your account"; "see you at noon"] 4 = Py.Ok (X, vl) /\
    Forall (fun row => Py.len row = Email.MAX_EMAIL_LENGTH /\
                       Forall (fun id => 0 <= id < 4) row) X.
Proof.
destruct (Training.preprocess_emails_for_lstm Samples.demo_backend
            ["verify your account"; "see you at noon"] 4) as [[X vl]|e] eqn:E.
- exists X, vl. split; [reflexivity|].
  exact (proj1 (email_rows_within_vocabulary Samples.demo_backend _ 4 X vl E)).
- vm_compute in E. discriminate E.
Defined.

Section VocabularyMore.
Import Py TextVectorization.

Variable l0 : layer.
Variable docs : list (list string).

Lemma learned_not_special (t : string) :
  In t (learned (adapt l0 docs)) -> t <> mask_token /\ t <> oov_token.
Proof.
intros H. apply learned_occurs in H as [_ Hs].
unfold is_special in Hs. apply orb_false_iff in Hs as [Hm Ho].
split; intros ->; [rewrite String.eqb_refl in Hm | rewrite String.eqb_refl in Ho];
  discriminate.
Qed.

(** X15. The vocabulary the scripts save determines the encoding: it has
    no repeated token, and every token in it sits at the position the
    layer encodes it with, so a reader that takes a token's position in
    the saved list as its id reproduces the layer on every vocabulary
    token. *)
Theorem saved_vocabulary_gives_back_the_ids :
  NoDup (get_vocabulary (adapt l0 docs)) /\
  forall t, In t (get_vocabulary (adapt l0 docs)) ->
            get_vocabulary (adapt l0 docs) !! Z.to_nat (lookup (adapt l0 docs) t)
              = Some t.
Proof.
split.
- unfold get_vocabulary. apply NoDup_cons. split.
  + intros H. apply list_elem_of_In in H. destruct H as [H|H]; [discriminate H|].
    apply learned_not_special in H. tauto.
  + apply NoDup_cons. split; [|apply learned_nodup].
    intros H. apply list_elem_of_In in H. apply learned_not_special in H. tauto.
- intros t [<-|[<-|Hin]].
  + reflexivity.
  + unfold lookup. simpl String.eqb. cbv iota.
    rewrite index_of_none; [reflexivity|].
    intros H. apply learned_not_special in H. tauto.
  + destruct (learned_not_special t Hin) as [Hm _].
    destruct (index_of_in t _ Hin) as [i Hi].
    unfold lookup. destruct (String.eqb_spec t mask_token) as [|_]; [contradiction|].
    rewrite Hi. rewrite Nat2Z.id. apply index_of_some in Hi. exact Hi.
Qed.

End VocabularyMore.

Section VocabularyOrder.
Import Py TextVectorization.

Lemma token_counts_perm (docs docs' : list (list string)) :
  concat docs ≡ₚ concat docs' -> token_counts docs = token_counts docs'.
Proof.
intros Hp. apply map_eq. intros t. unfold token_counts.
rewrite !fold_count_lookup.
rewrite (proj1 (Permutation_count_occ string_dec _ _) Hp t). reflexivity.
Qed.

(** X16. The fitted layer depends only on how often each token occurs:
    two training sets whose tokens are the same up to order, as when the
    same messages arrive in another order, give the same vocabulary and
    the same encoding. *)
Theorem adapt_ignores_order (l0 : layer) (docs docs' : list (list string)) :
  concat docs ≡ₚ concat docs' -> adapt l0 docs = adapt l0 docs'.
Proof.
intros Hp. unfold adapt, ranked, counted.
rewrite (token_counts_perm docs docs' Hp). reflexivity.
Qed.

Lemma adapt_ignores_order_witness :
  adapt (Layer 5 4 []) [["free"; "prize"]; ["now"]]
  = adapt (Layer 5 4 []) [["now"]; ["free"; "prize"]].
Proof.
apply adapt_ignores_order. simpl.
apply (Permutation_app_comm ["free"; "prize"] ["now"]).
Defined.

(** X17. Fitted on training text without any token, the layer knows the
    two special tokens only, and every non-empty token is then encoded
    as 1. *)
Theorem adapt_on_no_tokens (l0 : layer) (docs : list (list string)) :
  concat docs = [] ->
  get_vocabulary (adapt l0 docs) = [mask_token; oov_token] /\
  forall t, t <> mask_token -> lookup (adapt l0 docs) t = 1.
Proof.
intros He.
assert (Hl : learned (adapt l0 docs) = []).
{ unfold adapt, ranked, counted, token_counts. rewrite He. simpl fold_left.
  rewrite map_to_list_empty. simpl. rewrite firstn_nil. reflexivity. }
split.
- unfold get_vocabulary. rewrite Hl. reflexivity.
- intros t Ht. unfold lookup. rewrite Hl.
  destruct (String.eqb_spec t mask_token); [contradiction | reflexivity].
Qed.

Lemma adapt_on_no_tokens_witness :
  get_vocabulary (adapt (Layer 5000 160 []) [[]; []]) = [mask_token; oov_token] /\
  forall t, t <> mask_token -> lookup (adapt (Layer 5000 160 []) [[]; []]) t = 1.
Proof.
apply adapt_on_no_tokens. reflexivity.
Defined.

End VocabularyOrder.


(** ** Properties of the SMS text cleaning *)

Section CleanSpacing.
Import Py SmsText.

Lemma collapse_runs_ok (b : bool) (s : string) : runs_ok b (collapse b s) = true.
Proof.
revert b. induction s as [|c s IH]; intros b; simpl; [reflexivity|].
destruct (is_space c) eqn:E.
- destruct b; [apply IH|]. simpl. rewrite IH. reflexivity.
- simpl. rewrite E. apply IH.
Qed.

Lemma runs_ok_weaken (s : string) : runs_ok true s = true -> runs_ok false s = true.
Proof.
destruct s as [|c s]; simpl; [reflexivity|].
destruct (is_space c); [|auto]. rewrite andb_false_r. discriminate.
Qed.

Lemma lstrip_no_leading_space (s : string) :
  runs_ok true s = true -> lstrip s = s.
Proof.
destruct s as [|d s]; simpl; [reflexivity|].
destruct (is_space d); [|reflexivity].
rewrite andb_false_r. discriminate.
Qed.

Lemma lstrip_runs_ok (s : string) :
  runs_ok false s = true -> runs_ok true (lstrip s) = true.
Proof.
destruct s as [|c s]; [reflexivity|].
simpl. destruct (is_space c) eqn:E.
- intros H. apply andb_prop in H as [_ H].
  rewrite (lstrip_no_leading_space s H). exact H.
- intros H. simpl. rewrite E. exact H.
Qed.

Lemma rstrip_spaced (b : bool) (s : string) :
  runs_ok b s = true -> rstrip s = EmptyString \/ spaced b (rstrip s) = true.
Proof.
revert b. induction s as [|c s IH]; intros b; simpl; [auto|].
destruct (is_space c) eqn:E.
- intros H. apply andb_prop in H as [H Hs]. apply andb_prop in H as [Hc Hb].
  destruct (IH true Hs) as [Hr|Hr].
  + rewrite Hr. auto.
  + destruct (rstrip s) as [|d r] eqn:Er; [auto|].
    right. simpl spaced at 1. rewrite E, Hc, Hb. exact Hr.
- intros H. destruct (IH false H) as [Hr|Hr].
  + rewrite Hr. right. simpl. rewrite E. reflexivity.
  + destruct (rstrip s) as [|d r] eqn:Er.
    * right. simpl. rewrite E. reflexivity.
    * right. simpl spaced at 1. rewrite E. exact Hr.
Qed.

Lemma strip_collapse_spaced (s : string) :
  single_spaced (strip (collapse false s)) = true.
Proof.
unfold strip, single_spaced.
pose proof (lstrip_runs_ok _ (collapse_runs_ok false s)) as H.
apply rstrip_spaced in H as [-> | H]; [reflexivity|].
destruct (rstrip _); [reflexivity | exact H].
Qed.

(** X18. In a cleaned ASCII message the only whitespace is single spaces
    between words: no tab or line break is left, no two spaces follow
    each other, and the text neither starts nor ends with a space. *)
Theorem clean_sms_text_is_single_spaced (text : string) :
  ascii_only text -> single_spaced (clean_sms_text text) = true.
Proof. intros _. apply strip_collapse_spaced. Qed.

Lemma clean_sms_text_is_single_spaced_witness :
  single_spaced (clean_sms_text "  WIN   cash
 now ") = true.
Proof.
apply clean_sms_text_is_single_spaced.
repeat (constructor; [vm_compute; reflexivity|]). constructor.
Defined.

End CleanSpacing.

Section CleanLowercase.
Import Py SmsText.

Lemma append_cons (c : ascii) (a b : string) : String c a +:+ b = String c (a +:+ b).
Proof. reflexivity. Qed.

Lemma append_nil (b : string) : EmptyString +:+ b = b.
Proof. reflexivity. Qed.

Lemma sub_urls_eq (b : bool) (c : ascii) (s : string) :
  sub_urls b (String c s) =
    if b
    then (if is_space c then String c (sub_urls false s) else sub_urls true s)
    else if starts_url (String c s) then " url " +:+ sub_urls true s
    else String c (sub_urls false s).
Proof. reflexivity. Qed.

Lemma sub_phones_eq (k : nat) (pw : bool) (c : ascii) (s : string) :
  sub_phones k pw (String c s) =
    match k with
    | S k' => sub_phones k' true s
    | O =>
        if starts_phone pw (String c s)
        then " phonenumber " +:+ sub_phones (digit_run (String c s) - 1) true s
        else String c (sub_phones 0 (is_word c) s)
    end.
Proof. reflexivity. Qed.

Variable P : ascii -> Prop.

Local Abbreviation all_chars := (SmsText.all_chars P).

Hypothesis P_space : P " "%char.
Hypothesis P_url : all_chars "url".
Hypothesis P_phone : all_chars "phonenumber".

Lemma all_chars_cons c s : all_chars (String c s) <-> P c /\ all_chars s.
Proof. unfold all_chars. simpl. apply Forall_cons. Qed.

Lemma all_chars_literal (lit s : string) :
  all_chars lit -> all_chars s -> all_chars (String " " (lit +:+ String " " s)).
Proof.
intros Hl Hs. apply all_chars_cons. split; [exact P_space|].
induction lit as [|c lit IH].
- rewrite append_nil. apply all_chars_cons. auto.
- rewrite append_cons. apply all_chars_cons in Hl as [Hc Hl].
  apply all_chars_cons. auto.
Qed.

Lemma sub_urls_chars (b : bool) (s : string) :
  all_chars s -> all_chars (sub_urls b s).
Proof.
revert b. induction s as [|c s IH]; intros b H; [exact H|].
apply all_chars_cons in H as [Hc Hs]. rewrite sub_urls_eq.
destruct b.
- destruct (is_space c); [apply all_chars_cons|]; auto.
- destruct (starts_url (String c s)).
  + apply (all_chars_literal "url"); auto.
  + apply all_chars_cons. auto.
Qed.

Lemma sub_phones_chars (k : nat) (pw : bool) (s : string) :
  all_chars s -> all_chars (sub_phones k pw s).
Proof.
revert k pw. induction s as [|c s IH]; intros k pw H; [exact H|].
apply all_chars_cons in H as [Hc Hs]. rewrite sub_phones_eq.
destruct k as [|k]; [|auto].
destruct (starts_phone pw (String c s)).
- apply (all_chars_literal "phonenumber"); auto.
- apply all_chars_cons. auto.
Qed.

Lemma collapse_chars (b : bool) (s : string) :
  all_chars s -> all_chars (collapse b s).
Proof.
revert b. induction s as [|c s IH]; intros b H; [exact H|].
apply all_chars_cons in H as [Hc Hs]. simpl.
destruct (is_space c); [destruct b|]; try apply all_chars_cons; auto.
Qed.

Lemma lstrip_chars (s : string) : all_chars s -> all_chars (lstrip s).
Proof.
induction s as [|c s IH]; intros H; [exact H|].
simpl. destruct (is_space c); [|exact H].
apply all_chars_cons in H as [_ Hs]. auto.
Qed.

Lemma rstrip_chars (s : string) : all_chars s -> all_chars (rstrip s).
Proof.
induction s as [|c s IH]; intros H; [exact H|].
apply all_chars_cons in H as [Hc Hs]. specialize (IH Hs). simpl.
destruct (rstrip s) as [|d r].
- destruct (is_space c); [constructor | apply all_chars_cons; auto].
- apply all_chars_cons. auto.
Qed.

(** Cleaning adds nothing but the two placeholders and spaces. *)
Lemma clean_chars (text : string) :
  all_chars (lower text) -> all_chars (clean_sms_text text).
Proof.
intros H. unfold clean_sms_text, strip.
apply rstrip_chars, lstrip_chars, collapse_chars, sub_phones_chars, sub_urls_chars, H.
Qed.

End CleanLowercase.

Section CleanNoCapitals.
Import Py SmsText.

Lemma lower_char_not_capital (c : ascii) : not_capital (lower_char c).
Proof.
unfold not_capital, lower_char.
destruct ((65 <=? code c) && (code c <=? 90))%N eqn:E; [|exact E].
apply andb_prop in E as [E1 E2]. apply N.leb_le in E1, E2.
unfold code in *. rewrite N_ascii_embedding by lia.
apply andb_false_iff. right. apply N.leb_gt. lia.
Qed.

Lemma lower_not_capital (s : string) : SmsText.all_chars not_capital (lower s).
Proof.
induction s as [|c s IH]; simpl; [constructor|].
apply all_chars_cons. split; [apply lower_char_not_capital | exact IH].
Qed.

(** X19. A cleaned ASCII message has no capital letter: the text is
    lowered first and the placeholders the substitutions write are in
    lower case. *)
Theorem clean_sms_text_has_no_capitals (text : string) :
  ascii_only text -> no_capitals (clean_sms_text text).
Proof.
intros _. apply (clean_chars not_capital).
- reflexivity.
- repeat (constructor; [reflexivity|]). constructor.
- repeat (constructor; [reflexivity|]). constructor.
- apply lower_not_capital.
Qed.

Lemma clean_sms_text_has_no_capitals_witness :
  no_capitals (clean_sms_text "WIN Cash").
Proof.
apply clean_sms_text_has_no_capitals.
repeat (constructor; [vm_compute; reflexivity|]). constructor.
Defined.

End CleanNoCapitals.

Section CleanUrlFree.
Import Py SmsText.

(** A match needs five characters: a prefix and one that is no space. *)
Lemma starts_url_spec (s : string) :
  starts_url s = true <->
  exists c4 rest,
    (s = "http" +:+ String c4 rest \/ s = "www." +:+ String c4 rest) /\
    nonspace c4.
Proof.
unfold nonspace. split.
- destruct s as [|c0 [|c1 [|c2 [|c3 [|c4 rest]]]]]; try discriminate.
  unfold starts_url. intros H. apply andb_prop in H as [H Hs].
  apply negb_true_iff in Hs. exists c4, rest. split; [|exact Hs].
  apply orb_prop in H as [H|H]; apply String.eqb_eq in H;
    injection H as -> -> -> ->; [left | right]; reflexivity.
- intros (c4 & rest & [-> | ->] & Hs); rewrite !append_cons, append_nil;
    unfold starts_url; rewrite Hs; reflexivity.
Qed.

Lemma starts_url_first (c : ascii) (s : string) :
  starts_url (String c s) = true -> c = "h"%char \/ c = "w"%char.
Proof.
intros H. apply starts_url_spec in H as (c4 & rest & [H|H] & _);
  injection H as -> _; auto.
Qed.

Lemma starts_url_other (c : ascii) (s : string) :
  c <> "h"%char -> c <> "w"%char -> starts_url (String c s) = false.
Proof.
intros Hh Hw. destruct (starts_url (String c s)) eqn:E; [|reflexivity].
apply starts_url_first in E as [E|E]; contradiction.
Qed.

Lemma starts_url_transfer (c : ascii) (o s : string) :
  keeps_words o s -> starts_url (String c o) = true -> starts_url (String c s) = true.
Proof.
intros Hk H. apply starts_url_spec in H as (c4 & rest & H & Hs).
assert (Hn : forall a b d, nonspace a -> nonspace b -> nonspace d ->
                           all_chars nonspace (String a (String b (String d (String c4 ""))))).
{ intros a b d Ha Hb Hd. repeat (constructor; [assumption|]). constructor. }
apply starts_url_spec. exists c4.
destruct H as [H|H]; injection H as -> ->.
- destruct (Hk (String "t" (String "t" (String "p" (String c4 "")))) rest eq_refl)
    as [rest' ->]; [apply Hn; reflexivity|].
  exists rest'. split; [left; reflexivity | exact Hs].
- destruct (Hk (String "w" (String "w" (String "." (String c4 "")))) rest eq_refl)
    as [rest' ->]; [apply Hn; reflexivity|].
  exists rest'. split; [right; reflexivity | exact Hs].
Qed.

(** A scan that copies a character or writes a space in its place, and
    then goes on likewise, keeps words. *)
Lemma keeps_words_step (c : ascii) (o s : string) :
  keeps_words o s -> keeps_words (String c o) (String c s).
Proof.
intros Hk cs rest E Hcs. destruct cs as [|d cs].
- exists (String c s). reflexivity.
- rewrite append_cons in E. injection E as <- E.
  apply Forall_cons in Hcs as [_ Hcs].
  destruct (Hk cs rest E Hcs) as [rest' ->]. exists rest'. reflexivity.
Qed.

Lemma keeps_words_space (o s : string) : keeps_words (String " " o) s.
Proof.
intros cs rest E Hcs. destruct cs as [|d cs].
- exists s. reflexivity.
- rewrite append_cons in E. injection E as <- E.
  apply Forall_cons in Hcs as [Hd _]. discriminate Hd.
Qed.

Lemma keeps_words_nil (s : string) : keeps_words EmptyString s.
Proof.
intros cs rest E _. destruct cs as [|d cs]; [exists s; reflexivity | discriminate E].
Qed.

Lemma sub_urls_keeps_words (s : string) : keeps_words (sub_urls false s) s.
Proof.
induction s as [|c s IH]; [apply keeps_words_nil|].
rewrite sub_urls_eq. destruct (starts_url (String c s)).
- apply keeps_words_space.
- apply keeps_words_step, IH.
Qed.

Lemma sub_phones_keeps_words (pw : bool) (s : string) :
  keeps_words (sub_phones 0 pw s) s.
Proof.
revert pw. induction s as [|c s IH]; intros pw; [apply keeps_words_nil|].
rewrite sub_phones_eq. destruct (starts_phone pw (String c s)).
- apply keeps_words_space.
- apply keeps_words_step, IH.
Qed.

Lemma collapse_keeps_words (s : string) : keeps_words (collapse false s) s.
Proof.
induction s as [|c s IH]; [apply keeps_words_nil|].
simpl. destruct (is_space c).
- apply keeps_words_space.
- apply keeps_words_step, IH.
Qed.

Lemma append_assoc (a b c : string) : (a +:+ b) +:+ c = a +:+ (b +:+ c).
Proof.
induction a as [|x a IH]; [reflexivity|].
rewrite !append_cons, IH. reflexivity.
Qed.

Lemma rstrip_prefix (s : string) : exists t, s = rstrip s +:+ t.
Proof.
induction s as [|c s [t IH]]; [exists EmptyString; reflexivity|].
simpl. destruct (rstrip s) as [|d r].
- destruct (is_space c).
  + exists (String c s). reflexivity.
  + exists t. rewrite append_nil in IH. rewrite IH at 1. reflexivity.
- exists t. rewrite append_cons. f_equal. exact IH.
Qed.

Lemma rstrip_keeps_words (s : string) : keeps_words (rstrip s) s.
Proof.
intros cs rest E _. destruct (rstrip_prefix s) as [t Ht].
exists (rest +:+ t). rewrite Ht at 1. rewrite E. apply append_assoc.
Qed.

Lemma url_free_cons (c : ascii) (s : string) :
  url_free (String c s) = negb (starts_url (String c s)) && url_free s.
Proof. reflexivity. Qed.

(** Copying a character in front of a scan that keeps words adds no
    match. *)
Lemma url_free_step (c : ascii) (o s : string) :
  keeps_words o s -> url_free (String c s) = true -> url_free o = true ->
  url_free (String c o) = true.
Proof.
intros Hk Hs Ho. rewrite url_free_cons in *. rewrite Ho, andb_true_r.
apply andb_prop in Hs as [Hs _]. apply negb_true_iff in Hs. apply negb_true_iff.
destruct (starts_url (String c o)) eqn:E; [|reflexivity].
rewrite (starts_url_transfer c o s Hk E) in Hs. discriminate.
Qed.

Lemma url_free_tail (c : ascii) (s : string) :
  url_free (String c s) = true -> url_free s = true.
Proof. rewrite url_free_cons. intros H. apply andb_prop in H. tauto. Qed.

Lemma url_free_url_literal (o : string) :
  url_free o = true -> url_free (" url " +:+ o) = true.
Proof.
intros H. rewrite !append_cons, append_nil.
repeat (rewrite url_free_cons, starts_url_other by discriminate; simpl negb;
        rewrite andb_true_l).
exact H.
Qed.

Lemma url_free_phone_literal (o : string) :
  url_free o = true -> url_free (" phonenumber " +:+ o) = true.
Proof.
intros H. rewrite !append_cons, append_nil.
do 2 (rewrite url_free_cons, starts_url_other by discriminate; simpl negb;
      rewrite andb_true_l).
rewrite url_free_cons.
replace (starts_url (String "h" (String "o" (String "n" (String "e"
          (String "n" (String "u" (String "m" (String "b" (String "e"
          (String "r" (String " " o)))))))))))) with false by reflexivity.
simpl negb. rewrite andb_true_l.
repeat (rewrite url_free_cons, starts_url_other by discriminate; simpl negb;
        rewrite andb_true_l).
exact H.
Qed.

Lemma sub_urls_url_free (b : bool) (s : string) : url_free (sub_urls b s) = true.
Proof.
revert b. induction s as [|c s IH]; intros b; [reflexivity|].
rewrite sub_urls_eq. destruct b.
- destruct (is_space c) eqn:E; [|apply IH].
  rewrite url_free_cons, IH, andb_true_r. apply negb_true_iff.
  apply starts_url_other; intros ->; discriminate E.
- destruct (starts_url (String c s)) eqn:E.
  + apply url_free_url_literal, IH.
  + rewrite url_free_cons, IH, andb_true_r. apply negb_true_iff.
    destruct (starts_url (String c (sub_urls false s))) eqn:E'; [|reflexivity].
    rewrite (starts_url_transfer c _ s (sub_urls_keeps_words s) E') in E.
    discriminate.
Qed.

Lemma sub_phones_url_free (k : nat) (pw : bool) (s : string) :
  url_free s = true -> url_free (sub_phones k pw s) = true.
Proof.
revert k pw. induction s as [|c s IH]; intros k pw H; [reflexivity|].
pose proof (url_free_tail _ _ H) as Ht.
rewrite sub_phones_eq. destruct k as [|k]; [|apply IH, Ht].
destruct (starts_phone pw (String c s)).
- apply url_free_phone_literal, IH, Ht.
- apply (url_free_step c _ s); [apply sub_phones_keeps_words | exact H | apply IH, Ht].
Qed.

Lemma collapse_url_free (b : bool) (s : string) :
  url_free s = true -> url_free (collapse b s) = true.
Proof.
revert b. induction s as [|c s IH]; intros b H; [reflexivity|].
pose proof (url_free_tail _ _ H) as Ht. simpl.
destruct (is_space c) eqn:E.
- destruct b; [apply IH, Ht|].
  rewrite url_free_cons, (IH true Ht), andb_true_r.
  rewrite starts_url_other by discriminate. reflexivity.
- apply (url_free_step c _ s); [apply collapse_keeps_words | exact H | apply IH, Ht].
Qed.

Lemma lstrip_url_free (s : string) :
  url_free s = true -> url_free (lstrip s) = true.
Proof.
induction s as [|c s IH]; intros H; [reflexivity|].
simpl. destruct (is_space c); [|exact H]. apply IH. exact (url_free_tail _ _ H).
Qed.

Lemma rstrip_url_free (s : string) :
  url_free s = true -> url_free (rstrip s) = true.
Proof.
induction s as [|c s IH]; intros H; [reflexivity|].
pose proof (url_free_tail _ _ H) as Ht. specialize (IH Ht).
pose proof (url_free_step c (rstrip s) s (rstrip_keeps_words s) H IH) as Hstep.
simpl. destruct (rstrip s) as [|d r]; [|exact Hstep].
destruct (is_space c); [reflexivity | exact Hstep].
Qed.

(** X20. The URL expression matches nowhere in a cleaned ASCII message:
    no http and no www. is left that is followed by a character other
    than whitespace. *)
Theorem clean_sms_text_leaves_no_url (text : string) :
  ascii_only text -> url_free (clean_sms_text text) = true.
Proof.
intros _. unfold clean_sms_text, strip.
apply rstrip_url_free, lstrip_url_free, collapse_url_free, sub_phones_url_free,
  sub_urls_url_free.
Qed.

Lemma clean_sms_text_leaves_no_url_witness :
  url_free (clean_sms_text "see www.a.example or http://b.example") = true.
Proof.
apply clean_sms_text_leaves_no_url.
repeat (constructor; [vm_compute; reflexivity|]). constructor.
Defined.

End CleanUrlFree.

Section CleanPhoneFree.
Import Py SmsText.

Ltac classes :=
  unfold is_digit, is_word, is_space in *;
  repeat match goal with
         | |- context [(?a <=? ?b)%N] => destruct (N.leb_spec a b)
         | |- context [(?a =? ?b)%N] => destruct (N.eqb_spec a b)
         | H : context [(?a <=? ?b)%N] |- _ => destruct (N.leb_spec a b)
         | H : context [(?a =? ?b)%N] |- _ => destruct (N.eqb_spec a b)
         end;
  simpl in *; try reflexivity; try discriminate; try lia.

Lemma digit_is_word (c : ascii) : is_digit c = true -> is_word c = true.
Proof. intros H. classes. Qed.

Lemma digit_is_no_space (c : ascii) : is_digit c = true -> is_space c = false.
Proof. intros H. classes. Qed.

Lemma space_is_no_word (c : ascii) : is_space c = true -> is_word c = false.
Proof. intros H. classes. Qed.

Lemma space_is_no_digit (c : ascii) : is_space c = true -> is_digit c = false.
Proof. intros H. classes. Qed.

Lemma starts_phone_eq (pw : bool) (s : string) :
  starts_phone pw s =
    negb pw && (10 <=? digit_run s)%nat && boundary (char_after (digit_run s) s).
Proof. reflexivity. Qed.

Lemma phone_free_cons (pw : bool) (c : ascii) (s : string) :
  phone_free pw (String c s) =
    negb (starts_phone pw (String c s)) && phone_free (is_word c) s.
Proof. reflexivity. Qed.

Lemma phone_free_tail (pw : bool) (c : ascii) (s : string) :
  phone_free pw (String c s) = true -> phone_free (is_word c) s = true.
Proof. rewrite phone_free_cons. intros H. apply andb_prop in H. tauto. Qed.

Lemma digit_run_cons (c : ascii) (s : string) :
  digit_run (String c s) = if is_digit c then S (digit_run s) else 0%nat.
Proof. reflexivity. Qed.

(** No match starts at a character that is not a digit. *)
Lemma starts_phone_no_digit (pw : bool) (c : ascii) (s : string) :
  is_digit c = false -> starts_phone pw (String c s) = false.
Proof.
intros H. rewrite starts_phone_eq, digit_run_cons, H. simpl.
rewrite andb_false_r. reflexivity.
Qed.

Lemma starts_phone_after_word (s : string) : starts_phone true s = false.
Proof. reflexivity. Qed.

Lemma phone_free_no_digit (pw : bool) (c : ascii) (s : string) :
  is_digit c = false ->
  phone_free pw (String c s) = phone_free (is_word c) s.
Proof.
intros H. rewrite phone_free_cons, starts_phone_no_digit by exact H. reflexivity.
Qed.

Lemma same_start_starts_phone (pw : bool) (o s : string) :
  same_start o s -> starts_phone pw o = starts_phone pw s.
Proof.
intros [Hr Hb]. rewrite !starts_phone_eq, Hr, Hb. reflexivity.
Qed.

Lemma same_start_digit (c : ascii) (o s : string) :
  is_digit c = true -> same_start o s -> same_start (String c o) (String c s).
Proof.
intros Hc [Hr Hb]. unfold same_start. rewrite !digit_run_cons, Hc, Hr.
split; [reflexivity | exact Hb].
Qed.

Lemma same_start_no_digit (c d : ascii) (o s : string) :
  is_digit c = false -> is_digit d = false -> is_word c = is_word d ->
  same_start (String c o) (String d s).
Proof.
intros Hc Hd Hw. unfold same_start. rewrite !digit_run_cons, Hc, Hd.
split; [reflexivity|]. simpl. rewrite Hw. reflexivity.
Qed.

Lemma same_start_nil_no_word (c : ascii) (s : string) :
  is_digit c = false -> is_word c = false -> same_start EmptyString (String c s).
Proof.
intros Hc Hw. unfold same_start. rewrite digit_run_cons, Hc.
split; [reflexivity|]. simpl. rewrite Hw. reflexivity.
Qed.

Lemma same_start_refl (s : string) : same_start s s.
Proof. split; reflexivity. Qed.

(** After a word character the phone scan copies the digits it meets. *)
Lemma sub_phones_same_start (s : string) : same_start (sub_phones 0 true s) s.
Proof.
induction s as [|c s IH]; [apply same_start_refl|].
rewrite sub_phones_eq, starts_phone_after_word.
destruct (is_digit c) eqn:E.
- rewrite (digit_is_word c E). apply same_start_digit; assumption.
- apply same_start_no_digit; auto.
Qed.

Lemma collapse_same_start (s : string) : same_start (collapse false s) s.
Proof.
induction s as [|c s IH]; [apply same_start_refl|].
simpl. destruct (is_space c) eqn:Es.
- apply same_start_no_digit;
    [reflexivity | apply space_is_no_digit, Es |].
  rewrite (space_is_no_word c Es). reflexivity.
- destruct (is_digit c) eqn:E.
  + apply same_start_digit; assumption.
  + apply same_start_no_digit; auto.
Qed.

Lemma rstrip_cons_nonspace (c : ascii) (s : string) :
  is_space c = false -> rstrip (String c s) = String c (rstrip s).
Proof. intros H. simpl. rewrite H. destruct (rstrip s); reflexivity. Qed.

Lemma rstrip_same_start (s : string) : same_start (rstrip s) s.
Proof.
induction s as [|c s IH]; [apply same_start_refl|].
destruct (is_space c) eqn:Es.
- pose proof (space_is_no_digit c Es) as Hd. pose proof (space_is_no_word c Es) as Hw.
  simpl. rewrite Es. destruct (rstrip s).
  + apply same_start_nil_no_word; assumption.
  + apply same_start_no_digit; auto.
- rewrite rstrip_cons_nonspace by exact Es.
  destruct (is_digit c) eqn:E.
  + apply same_start_digit; assumption.
  + apply same_start_no_digit; auto.
Qed.

(** Copying a character in front of a scan that looks the same at its
    start adds no match. *)
Lemma phone_free_step (pw : bool) (c : ascii) (o s : string) :
  same_start o s -> starts_phone pw (String c s) = false ->
  phone_free (is_word c) o = true ->
  phone_free pw (String c o) = true.
Proof.
intros Hsame Hs Ho. rewrite phone_free_cons, Ho, andb_true_r.
destruct (is_digit c) eqn:E.
- rewrite (same_start_starts_phone pw _ _ (same_start_digit c o s E Hsame)), Hs.
  reflexivity.
- rewrite starts_phone_no_digit by exact E. reflexivity.
Qed.

Lemma phone_free_head (pw : bool) (s : string) :
  phone_free pw s = true -> starts_phone pw s = false.
Proof.
destruct s; simpl; intros H; apply andb_prop in H as [H _];
  apply negb_true_iff in H; exact H.
Qed.

Lemma phone_free_nil (pw : bool) : phone_free pw EmptyString = true.
Proof. destruct pw; reflexivity. Qed.

Lemma sub_phones_phone_free (s : string) :
  (forall pw, phone_free pw (sub_phones 0 pw s) = true) /\
  (forall pw, phone_free pw (sub_phones (digit_run s) true s) = true).
Proof.
induction s as [|c s [IH0 IHr]].
- split; intros pw; apply phone_free_nil.
- assert (H0 : forall pw, phone_free pw (sub_phones 0 pw (String c s)) = true).
  { intros pw. rewrite sub_phones_eq.
    destruct (starts_phone pw (String c s)) eqn:Em.
    - assert (Hc : is_digit c = true).
      { destruct (is_digit c) eqn:E; [reflexivity|].
        rewrite starts_phone_no_digit in Em by exact E. discriminate. }
      rewrite digit_run_cons, Hc. cbn [Nat.sub Nat.pred].
      rewrite Nat.sub_0_r.
      rewrite !append_cons, append_nil.
      rewrite !phone_free_no_digit by reflexivity.
      apply IHr.
    - destruct (is_digit c) eqn:E.
      + apply phone_free_step with (s := s).
        * rewrite (digit_is_word c E). apply sub_phones_same_start.
        * exact Em.
        * apply IH0.
      + rewrite phone_free_no_digit by exact E. apply IH0. }
  split; [exact H0|].
  intros pw. rewrite digit_run_cons. destruct (is_digit c) eqn:E.
  + rewrite sub_phones_eq. apply IHr.
  + rewrite sub_phones_eq, starts_phone_after_word.
    rewrite phone_free_no_digit by exact E. apply IH0.
Qed.

Lemma collapse_phone_free (b pw : bool) (s : string) :
  (b = true -> pw = false) ->
  phone_free pw s = true -> phone_free pw (collapse b s) = true.
Proof.
revert b pw. induction s as [|c s IH]; intros b pw Hb H; [exact H|].
pose proof (phone_free_tail _ _ _ H) as Ht. simpl.
destruct (is_space c) eqn:E.
- rewrite (space_is_no_word c E) in Ht. destruct b.
  + rewrite (Hb eq_refl). apply IH; auto.
  + rewrite phone_free_no_digit by reflexivity.
    change (is_word " ") with false. apply IH; auto.
- apply (phone_free_step pw c _ s).
  + apply collapse_same_start.
  + apply phone_free_head, H.
  + apply IH; [discriminate | exact Ht].
Qed.

Lemma lstrip_phone_free (s : string) :
  phone_free false s = true -> phone_free false (lstrip s) = true.
Proof.
induction s as [|c s IH]; intros H; [exact H|].
simpl. destruct (is_space c) eqn:E; [|exact H].
apply IH. rewrite <- (space_is_no_word c E). exact (phone_free_tail _ _ _ H).
Qed.

Lemma rstrip_phone_free (pw : bool) (s : string) :
  phone_free pw s = true -> phone_free pw (rstrip s) = true.
Proof.
revert pw. induction s as [|c s IH]; intros pw H; [exact H|].
pose proof (phone_free_tail _ _ _ H) as Ht. specialize (IH _ Ht).
destruct (is_space c) eqn:E.
- simpl. rewrite E. destruct (rstrip s) as [|d r]; [apply phone_free_nil|].
  rewrite phone_free_no_digit by (apply space_is_no_digit, E). exact IH.
- rewrite rstrip_cons_nonspace by exact E.
  apply (phone_free_step pw c _ s);
    [apply rstrip_same_start | apply phone_free_head, H | exact IH].
Qed.

Lemma clean_phone_free (text : string) :
  phone_free false (clean_sms_text text) = true.
Proof.
unfold clean_sms_text, strip.
apply rstrip_phone_free, lstrip_phone_free, collapse_phone_free;
  [discriminate|].
apply sub_phones_phone_free.
Qed.

(** X21. The phone-number expression matches nowhere in a cleaned ASCII
    message: no run of ten or more digits is left that stands between
    two word boundaries. *)
Theorem clean_sms_text_leaves_no_phone_number (text : string) :
  ascii_only text -> phone_free false (clean_sms_text text) = true.
Proof. intros _. apply clean_phone_free. Qed.

Lemma clean_sms_text_leaves_no_phone_number_witness :
  phone_free false (clean_sms_text "Call 08001234567 or 09061701461x now") = true.
Proof.
apply clean_sms_text_leaves_no_phone_number.
repeat (constructor; [vm_compute; reflexivity|]). constructor.
Defined.

End CleanPhoneFree.

Section CleanIdempotent.
Import Py SmsText.

Lemma lower_fixed (s : string) : no_capitals s -> lower s = s.
Proof.
unfold no_capitals. induction s as [|c s IH]; simpl; intros H; [reflexivity|].
apply Forall_cons in H as [Hc Hs]. unfold lower_char. rewrite Hc, (IH Hs).
reflexivity.
Qed.

Lemma sub_urls_fixed (s : string) : url_free s = true -> sub_urls false s = s.
Proof.
induction s as [|c s IH]; intros H; [reflexivity|].
rewrite sub_urls_eq. rewrite url_free_cons in H. apply andb_prop in H as [Hc Hs].
apply negb_true_iff in Hc. rewrite Hc, (IH Hs). reflexivity.
Qed.

Lemma sub_phones_fixed (pw : bool) (s : string) :
  phone_free pw s = true -> sub_phones 0 pw s = s.
Proof.
revert pw. induction s as [|c s IH]; intros pw H; [reflexivity|].
rewrite sub_phones_eq, (phone_free_head _ _ H), (IH _ (phone_free_tail _ _ _ H)).
reflexivity.
Qed.

Lemma collapse_fixed (b : bool) (s : string) :
  runs_ok b s = true -> collapse b s = s.
Proof.
revert b. induction s as [|c s IH]; intros b; simpl; [reflexivity|].
destruct (is_space c).
- intros H. apply andb_prop in H as [H Hs]. apply andb_prop in H as [Hc Hb].
  apply Ascii.eqb_eq in Hc. apply negb_true_iff in Hb. subst.
  rewrite (IH _ Hs). reflexivity.
- intros H. rewrite (IH _ H). reflexivity.
Qed.

Lemma spaced_runs_ok (b : bool) (s : string) :
  spaced b s = true -> runs_ok b s = true.
Proof.
revert b. induction s as [|c s IH]; intros b; simpl; [reflexivity|].
destruct (is_space c); [|apply IH].
intros H. apply andb_prop in H as [H Hs]. rewrite H. apply IH, Hs.
Qed.

Lemma rstrip_fixed (b : bool) (s : string) : spaced b s = true -> rstrip s = s.
Proof.
revert b. induction s as [|c s IH]; intros b; simpl; [reflexivity|].
destruct (is_space c).
- intros H. apply andb_prop in H as [_ Hs]. rewrite (IH _ Hs).
  destruct s; [discriminate | reflexivity].
- intros H. rewrite (IH _ H). destruct s; reflexivity.
Qed.

Lemma single_spaced_runs_ok (s : string) :
  single_spaced s = true -> runs_ok true s = true.
Proof.
destruct s as [|c s]; [reflexivity|]. apply spaced_runs_ok.
Qed.

Lemma strip_fixed (s : string) : single_spaced s = true -> strip s = s.
Proof.
intros H. unfold strip.
rewrite (lstrip_no_leading_space s (single_spaced_runs_ok s H)).
destruct s as [|c s]; [reflexivity|]. exact (rstrip_fixed true _ H).
Qed.

(** A text that is already clean is left as it is. *)
Lemma clean_fixed (s : string) :
  no_capitals s -> url_free s = true -> phone_free false s = true ->
  single_spaced s = true -> clean_sms_text s = s.
Proof.
intros Hl Hu Hp Hs. unfold clean_sms_text.
rewrite (lower_fixed s Hl), (sub_urls_fixed s Hu), (sub_phones_fixed false s Hp).
rewrite (collapse_fixed false s
           (runs_ok_weaken s (single_spaced_runs_ok s Hs))).
apply strip_fixed, Hs.
Qed.

Lemma clean_no_capitals (text : string) : no_capitals (clean_sms_text text).
Proof.
apply (clean_chars not_capital).
- reflexivity.
- repeat (constructor; [reflexivity|]). constructor.
- repeat (constructor; [reflexivity|]). constructor.
- apply lower_not_capital.
Qed.

Lemma clean_url_free (text : string) : url_free (clean_sms_text text) = true.
Proof.
unfold clean_sms_text, strip.
apply rstrip_url_free, lstrip_url_free, collapse_url_free, sub_phones_url_free,
  sub_urls_url_free.
Qed.

(** X22. Cleaning is idempotent on ASCII messages: a cleaned message is
    left unchanged by a second cleaning. *)
Theorem clean_sms_text_is_idempotent (text : string) :
  ascii_only text ->
  clean_sms_text (clean_sms_text text) = clean_sms_text text.
Proof.
intros _. apply clean_fixed.
- apply clean_no_capitals.
- apply clean_url_free.
- apply clean_phone_free.
- apply strip_collapse_spaced.
Qed.

Lemma clean_sms_text_is_idempotent_witness :
  clean_sms_text (clean_sms_text "FREE entry:  call 08001234567 or see WWW.a.example ") =
  clean_sms_text "FREE entry:  call 08001234567 or see WWW.a.example ".
Proof.
apply clean_sms_text_is_idempotent.
repeat (constructor; [vm_compute; reflexivity|]). constructor.
Defined.

End CleanIdempotent.

(** ** The default e-mail run *)

Section SimplifiedEmailRun.
Import Py Pd Training.

Variable B : backend.

(** X25. The e-mail script's default run, with the word-level LSTM
    model, never completes: whatever the table and whatever the
    splitter and the framework return, [train_email_model] raises; and
    when the table loads, the split succeeds and the e-mails are text,
    it raises NameError for the name layers, after the e-mails were
    encoded and before any model is built. *)
Theorem simplified_email_run_never_completes (df : DataFrame) :
  is_ok (train_email_model B df true) = false /\
  forall emails labels train_idx test_idx train_texts test_texts,
    EmailLoader.load_email_dataset df = Ok (emails, labels) ->
    train_test_split B labels = Ok (train_idx, test_idx) ->
    as_texts (take_rows train_idx emails) = Ok train_texts ->
    as_texts (take_rows test_idx emails) = Ok test_texts ->
    train_email_model B df true =
      Raise (NameError "name 'layers' is not defined").
Proof.
split.
- unfold train_email_model.
  destruct (EmailLoader.load_email_dataset df) as [[emails labels]|e];
    [|reflexivity].
  cbn [mbind result_bind].
  destruct (train_test_split B labels) as [[train_idx test_idx]|e];
    [|reflexivity].
  cbn [mbind result_bind].
  destruct (as_texts (take_rows train_idx emails)) as [train_texts|e];
    [|reflexivity].
  cbn [mbind result_bind].
  destruct (as_texts (take_rows test_idx emails)) as [test_texts|e];
    reflexivity.
- intros emails labels train_idx test_idx train_texts test_texts Hl Hs Ha Hb.
  unfold train_email_model. rewrite Hl. cbn [mbind result_bind].
  rewrite Hs. cbn [mbind result_bind]. rewrite Ha. cbn [mbind result_bind].
  rewrite Hb. reflexivity.
Qed.

End SimplifiedEmailRun.

Lemma simplified_email_run_never_completes_witness :
  Training.train_email_model Samples.demo_backend MoreSamples.email_run_table true =
    Py.Raise (Py.NameError "name 'layers' is not defined").
Proof.
apply (proj2 (simplified_email_run_never_completes Samples.demo_backend
                MoreSamples.email_run_table)
         (Pd.Object [Some "verify your account now"; Some "lunch at noon";
                     Some "your invoice is attached"; Some "claim your prize"])
         [1; 0; 0; 1] [0%nat; 1%nat; 2%nat] [3%nat]
         ["verify your account now"; "lunch at noon"; "your invoice is attached"]
         ["claim your prize"]);
  vm_compute; reflexivity.
Defined.
